(** * io-launch: launch-configuration resolution and command construction

    A shallow embedding of [main.go]: the flag-to-cache fallback, the
    interactive prompt loops, the image janitor and the construction of the
    [docker run] invocation, together with the properties the specification
    states about them.

    Go strings are byte strings and are modelled by [string]; a Go
    [map[string]interface{}] is a [gmap string CacheValue]; the process'
    interaction with its surroundings (standard input and output, external
    commands, the cache file) goes through a small state-and-exit monad. *)

From Stdlib Require Import Ascii String List Bool Arith NArith Lia.
From stdpp Require Import base option list strings gmap.

Local Open Scope string_scope.
Local Open Scope list_scope.

(** ** Runes: the parts of Go's [unicode/utf8] and [unicode] packages that
    [strings] works with

    A Go string is a sequence of bytes; the library reads it as UTF-8, a
    byte that starts no valid encoding being the rune [RuneError] of width
    1. *)

Module utf8.

Definition RuneError : N := 0xFFFD.
Definition RuneSelf : N := 0x80.
Definition UTFMax : nat := 4.

Definition maskx : N := 0x3F.
Definition mask2 : N := 0x1F.
Definition mask3 : N := 0x0F.
Definition mask4 : N := 0x07.

(** The default lowest and highest continuation byte. *)
Definition locb : N := 0x80.
Definition hicb : N := 0xBF.

(** [s[i]], for [i] below [len(s)]. *)
Definition byteAt (s : string) (i : nat) : N :=
  match String.get i s with
  | Some c => N_of_ascii c
  | None => 0%N
  end.

(** An entry of the table [first]: ASCII, invalid, or the size of the
    encoding together with the range accepted for its second byte. *)
Inductive FirstEntry : Type :=
| as_ : FirstEntry
| xx : FirstEntry
| lead (size : nat) (lo hi : N) : FirstEntry.

Definition s1 : FirstEntry := lead 2 locb hicb.
Definition s2 : FirstEntry := lead 3 0xA0 hicb.
Definition s3 : FirstEntry := lead 3 locb hicb.
Definition s4 : FirstEntry := lead 3 locb 0x9F.
Definition s5 : FirstEntry := lead 4 0x90 hicb.
Definition s6 : FirstEntry := lead 4 locb hicb.
Definition s7 : FirstEntry := lead 4 locb 0x8F.

(** The table [first], by ranges of the first byte. *)
Definition first (b : N) : FirstEntry :=
  if (b <? 0x80)%N then as_
  else if (b <? 0xC2)%N then xx
  else if (b <? 0xE0)%N then s1
  else if (b =? 0xE0)%N then s2
  else if (b <? 0xED)%N then s3
  else if (b =? 0xED)%N then s4
  else if (b <? 0xF0)%N then s3
  else if (b =? 0xF0)%N then s5
  else if (b <? 0xF4)%N then s6
  else if (b =? 0xF4)%N then s7
  else xx.

(** The decoding proper, on the length of the string and its first four
    bytes. *)
Definition decodeRune (n : nat) (b0 b1 b2 b3 : N) : N * nat :=
  if (n <? 1)%nat then (RuneError, 0%nat)
  else
    match first b0 with
    | as_ => (b0, 1%nat)
    | xx => (RuneError, 1%nat)
    | lead sz lo hi =>
        if (n <? sz)%nat then (RuneError, 1%nat)
        else if (b1 <? lo)%N || (hi <? b1)%N then (RuneError, 1%nat)
        else if (sz <=? 2)%nat
        then (N.lor (N.shiftl (N.land b0 mask2) 6) (N.land b1 maskx), 2%nat)
        else if (b2 <? locb)%N || (hicb <? b2)%N then (RuneError, 1%nat)
        else if (sz <=? 3)%nat
        then (N.lor (N.lor (N.shiftl (N.land b0 mask3) 12) (N.shiftl (N.land b1 maskx) 6))
                (N.land b2 maskx), 3%nat)
        else if (b3 <? locb)%N || (hicb <? b3)%N then (RuneError, 1%nat)
        else (N.lor
                (N.lor
                   (N.lor (N.shiftl (N.land b0 mask4) 18) (N.shiftl (N.land b1 maskx) 12))
                   (N.shiftl (N.land b2 maskx) 6))
                (N.land b3 maskx), 4%nat)
    end.

(** [utf8.DecodeRuneInString]: the first rune of [s] and its width in
    bytes. *)
Definition DecodeRuneInString (s : string) : N * nat :=
  decodeRune (String.length s) (byteAt s 0) (byteAt s 1) (byteAt s 2) (byteAt s 3).

(** [utf8.RuneStart] *)
Definition RuneStart (b : N) : bool := negb (N.land b 0xC0 =? 0x80)%N.

(** The loop of [DecodeLastRuneInString] that walks back to the start of
    the last rune: the candidates are [lim + n - 1] down to [lim], and the
    loop leaves [lim - 1], or 0, when none of them starts a rune. *)
Fixpoint lastRuneStart (s : string) (lim n : nat) : nat :=
  match n with
  | O => lim - 1
  | S k => if RuneStart (byteAt s (lim + k)) then lim + k else lastRuneStart s lim k
  end.

(** [utf8.DecodeLastRuneInString]: the last rune of [s] and its width. *)
Definition DecodeLastRuneInString (s : string) : N * nat :=
  let end_ := String.length s in
  if (end_ =? 0)%nat then (RuneError, 0%nat)
  else
    let r := byteAt s (end_ - 1) in
    if (r <? RuneSelf)%N then (r, 1%nat)
    else
      let lim := end_ - UTFMax in
      let start := lastRuneStart s lim (end_ - 1 - lim) in
      let d := DecodeRuneInString (substring start (end_ - start) s) in
      if (start + d.2 =? end_)%nat then d else (RuneError, 1%nat).

End utf8.

Module unicode.

(** [unicode.IsSpace]: the Latin-1 spaces and the rest of the table
    [White_Space]. *)
Definition IsSpace (r : N) : bool :=
  if (r <=? 0xFF)%N
  then ((0x09 <=? r)%N && (r <=? 0x0D)%N) || (r =? 0x20)%N || (r =? 0x85)%N || (r =? 0xA0)%N
  else (r =? 0x1680)%N
       || ((0x2000 <=? r)%N && (r <=? 0x200A)%N)
       || (r =? 0x2028)%N || (r =? 0x2029)%N
       || (r =? 0x202F)%N || (r =? 0x205F)%N
       || (r =? 0x3000)%N.

End unicode.

(** ** Strings: the parts of Go's [strings] package that [main.go] calls *)

Module GoStrings.

(** [for _, r := range s]: the runes of [s] in order, each with the bytes
    it was decoded from.  [skip] counts the bytes of the rune decoded last
    that are still to pass. *)
Fixpoint rangeFrom (skip : nat) (s : string) : list (N * string) :=
  match s with
  | EmptyString => []
  | String _ rest =>
      match skip with
      | S k => rangeFrom k rest
      | O =>
          let d := utf8.DecodeRuneInString s in
          (d.1, substring 0 d.2 s) :: rangeFrom (d.2 - 1) rest
      end
  end.

Definition range (s : string) : list (N * string) := rangeFrom 0 s.

(** The bytes of a sequence of runes. *)
Fixpoint bytesOf (runes : list (N * string)) : string :=
  match runes with
  | [] => ""
  | (_, bytes) :: rest => bytes +:+ bytesOf rest
  end.

(** [indexFunc]: the index of the first rune [r] with [f r = truth],
    [None] for -1.  [i] is the index of the first of [runes]. *)
Fixpoint indexIn (f : N -> bool) (truth : bool) (runes : list (N * string)) (i : nat)
  : option nat :=
  match runes with
  | [] => None
  | (r, bytes) :: rest =>
      if Bool.eqb (f r) truth then Some i
      else indexIn f truth rest (i + String.length bytes)
  end.

Definition indexFunc (s : string) (f : N -> bool) (truth : bool) : option nat :=
  indexIn f truth (range s) 0.

(** [lastIndexFunc]: the loop [for i := len(s); i > 0; ...], one byte of
    [i] at a time. *)
Fixpoint lastIndexFrom (f : N -> bool) (truth : bool) (s : string) (skip i : nat)
  : option nat :=
  match i with
  | O => None
  | S j =>
      match skip with
      | S k => lastIndexFrom f truth s k j
      | O =>
          let d := utf8.DecodeLastRuneInString (substring 0 i s) in
          if Bool.eqb (f d.1) truth then Some (i - d.2)
          else lastIndexFrom f truth s (d.2 - 1) j
      end
  end.

Definition lastIndexFunc (s : string) (f : N -> bool) (truth : bool) : option nat :=
  lastIndexFrom f truth s 0 (String.length s).

(** [strings.TrimLeftFunc] *)
Definition TrimLeftFunc (s : string) (f : N -> bool) : string :=
  match indexFunc s f false with
  | None => ""
  | Some i => substring i (String.length s - i) s
  end.

(** [strings.TrimRightFunc] *)
Definition TrimRightFunc (s : string) (f : N -> bool) : string :=
  match lastIndexFunc s f false with
  | Some i =>
      if (utf8.RuneSelf <=? utf8.byteAt s i)%N
      then
        let wid := (utf8.DecodeRuneInString (substring i (String.length s - i) s)).2 in
        substring 0 (i + wid) s
      else substring 0 (i + 1) s
  | None => substring 0 0 s
  end.

(** [strings.TrimFunc] *)
Definition TrimFunc (s : string) (f : N -> bool) : string :=
  TrimRightFunc (TrimLeftFunc s f) f.

(** [strings.TrimSpace]: all leading and trailing white space removed, as
    defined by Unicode.  The library's shortcut for a string of ASCII bytes
    gives what [TrimFunc] gives. *)
Definition TrimSpace (s : string) : string := TrimFunc s unicode.IsSpace.

(** The loop of [strings.FieldsFunc]; [cur] is the field being read, empty
    when none is (a rune has at least one byte). *)
Fixpoint fieldsOf (f : N -> bool) (cur : string) (runes : list (N * string)) : list string :=
  match runes with
  | [] => if String.eqb cur "" then [] else [cur]
  | (r, bytes) :: rest =>
      if f r
      then (if String.eqb cur "" then fieldsOf f "" rest else cur :: fieldsOf f "" rest)
      else fieldsOf f (cur +:+ bytes) rest
  end.

(** [strings.FieldsFunc] *)
Definition FieldsFunc (s : string) (f : N -> bool) : list string := fieldsOf f "" (range s).

(** [strings.Fields]: [s] split around each instance of one or more
    consecutive white space characters, as defined by [unicode.IsSpace].
    The library's shortcut for a string of ASCII bytes gives what
    [FieldsFunc] gives. *)
Definition Fields (s : string) : list string := FieldsFunc s unicode.IsSpace.

(** [strings.Split(s, sep)] for a one-byte separator: always at least one
    piece. *)
Fixpoint Split (s : string) (sep : ascii) : list string :=
  match s with
  | EmptyString => [""]
  | String c r =>
      if Ascii.eqb c sep then "" :: Split r sep
      else match Split r sep with
           | piece :: pieces => String c piece :: pieces
           | [] => [String c EmptyString]
           end
  end.

(** [strings.Contains] *)
Fixpoint Contains (s substr : string) : bool :=
  String.prefix substr s ||
  match s with
  | EmptyString => false
  | String _ r => Contains r substr
  end.

(** [strings.Join] *)
Fixpoint Join (elems : list string) (sep : string) : string :=
  match elems with
  | [] => ""
  | [e] => e
  | e :: rest => e +:+ sep +:+ Join rest sep
  end.

Definition newline : ascii := ascii_of_nat 10.
Definition nl : string := String newline EmptyString.
Definition dquote : string := String (ascii_of_nat 34) EmptyString.

End GoStrings.

Import GoStrings.

(** ** Data model *)

(** [type Arguments struct] (main.go, lines 213-221). *)
Record Arguments : Type := mkArguments {
  DeviceName : string;
  DeviceID : string;
  UserID : string;
  OperatingSystem : string;
  UseGPUs : string;
  Architecture : string;
  Beta : bool
}.

(** [new(Arguments)]: every field holds its zero value. *)
Definition newArguments : Arguments :=
  mkArguments "" "" "" "" "" "" false.

Definition setDeviceName (v : string) (a : Arguments) : Arguments :=
  mkArguments v (DeviceID a) (UserID a) (OperatingSystem a) (UseGPUs a) (Architecture a) (Beta a).
Definition setDeviceID (v : string) (a : Arguments) : Arguments :=
  mkArguments (DeviceName a) v (UserID a) (OperatingSystem a) (UseGPUs a) (Architecture a) (Beta a).
Definition setUserID (v : string) (a : Arguments) : Arguments :=
  mkArguments (DeviceName a) (DeviceID a) v (OperatingSystem a) (UseGPUs a) (Architecture a) (Beta a).
Definition setOperatingSystem (v : string) (a : Arguments) : Arguments :=
  mkArguments (DeviceName a) (DeviceID a) (UserID a) v (UseGPUs a) (Architecture a) (Beta a).
Definition setUseGPUs (v : string) (a : Arguments) : Arguments :=
  mkArguments (DeviceName a) (DeviceID a) (UserID a) (OperatingSystem a) v (Architecture a) (Beta a).
Definition setArchitecture (v : string) (a : Arguments) : Arguments :=
  mkArguments (DeviceName a) (DeviceID a) (UserID a) (OperatingSystem a) (UseGPUs a) v (Beta a).

(** The values of the command-line flags after [flag.Parse()]
    (main.go, lines 224-231); each field is named after the variable that
    holds the flag. *)
Record Flags : Type := mkFlags {
  deviceName : string;
  deviceID : string;
  userID : string;
  operatingSystem : string;
  useGPUs : string;
  architecture : string;
  beta : bool
}.

(** A value of a [map[string]interface{}] decoded by [encoding/json]:
    [nil] (JSON null), a bool, a string, or another value (a number, an array,
    an object), which this program only ever prints with [%v] and which is
    therefore carried by that rendering. *)
Inductive CacheValue : Type :=
| VNil
| VBool (b : bool)
| VString (s : string)
| VOther (rendered : string).

(** [cache[key]]: indexing a Go map with an absent key yields the zero value
    of [interface{}], which is [nil]. *)
Definition index (cache : gmap string CacheValue) (key : string) : CacheValue :=
  match cache !! key with
  | Some v => v
  | None => VNil
  end.

(** [fmt.Sprintf("%v", v)] *)
Definition Sprintf_v (v : CacheValue) : string :=
  match v with
  | VNil => "<nil>"
  | VBool true => "true"
  | VBool false => "false"
  | VString s => s
  | VOther rendered => rendered
  end.

(** ** The process and its surroundings *)

(** What one call [fmt.Scanln(&field)] does: [ScanOk tok] stores the token
    and returns no error; [ScanErr (Some tok)] stores the token and then
    fails (more text follows on the line); [ScanErr None] fails before
    storing anything (empty line, end of input). *)
Inductive ScanResult : Type :=
| ScanOk (tok : string)
| ScanErr (stored : option string).

(** What running an external command gives back: its error ([None] for
    [err == nil]) and what it wrote to its standard output. *)
Record ExecResult : Type := mkExecResult {
  execErr : option string;
  execOut : string
}.

Inductive Event : Type :=
| EPrint (text : string)
| EScan (r : ScanResult)
| EExec (argv : list string)
| ELoadCache
| ESaveCache (data : gmap string CacheValue).

(** How the process ends other than by running to the end of [main]:
    [return] from [main], [os.Exit(code)], [log.Fatal(msg)]. *)
Inductive Exit : Type :=
| Returned
| OsExit (code : nat)
| LogFatal (msg : string).

(** The state of a run.  [args] is the struct that the variable [args] of
    [main] points to; [stdin] is the input not read yet, one entry per call of
    [Scanln]; [trace] is what the process has done so far, oldest first.  The
    last three fields are the surroundings: the answer of an external command
    may depend on everything that happened before it. *)
Record State : Type := mkState {
  args : Arguments;
  stdin : list ScanResult;
  trace : list Event;
  system : list Event -> list string -> ExecResult;
  cacheFile : string + gmap string CacheValue;
  cacheWriteErr : option string
}.

Definition emit (ev : Event) (st : State) : State :=
  mkState (args st) (stdin st) (trace st ++ [ev]) (system st) (cacheFile st) (cacheWriteErr st).
Definition withArgs (a : Arguments) (st : State) : State :=
  mkState a (stdin st) (trace st) (system st) (cacheFile st) (cacheWriteErr st).
Definition withStdin (input : list ScanResult) (st : State) : State :=
  mkState (args st) input (trace st) (system st) (cacheFile st) (cacheWriteErr st).

Inductive Result (A : Type) : Type :=
| Done (a : A)
| Stop (e : Exit).
Arguments Done {A} a.
Arguments Stop {A} e.

Definition M (A : Type) : Type := State -> Result A * State.

#[global] Instance M_ret : MRet M := fun A a st => (Done a, st).
#[global] Instance M_bind : MBind M := fun A B f m st =>
  match m st with
  | (Done a, st') => f a st'
  | (Stop e, st') => (Stop e, st')
  end.

Definition stop {A : Type} (e : Exit) : M A := fun st => (Stop e, st).
Definition getArgs : M Arguments := fun st => (Done (args st), st).
Definition modifyArgs (f : Arguments -> Arguments) : M unit :=
  fun st => (Done tt, withArgs (f (args st)) st).

(** [fmt.Print], [fmt.Println] and [fmt.Printf] write to standard output. *)
Definition Print (text : string) : M unit := fun st => (Done tt, emit (EPrint text) st).
Definition Println (text : string) : M unit := Print (text +:+ nl).

(** [exec.Command(argv...)] followed by [Run()] or [Output()]. *)
Definition Exec (argv : list string) : M ExecResult :=
  fun st => (Done (system st (trace st) argv), emit (EExec argv) st).

Definition osExit {A : Type} (code : nat) : M A := stop (OsExit code).
Definition logFatal {A : Type} (msg : string) : M A := stop (LogFatal msg).

(** [for _, x := range xs { body(x) }] *)
Fixpoint forRange {A : Type} (xs : list A) (body : A -> M unit) : M unit :=
  match xs with
  | [] => mret tt
  | x :: rest => body x ;; forRange rest body
  end.

(** ** The program *)

Section Launcher.

(** [uuid.Parse(value)] of the package github.com/google/uuid returns no
    error: the library is not part of the repository, so the development
    holds for every such parser. *)
Variable uuidParses : string -> bool.

Definition repoNames : list string :=
  ["ionetcontainers/io-worker-vc"; "ionetcontainers/io-worker-monitor"; "ionetcontainers/io-launch"].
Definition validArchChoices : list string := ["x86_64"; "arm64"; "aarch64"].
Definition validOSChoices : list string := ["macOS"; "Linux"].

(** main.go, lines 19-26 *)
Fixpoint contains (slice : list string) (str : string) : bool :=
  match slice with
  | [] => false
  | s :: rest => if String.eqb s str then true else contains rest str
  end.

(** main.go, lines 29-32 *)
Definition isValidUUID (value : string) : bool := uuidParses value.

Definition succeeded (r : ExecResult) : bool :=
  match execErr r with
  | None => true
  | Some _ => false
  end.

(** main.go, lines 34-38 *)
Definition getMacInfo : M bool :=
  r ← Exec ["sysctl"; "-n"; "machdep.cpu.brand_string"];
  mret (succeeded r).

(** main.go, lines 40-47 *)
Definition getPlatformArchitecture : M string :=
  r ← Exec ["uname"; "-m"];
  match execErr r with
  | Some _ => logFatal "Unable to determine platform architecture"
  | None => mret (TrimSpace (execOut r))
  end.

(** main.go, lines 49-57 *)
Definition checkDocker : M bool :=
  r ← Exec ["docker"; "info"];
  match execErr r with
  | Some _ =>
      Println "Docker daemon is not running. Please start Docker and try again." ;;
      mret false
  | None => mret true
  end.

Definition imageListCommand (repoName : string) : string :=
  "docker image ls --no-trunc --format '{{.Repository}}:{{.Tag}} {{.CreatedAt}} {{.ID}}' | grep -i '"
  +:+ repoName +:+ "' | sort -r".

(** The loop of lines 67-72: the last field of every line that has one. *)
Definition lastFields (sortedImages : list string) : list string :=
  fold_left
    (fun imageIDs img =>
       let fields := Fields img in
       if (0 <? length fields)%nat
       then imageIDs ++ [nth (length fields - 1) fields ""]
       else imageIDs)
    sortedImages [].

(** main.go, lines 59-74 *)
Definition getDockerImageIDsSorted (repoName : string) : M (list string) :=
  r ← Exec ["sh"; "-c"; imageListCommand repoName];
  match execErr r with
  | Some e => logFatal e
  | None => mret (lastFields (Split (TrimSpace (execOut r)) newline))
  end.

(** main.go, lines 76-82 *)
Definition removeDockerImage (imageID : string) : M unit :=
  r ← Exec ["docker"; "rmi"; imageID];
  match execErr r with
  | Some e => logFatal e
  | None => mret tt
  end.

(** main.go, lines 84-107 *)
Definition stopRunningContainers : M unit :=
  r ← Exec ["docker"; "ps"; "-q"];
  match execErr r with
  | Some e => logFatal e
  | None =>
      let containers := TrimSpace (execOut r) in
      if negb (String.eqb containers "") then
        Println "Stopping all running Docker containers..." ;;
        r ← Exec (["docker"; "stop"] ++ Fields containers);
        match execErr r with
        | Some _ =>
            Println "Stopping containers failed, attempting to forcefully kill containers..." ;;
            r ← Exec (["docker"; "kill"] ++ Fields containers);
            match execErr r with
            | Some _ =>
                Println "Failed to kill running Docker containers." ;;
                osExit 1
            | None => mret tt
            end
        | None => mret tt
        end
      else mret tt
  end.

(** main.go, lines 109-117 *)
Definition checkGPUAvailability : M bool :=
  r ← Exec ["nvidia-smi"];
  match execErr r with
  | Some _ =>
      Println "nvidia-smi failed - please rerun io-setup or contact support on discord" ;;
      mret false
  | None => mret true
  end.

(** main.go, lines 119-132 *)
Definition checkNvidiaCTK : M bool :=
  r ← Exec ["nvidia-ctk"; "--version"];
  match execErr r with
  | Some _ =>
      Println "NVIDIA Container Toolkit check failed - please rerun io-setup or contact support on discord" ;;
      mret false
  | None =>
      if Contains (execOut r) "NVIDIA Container Toolkit CLI version"
      then mret true
      else
        Println "NVIDIA Container Toolkit not installed - please rerun io-setup or contact support on discord" ;;
        mret false
  end.

(** The shell pipeline of line 159, which prints the [machdep] entries of
    [sysctl -a] as one JSON-like object. *)
Definition macInfoScript : string :=
  "sysctl -a | grep machdep | awk -F': ' '{print "
  +:+ dquote +:+ "\" +:+ dquote +:+ dquote +:+ " $1 "
  +:+ dquote +:+ "\" +:+ dquote +:+ ": \" +:+ dquote +:+ dquote +:+ " $2 "
  +:+ dquote +:+ "\" +:+ dquote +:+ dquote
  +:+ "}' | paste -sd, - | awk '{print "
  +:+ dquote +:+ "{" +:+ dquote +:+ " $0 " +:+ dquote +:+ "}" +:+ dquote +:+ " }'".

(** main.go, lines 134-173 *)
Definition constructDockerCommand (args : Arguments) (architecture : string)
  : M (list string) :=
  let dockerCommand :=
    ["docker"; "run"; "-d";
     "-v"; "/var/run/docker.sock:/var/run/docker.sock"; "--network"; "host"] in
  let dockerCommand := dockerCommand ++ ["-e"; "ARCH=" +:+ architecture] in
  let dockerCommand :=
    if negb (String.eqb architecture "x86_64")
    then dockerCommand ++ ["--platform"; "linux/amd64"] else dockerCommand in
  let dockerCommand :=
    if negb (String.eqb (DeviceName args) "")
    then dockerCommand ++ ["-e"; "DEVICE_NAME=" +:+ DeviceName args] else dockerCommand in
  let dockerCommand :=
    if negb (String.eqb (DeviceID args) "")
    then dockerCommand ++ ["-e"; "DEVICE_ID=" +:+ DeviceID args] else dockerCommand in
  let dockerCommand :=
    if negb (String.eqb (UserID args) "")
    then dockerCommand ++ ["-e"; "USER_ID=" +:+ UserID args] else dockerCommand in
  let dockerCommand :=
    if negb (String.eqb (OperatingSystem args) "")
    then dockerCommand ++ ["-e"; "OPERATING_SYSTEM=" +:+ OperatingSystem args]
    else dockerCommand in
  let dockerCommand :=
    if negb (String.eqb (UseGPUs args) "")
    then dockerCommand ++ ["-e"; "USEGPUS=" +:+ UseGPUs args] else dockerCommand in
  dockerCommand ←
    (if String.eqb (OperatingSystem args) "macOS" then
       macInfo ← Exec ["sh"; "-c"; macInfoScript];
       match execErr macInfo with
       | Some e => logFatal e
       | None =>
           let dockerCommand :=
             dockerCommand ++ ["-e"; "MAC_INFO=" +:+ TrimSpace (execOut macInfo)] in
           mret (dockerCommand ++ ["--pull"; "always"])
       end
     else mret dockerCommand);
  if Beta args then
    let dockerCommand :=
      dockerCommand ++ ["-e"; "CURRENT_LOG_LEVEL=DEBUG"; "-e"; "ENVIRONMENT=DEV"] in
    mret (dockerCommand ++ ["ionetcontainers/io-launch-beta:v0.1"])
  else
    mret (dockerCommand ++ ["ionetcontainers/io-launch:v0.1"]).

(** main.go, lines 175-193: opening, decoding or closing the file may fail,
    and each failure is a [log.Fatal]. *)
Definition loadCache : M (gmap string CacheValue) :=
  fun st =>
    match cacheFile st with
    | inl e => (Stop (LogFatal e), emit ELoadCache st)
    | inr cache => (Done cache, emit ELoadCache st)
    end.

(** main.go, lines 195-211 *)
Definition saveCache (data : gmap string CacheValue) : M unit :=
  fun st =>
    match cacheWriteErr st with
    | Some e => (Stop (LogFatal e), st)
    | None => (Done tt, emit (ESaveCache data) st)
    end.

(** main.go, lines 235-257: [args := new(Arguments)] and the fallback of
    every empty flag to the cache. *)
Definition fallback (fl : Flags) (cache : gmap string CacheValue) : Arguments :=
  let args := newArguments in
  let args :=
    if String.eqb (deviceName fl) ""
    then setDeviceName (Sprintf_v (index cache "device_name")) args else args in
  let args :=
    if String.eqb (deviceID fl) ""
    then setDeviceName (Sprintf_v (index cache "device_id")) args else args in
  let args :=
    if String.eqb (userID fl) ""
    then setDeviceName (Sprintf_v (index cache "user_id")) args else args in
  let args :=
    if String.eqb (operatingSystem fl) ""
    then setDeviceName (Sprintf_v (index cache "operating_system")) args else args in
  let args :=
    if String.eqb (useGPUs fl) ""
    then setDeviceName (Sprintf_v (index cache "usegpus")) args else args in
  let args :=
    if String.eqb (architecture fl) ""
    then setDeviceName (Sprintf_v (index cache "arch")) args else args in
  let args :=
    if beta fl
    then setDeviceName (Sprintf_v (index cache "beta")) args else args in
  args.

(** main.go, lines 265-273, the body of the loop over [repoNames]. *)
Definition pruneRepo (repoName : string) : M unit :=
  imageIDs ← getDockerImageIDsSorted repoName;
  if (1 <? length imageIDs)%nat then
    Print ("removing stale images: " +:+ repoName +:+ nl) ;;
    forRange (skipn 1 imageIDs) removeDockerImage
  else mret tt.

(** *** The prompt loops

    The five loops of lines 275-339 have one shape:
<<
    for needs(args) {
        fmt.Print(question)
        _, err := fmt.Scanln(&args.field)
        if err != nil { return }
        if rejected(args) { fmt.Println(complaint) }
    }
>>
    and differ in the four components below. *)
Record Prompt : Type := mkPrompt {
  needs : Arguments -> bool;
  question : string;
  store : string -> Arguments -> Arguments;
  complaint : Arguments -> option string
}.

(** The effect of [fmt.Scanln(&args.field)] when the call comes out as [r]. *)
Definition scanned (p : Prompt) (r : ScanResult) (unread : list ScanResult)
  (st : State) : State :=
  let st :=
    match r with
    | ScanOk tok | ScanErr (Some tok) => withArgs (store p tok (args st)) st
    | ScanErr None => st
    end in
  emit (EScan r) (withStdin unread st).

(** The loop, by recursion on the input not read yet: every iteration that
    does not leave [main] reads one entry of it; at the end of the input
    [Scanln] fails. *)
Fixpoint promptFrom (p : Prompt) (unread : list ScanResult) : M unit :=
  fun st =>
    if needs p (args st) then
      let st := emit (EPrint (question p)) st in
      match unread with
      | [] => (Stop Returned, scanned p (ScanErr None) [] st)
      | r :: unread =>
          let st := scanned p r unread st in
          match r with
          | ScanErr _ => (Stop Returned, st)
          | ScanOk _ =>
              match complaint p (args st) with
              | Some text => promptFrom p unread (emit (EPrint text) st)
              | None => promptFrom p unread st
              end
          end
      end
    else (Done tt, st).

Definition prompt (p : Prompt) : M unit := fun st => promptFrom p (stdin st) st.

(** main.go, lines 275-284 *)
Definition deviceNamePrompt : Prompt :=
  mkPrompt
    (fun args => String.eqb (DeviceName args) "")
    "Enter device name: "
    setDeviceName
    (fun args =>
       if String.eqb (DeviceName args) ""
       then Some ("Device name cannot be empty. Please enter a valid name." +:+ nl)
       else None).

Definition invalidUUID : string :=
  "Invalid UUID. Please enter a proper UUID as shown on the website dashboard." +:+ nl.

(** main.go, lines 286-295 *)
Definition deviceIDPrompt : Prompt :=
  mkPrompt
    (fun args => String.eqb (DeviceID args) "" || negb (isValidUUID (DeviceID args)))
    "Enter device ID (UUID): "
    setDeviceID
    (fun args => if negb (isValidUUID (DeviceID args)) then Some invalidUUID else None).

(** main.go, lines 297-306 *)
Definition userIDPrompt : Prompt :=
  mkPrompt
    (fun args => String.eqb (UserID args) "" || negb (isValidUUID (UserID args)))
    "Enter user ID (UUID): "
    setUserID
    (fun args => if negb (isValidUUID (UserID args)) then Some invalidUUID else None).

(** main.go, lines 308-317 *)
Definition operatingSystemPrompt : Prompt :=
  mkPrompt
    (fun args =>
       String.eqb (OperatingSystem args) ""
       || negb (contains validOSChoices (OperatingSystem args)))
    "Enter operating system (macOS/Linux): "
    setOperatingSystem
    (fun args =>
       if negb (contains validOSChoices (OperatingSystem args))
       then Some ("Invalid operating system. Please choose from "
                  +:+ Join validOSChoices "/" +:+ "." +:+ nl)
       else None).

Definition notTrueOrFalse (s : string) : bool :=
  negb (String.eqb s "true") && negb (String.eqb s "false").

(** main.go, lines 329-338 *)
Definition useGPUsPrompt : Prompt :=
  mkPrompt
    (fun args => String.eqb (UseGPUs args) "" || notTrueOrFalse (UseGPUs args))
    "Does this system have an NVIDIA GPU which you want to use? (true/false): "
    setUseGPUs
    (fun args =>
       if notTrueOrFalse (UseGPUs args)
       then Some ("Invalid input. Please enter 'true' or 'false'." +:+ nl)
       else None).

(** main.go, lines 319-323 *)
Definition resolveArchitecture : M unit :=
  args ← getArgs;
  if String.eqb (OperatingSystem args) "Windows" then
    modifyArgs (setArchitecture "x86_64")
  else if String.eqb (Architecture args) "" then
    arch ← getPlatformArchitecture;
    modifyArgs (setArchitecture arch)
  else mret tt.

Definition macNote : string :=
  "NOTE: If you see a warning regarding the platform mismatch (linux/amd64 vs. linux/arm64/v8), please ignore it. This is expected when running on macOS with M1/M2/M3 chips.".

(** main.go, lines 325-339 *)
Definition resolveUseGPUs : M unit :=
  args ← getArgs;
  if String.eqb (OperatingSystem args) "macOS" then
    modifyArgs (setUseGPUs "false") ;;
    Println macNote
  else if String.eqb (UseGPUs args) "" then
    prompt useGPUsPrompt
  else mret tt.

(** main.go, lines 341-364: the checks between the resolution and the
    launch. *)
Definition finalChecks : M unit :=
  args ← getArgs;
  (if negb (String.eqb (OperatingSystem args) "macOS") && String.eqb (UseGPUs args) "true"
   then
     gpu ← checkGPUAvailability;
     if negb gpu then osExit 1
     else
       ctk ← checkNvidiaCTK;
       if negb ctk then osExit 1 else mret tt
   else mret tt) ;;
  docker ← checkDocker;
  (if negb docker then osExit 1 else mret tt) ;;
  (if negb (contains validOSChoices (OperatingSystem args)) then
     Print ("Error: Invalid operating system choice '" +:+ OperatingSystem args +:+ "'" +:+ nl) ;;
     osExit 1
   else mret tt) ;;
  (if negb (contains validArchChoices (Architecture args)) then
     Print ("Platform " +:+ Architecture args +:+ " - " +:+ OperatingSystem args
            +:+ " is not supported" +:+ nl) ;;
     osExit 1
   else mret tt) ;;
  (if String.eqb (OperatingSystem args) "macOS" then
     silicon ← getMacInfo;
     if negb silicon then
       Println "Your hardware isnâ€™t Mac silicon (M1, M2, M3) chips, please select proper OS and chip from website" ;;
       osExit 1
     else mret tt
   else mret tt).

(** main.go, lines 366-373 *)
Definition cacheData (args : Arguments) : gmap string CacheValue :=
  <["device_name" := VString (DeviceName args)]>
    (<["device_id" := VString (DeviceID args)]>
       (<["user_id" := VString (UserID args)]>
          (<["operating_system" := VString (OperatingSystem args)]>
             (<["usegpus" := VString (UseGPUs args)]> ∅)))).

(** main.go, lines 375-381 *)
Definition launch : M unit :=
  args ← getArgs;
  dockerCommand ← constructDockerCommand args (Architecture args);
  r ← Exec dockerCommand;
  match execErr r with
  | Some e => logFatal e
  | None => mret tt
  end.

(** main.go, lines 223-382 *)
Definition main (fl : Flags) : M unit :=
  cache ← loadCache;
  modifyArgs (fun _ => fallback fl cache) ;;
  docker ← checkDocker;
  (if negb docker then osExit 1 else mret tt) ;;
  stopRunningContainers ;;
  forRange repoNames pruneRepo ;;
  prompt deviceNamePrompt ;;
  prompt deviceIDPrompt ;;
  prompt userIDPrompt ;;
  prompt operatingSystemPrompt ;;
  resolveArchitecture ;;
  resolveUseGPUs ;;
  finalChecks ;;
  args ← getArgs;
  saveCache (cacheData args) ;;
  launch.

End Launcher.

(** * Vocabulary of the statements *)

(** ** Triples *)

(** A triple for the monad: from a state in [P], the computation either
    finishes with a value and a state in [Q], or leaves the process with an
    exit and a state in [X]. *)
Definition triple {A : Type} (P : State -> Prop) (m : M A)
  (Q : A -> State -> Prop) (X : Exit -> State -> Prop) : Prop :=
  forall st, P st ->
    match m st with
    | (Done a, st') => Q a st'
    | (Stop e, st') => X e st'
    end.

(** ** The Command Builder in pieces *)

(** The tokens of lines 135-157: the fixed options, [ARCH], the emulation
    directive and the identity variables. *)
Definition headTokens (a : Arguments) (arch : string) : list string :=
  ["docker"; "run"; "-d"; "-v"; "/var/run/docker.sock:/var/run/docker.sock";
   "--network"; "host"; "-e"; "ARCH=" +:+ arch]
  ++ (if String.eqb arch "x86_64" then [] else ["--platform"; "linux/amd64"])
  ++ (if String.eqb (DeviceName a) "" then [] else ["-e"; "DEVICE_NAME=" +:+ DeviceName a])
  ++ (if String.eqb (DeviceID a) "" then [] else ["-e"; "DEVICE_ID=" +:+ DeviceID a])
  ++ (if String.eqb (UserID a) "" then [] else ["-e"; "USER_ID=" +:+ UserID a])
  ++ (if String.eqb (OperatingSystem a) "" then []
      else ["-e"; "OPERATING_SYSTEM=" +:+ OperatingSystem a])
  ++ (if String.eqb (UseGPUs a) "" then [] else ["-e"; "USEGPUS=" +:+ UseGPUs a]).

(** The tokens of lines 158-165, for the output [info] of the pipeline. *)
Definition macTokens (info : string) : list string :=
  ["-e"; "MAC_INFO=" +:+ TrimSpace info; "--pull"; "always"].

(** The tokens of lines 166-171. *)
Definition channelTokens (a : Arguments) : list string :=
  if Beta a
  then ["-e"; "CURRENT_LOG_LEVEL=DEBUG"; "-e"; "ENVIRONMENT=DEV";
        "ionetcontainers/io-launch-beta:v0.1"]
  else ["ionetcontainers/io-launch:v0.1"].

Definition macInfoAnswer (st : State) : ExecResult :=
  system st (trace st) ["sh"; "-c"; macInfoScript].

Definition stableImage : string := "ionetcontainers/io-launch:v0.1".

(** The command carries the macOS-only tokens. *)
Definition macOnlyTokens (argv : list string) : Prop :=
  exists pre info post,
    argv = pre ++ "-e" :: ("MAC_INFO=" +:+ info) :: "--pull" :: "always" :: post.

(** ** The fallback as a list of steps *)

(** The seven conditionals of lines 237-257 in order: whether each one
    fires, and the key it reads. *)
Definition fallbackPlan (fl : Flags) : list (bool * string) :=
  [(String.eqb (deviceName fl) "", "device_name");
   (String.eqb (deviceID fl) "", "device_id");
   (String.eqb (userID fl) "", "user_id");
   (String.eqb (operatingSystem fl) "", "operating_system");
   (String.eqb (useGPUs fl) "", "usegpus");
   (String.eqb (architecture fl) "", "arch");
   (beta fl, "beta")].

Definition fallbackStep (cache : gmap string CacheValue) (a : Arguments)
  (step : bool * string) : Arguments :=
  if step.1 then setDeviceName (Sprintf_v (index cache step.2)) a else a.

(** [a'] differs from [a] in [DeviceName] at most. *)
Definition sameButName (a a' : Arguments) : Prop :=
  DeviceID a' = DeviceID a /\ UserID a' = UserID a
  /\ OperatingSystem a' = OperatingSystem a /\ UseGPUs a' = UseGPUs a
  /\ Architecture a' = Architecture a /\ Beta a' = Beta a.

(** ** Events of a run *)

Definition removal (imageID : string) : Event := EExec ["docker"; "rmi"; imageID].

(** The command is the container launch, [docker run ...]. *)
Definition isLaunch (argv : list string) : bool :=
  match argv with
  | program :: verb :: _ => String.eqb program "docker" && String.eqb verb "run"
  | _ => false
  end.

Definition isLaunchEvent (ev : Event) : bool :=
  match ev with
  | EExec argv => isLaunch argv
  | _ => false
  end.

Definition notLaunch (ev : Event) : Prop := isLaunchEvent ev = false.

Definition isFailedScan (ev : Event) : bool :=
  match ev with
  | EScan (ScanErr _) => true
  | _ => false
  end.

(** The questions of the five prompt loops. *)
Definition questions : list string :=
  ["Enter device name: "; "Enter device ID (UUID): "; "Enter user ID (UUID): ";
   "Enter operating system (macOS/Linux): ";
   "Does this system have an NVIDIA GPU which you want to use? (true/false): "].

Definition gpuQuestion : string := question useGPUsPrompt.

Definition isGPUQuestion (ev : Event) : bool :=
  match ev with
  | EPrint text => String.eqb text gpuQuestion
  | _ => false
  end.

(** The device-name question. *)
Definition isNameQuestion (ev : Event) : bool :=
  match ev with
  | EPrint text => String.eqb text (question deviceNamePrompt)
  | _ => false
  end.

Definition notNameQuestion (ev : Event) : Prop := isNameQuestion ev = false.

(** Routine events: anything but a question, a failed read or the launch. *)
Definition routine (ev : Event) : bool :=
  match ev with
  | EPrint text => negb (existsb (String.eqb text) questions)
  | EScan (ScanOk _) => true
  | EScan (ScanErr _) => false
  | EExec argv => negb (isLaunch argv)
  | ELoadCache => true
  | ESaveCache _ => true
  end.

(** What [launch] adds to the trace: at most the [sysctl] pipeline, then at
    most the command that the builder made; the arguments stay as they
    are. *)
Definition launchEvent (st : State) (ev : Event) : Prop :=
  ev = EExec ["sh"; "-c"; macInfoScript]
  \/ exists dockerCommand,
       (constructDockerCommand (args st) (Architecture (args st)) st).1 = Done dockerCommand
       /\ ev = EExec dockerCommand.

(** ** Invariants of a run *)

(** An invariant of a run that constrains the events of the trace one by one
    through [ok] and the arguments through [P]. *)
Definition Inv (ok : Event -> Prop) (P : Arguments -> Prop) (st : State) : Prop :=
  Forall ok (trace st) /\ P (args st).

(** Neither a failed read nor the launch. *)
Definition undisturbed (ev : Event) : Prop :=
  isFailedScan ev = false /\ isLaunchEvent ev = false.

(** So far no read has failed and nothing was launched. *)
Definition Calm : State -> Prop := Inv undisturbed (fun _ => True).

Definition neverFailed (st : State) : Prop :=
  Forall (fun ev => isFailedScan ev = false) (trace st).

(** The trace ends with a question and the failed read of its answer, and
    is undisturbed before. *)
Definition failedTail (tr : list Event) : Prop :=
  exists pre q stored,
    tr = pre ++ [EPrint q; EScan (ScanErr stored)]
    /\ In q questions /\ Forall undisturbed pre.

Definition afterFailure (e : Exit) (st : State) : Prop :=
  neverFailed st \/ (e = Returned /\ failedTail (trace st)).

(** Neither the GPU question nor the launch. *)
Definition beforeGPUs (ev : Event) : Prop :=
  isGPUQuestion ev = false /\ isLaunchEvent ev = false.

(** The three stages of a run: up to the GPU step; after it on macOS; after
    it elsewhere. *)
Definition Unasked : State -> Prop := Inv beforeGPUs (fun _ => True).

Definition OnMac : State -> Prop :=
  Inv beforeGPUs (fun a => OperatingSystem a = "macOS" /\ UseGPUs a = "false").

Definition Elsewhere : State -> Prop :=
  Inv notLaunch (fun a => OperatingSystem a <> "macOS").

(** What scenario 2 promises of a run that resolved the operating system
    to macOS. *)
Definition macOutcome (st : State) : Prop :=
  OperatingSystem (args st) = "macOS" ->
  Forall (fun ev => isGPUQuestion ev = false) (trace st)
  /\ forall argv, In (EExec argv) (trace st) -> isLaunch argv = true ->
       UseGPUs (args st) = "false" /\ macOnlyTokens argv.

(** No launch so far, and [Beta] is not set. *)
Definition Unset : State -> Prop := Inv notLaunch (fun a => Beta a = false).

Definition stableOutcome (st : State) : Prop :=
  Beta (args st) = false
  /\ forall argv, In (EExec argv) (trace st) -> isLaunch argv = true ->
       last argv = Some stableImage
       /\ ~ In "CURRENT_LOG_LEVEL=DEBUG" argv.

(** The device name is set, and nobody was asked for it. *)
Definition Named : State -> Prop := Inv notNameQuestion (fun a => DeviceName a <> "").

Definition neverAskedName (st : State) : Prop := Forall notNameQuestion (trace st).

(** ** Sample surroundings, flags and caches *)

Definition answer (output : string) : ExecResult := mkExecResult None output.

(** A machine on which every command succeeds: [uname -m] prints [arch], the
    [sysctl] pipeline prints [info], every image listing prints [images] and
    every other command prints nothing. *)
Definition machine (arch info images : string) : list Event -> list string -> ExecResult :=
  fun _ argv =>
    match argv with
    | ["uname"; "-m"] => answer (arch +:+ nl)
    | ["sh"; "-c"; script] =>
        if String.eqb script macInfoScript then answer (info +:+ nl) else answer images
    | _ => answer ""
    end.

(** The state in which a process starts. *)
Definition start (system : list Event -> list string -> ExecResult)
  (input : list ScanResult) (cache : gmap string CacheValue) : State :=
  mkState newArguments input [] system (inr cache) None.

(** A parser that accepts the canonical textual form of a UUID, 36 bytes
    with hyphens at the four usual positions, to run the program on. *)
Definition canonicalForm (value : string) : bool :=
  (String.length value =? 36)%nat
  && forallb (fun i => match String.get i value with
                       | Some c => Ascii.eqb c "-"
                       | None => false
                       end) [8; 13; 18; 23]%nat.

Definition sampleUUID : string := "123e4567-e89b-12d3-a456-426614174000".

Definition otherUUID : string := "00000000-0000-4000-8000-000000000001".

Definition linuxBox : State := start (machine "x86_64" "" "") [] ∅.

Definition macBookA : State := start (machine "arm64" "{machdep.cpu.core_count: 8}" "") [] ∅.


Definition macArguments : Arguments :=
  mkArguments "dev1" sampleUUID sampleUUID "macOS" "false" "arm64" false.

Definition linuxArguments : Arguments :=
  mkArguments "dev1" sampleUUID sampleUUID "Linux" "false" "x86_64" false.

Definition threeImages : string :=
  "ionetcontainers/io-launch:v0.3 2024-03-01 10:00:00 +0000 UTC sha256:cc" +:+ nl
  +:+ "ionetcontainers/io-launch:v0.2 2024-02-01 10:00:00 +0000 UTC sha256:bb" +:+ nl
  +:+ "ionetcontainers/io-launch:v0.1 2024-01-01 10:00:00 +0000 UTC sha256:aa" +:+ nl.

Definition registry : State := start (machine "x86_64" "" threeImages) [] ∅.

Definition allFlagsGiven : Flags :=
  mkFlags "dev1" sampleUUID sampleUUID "Linux" "false" "x86_64" false.

Definition allFlagsMissing : Flags := mkFlags "" "" "" "" "" "" false.

Definition onlyDeviceIDMissing : Flags :=
  mkFlags "dev1" "" sampleUUID "Linux" "false" "x86_64" false.

Definition cacheWithDeviceID : gmap string CacheValue :=
  <["device_id" := VString sampleUUID]> ∅.

Definition nameAndGPUsMissing : Flags :=
  mkFlags "" sampleUUID sampleUUID "Linux" "" "x86_64" false.

Definition cacheWithEmptyGPUs : gmap string CacheValue :=
  <["usegpus" := VString ""]> ∅.

Definition macFlags : Flags := mkFlags "" "" "" "macOS" "" "" false.

Definition betaFlags : Flags := mkFlags "" "" "" "" "" "" true.

Definition macBookRun : State :=
  start (machine "arm64" "{machdep.cpu.core_count: 8}" "")
    [ScanOk sampleUUID; ScanOk sampleUUID; ScanOk "macOS"] ∅.

Definition linuxRun : State :=
  start (machine "x86_64" "" "")
    [ScanOk sampleUUID; ScanOk sampleUUID; ScanOk "Linux"; ScanOk "false"] ∅.

Definition typedAnswers : State :=
  start (machine "arm64" "{machdep.cpu.core_count: 8}" "")
    [ScanOk "typed"; ScanOk otherUUID; ScanOk otherUUID; ScanOk "macOS"] ∅.

Definition templateRun : State :=
  start (machine "x86_64" "" "") [] cacheWithEmptyGPUs.

(** U+00A0, the no-break space, and U+2028, the line separator, as they are
    encoded in UTF-8. *)
Definition noBreakSpace : string := String "194" (String "160" "").
Definition lineSeparator : string := String "226" (String "128" (String "168" "")).

(** A machine on which [docker ps -q] prints two container IDs with a
    no-break space between them, and [docker stop] fails. *)
Definition twoContainers : list Event -> list string -> ExecResult :=
  fun _ argv =>
    match argv with
    | ["docker"; "ps"; "-q"] => answer ("abc" +:+ noBreakSpace +:+ "def" +:+ nl)
    | "docker" :: "stop" :: _ => mkExecResult (Some "exit status 1") ""
    | _ => answer ""
    end.

(** ** Words *)

(** No rune of [s] is white space. *)
Definition spaceFree (s : string) : bool :=
  forallb (fun c : N * string => negb (unicode.IsSpace c.1)) (range s).

(** A string that reaches an external command as one argument of its own:
    not empty, no white space in it. *)
Definition word (s : string) : Prop := s <> "" /\ spaceFree s = true.

(** The external commands among some events, in the order they were run. *)
Fixpoint commandsOf (evs : list Event) : list (list string) :=
  match evs with
  | [] => []
  | EExec argv :: rest => argv :: commandsOf rest
  | _ :: rest => commandsOf rest
  end.

(** ** Frames: what a step of [main] may add to a run *)

Definition isSave (ev : Event) : bool :=
  match ev with
  | ESaveCache _ => true
  | _ => false
  end.

(** The message of line 352. *)
Definition osErrorPrefix : string := "Error: Invalid operating system choice".

Definition isOSError (ev : Event) : bool :=
  match ev with
  | EPrint text => String.prefix osErrorPrefix text
  | _ => false
  end.

(** Plain events: a command other than the launch, a message other than that
    of line 352, the load of the cache. *)
Definition plain (ev : Event) : bool :=
  match ev with
  | EPrint text => negb (String.prefix osErrorPrefix text)
  | EExec argv => negb (isLaunch argv)
  | ELoadCache => true
  | ESaveCache _ => false
  | EScan _ => false
  end.

(** Every [os.Exit] of the program has status 1. *)
Definition exitOK (e : Exit) : Prop :=
  match e with
  | OsExit code => code = 1%nat
  | _ => True
  end.

(** [I] relates the trace and the arguments of a state. *)
Definition Holds (I : list Event -> Arguments -> Prop) (st : State) : Prop :=
  I (trace st) (args st).

Definition Leaves (I : list Event -> Arguments -> Prop) (e : Exit) (st : State) : Prop :=
  I (trace st) (args st) /\ exitOK e.

(** ** Stages of the resolution *)

(** Where the resolution of one field stands: not touched since the
    fallback; being asked or probed; settled, that is, checked. *)
Inductive Phase : Type :=
| Untouched
| Asking
| Settled.

(** Nothing was saved or launched, and the message of line 352 was not
    printed. *)
Definition quiet (ev : Event) : Prop :=
  isSave ev = false /\ isLaunchEvent ev = false /\ isOSError ev = false.

Definition idQuestion : string := "Enter device ID (UUID): ".
Definition userQuestion : string := "Enter user ID (UUID): ".
Definition osQuestion : string := "Enter operating system (macOS/Linux): ".
Definition unameProbe : Event := EExec ["uname"; "-m"].

Definition nameClause (ph : Phase) (a : Arguments) : Prop :=
  match ph with
  | Settled => DeviceName a <> ""
  | _ => True
  end.

(** A field that is empty until [asked] happens and [valid] once it is
    settled. *)
Definition clause (ph : Phase) (asked : Event) (tr : list Event) (blank valid : Prop)
  : Prop :=
  match ph with
  | Untouched => blank
  | Asking => In asked tr
  | Settled => In asked tr /\ valid
  end.

Definition gpuClause (ph : Phase) (tr : list Event) (a : Arguments) : Prop :=
  match ph with
  | Untouched => UseGPUs a = ""
  | Asking => OperatingSystem a <> "macOS" /\ In (EPrint gpuQuestion) tr
  | Settled =>
      (OperatingSystem a = "macOS" /\ UseGPUs a = "false")
      \/ (OperatingSystem a <> "macOS" /\ In (EPrint gpuQuestion) tr
          /\ (UseGPUs a = "true" \/ UseGPUs a = "false"))
  end.

(** The state of the resolution, field by field, in the order of [main]:
    device name, device ID, user ID, operating system, architecture, GPU
    usage. *)
Definition Stage (uuidParses : string -> bool) (n i s o r g : Phase)
  (tr : list Event) (a : Arguments) : Prop :=
  Forall quiet tr
  /\ Beta a = false
  /\ nameClause n a
  /\ clause i (EPrint idQuestion) tr (DeviceID a = "") (uuidParses (DeviceID a) = true)
  /\ clause s (EPrint userQuestion) tr (UserID a = "") (uuidParses (UserID a) = true)
  /\ clause o (EPrint osQuestion) tr (OperatingSystem a = "")
       (contains validOSChoices (OperatingSystem a) = true)
  /\ clause r unameProbe tr (Architecture a = "")
       (contains validArchChoices (Architecture a) = true)
  /\ gpuClause g tr a.

(** The command is what the builder makes of the arguments. *)
Definition builtFor (a : Arguments) (cmd : list string) : Prop :=
  exists middle,
    cmd = headTokens a (Architecture a) ++ middle ++ channelTokens a
    /\ ((OperatingSystem a = "macOS" /\ exists info, middle = macTokens info)
        \/ (OperatingSystem a <> "macOS" /\ middle = [])).

Definition sysctlPipeline : Event := EExec ["sh"; "-c"; macInfoScript].

(** What [launch] adds to the trace, and how it ends. *)
Definition launchTail (a : Arguments) (tail : list Event) (r : Result unit) : Prop :=
  (OperatingSystem a = "macOS" /\ tail = [sysctlPipeline]
   /\ exists e, r = Stop (LogFatal e))
  \/ exists cmd,
       builtFor a cmd
       /\ (r = Done tt \/ exists e, r = Stop (LogFatal e))
       /\ ((OperatingSystem a = "macOS" /\ tail = [sysctlPipeline; EExec cmd])
           \/ (OperatingSystem a <> "macOS" /\ tail = [EExec cmd])).

(** The two kinds of run: one that leaves the process before the cache is
    saved, with nothing saved or launched; one that saves the cache of its
    fully resolved arguments and then goes through [launch]. *)
Definition Outcome (uuidParses : string -> bool) (r : Result unit) (st : State) : Prop :=
  (Forall quiet (trace st) /\ exists e, r = Stop e /\ exitOK e)
  \/ exists pre tail,
       trace st = pre ++ ESaveCache (cacheData (args st)) :: tail
       /\ Stage uuidParses Settled Settled Settled Settled Settled Settled pre (args st)
       /\ launchTail (args st) tail r.

(** A configuration that passed every check of [main]. *)
Definition Validated (uuidParses : string -> bool) (a : Arguments) : Prop :=
  DeviceName a <> ""
  /\ uuidParses (DeviceID a) = true
  /\ uuidParses (UserID a) = true
  /\ (OperatingSystem a = "macOS" \/ OperatingSystem a = "Linux")
  /\ contains validArchChoices (Architecture a) = true
  /\ (UseGPUs a = "true" \/ UseGPUs a = "false")
  /\ (OperatingSystem a = "macOS" -> UseGPUs a = "false")
  /\ Beta a = false.

(** Before the fallback: nothing saved or launched, the arguments are those
    of the caller. *)
Definition Fresh (tr : list Event) (a : Arguments) : Prop := Forall quiet tr.

(** ** Steps that only run commands *)

(** From [st] to [st'] nothing happened but runs of external commands other
    than the launch: the arguments and the unread input are the same. *)
Definition ranOnly (st st' : State) : Prop :=
  args st' = args st /\ stdin st' = stdin st
  /\ exists evs,
       trace st' = trace st ++ evs
       /\ Forall (fun ev => exists argv, ev = EExec argv /\ isLaunch argv = false) evs.

Definition secondRun : State :=
  start (machine "x86_64" "" "")
    [ScanOk sampleUUID; ScanOk sampleUUID; ScanOk "Linux"; ScanOk "false"]
    (cacheData linuxArguments).

Definition dockerDown : State :=
  start (fun _ argv =>
           match argv with
           | ["docker"; "info"] => mkExecResult (Some "exit status 1") ""
           | _ => answer ""
           end) [] ∅.

(** A Linux machine with a GPU and the container toolkit. *)
Definition gpuBox : list Event -> list string -> ExecResult :=
  fun _ argv =>
    match argv with
    | ["nvidia-ctk"; "--version"] =>
        answer ("NVIDIA Container Toolkit CLI version 1.14.3" +:+ nl)
    | _ => machine "x86_64" "" "" [] argv
    end.

Definition gpuArguments : Arguments :=
  mkArguments "dev1" sampleUUID sampleUUID "Linux" "true" "x86_64" false.

Definition readyToCheck : State :=
  mkState gpuArguments [] [] gpuBox (inr ∅) None.

(** * The string functions on samples *)

Example TrimSpace_uname : TrimSpace ("x86_64" +:+ nl) = "x86_64".
Proof. reflexivity. Qed.

Example Fields_line :
  Fields "repo:v0.1 2024-01-01 10:00:00 +0000 UTC sha256:abc" =
  ["repo:v0.1"; "2024-01-01"; "10:00:00"; "+0000"; "UTC"; "sha256:abc"].
Proof. reflexivity. Qed.

(** White space is a matter of runes, not of bytes. *)
Example Fields_no_break_space :
  Fields ("abc" +:+ noBreakSpace +:+ "def" +:+ lineSeparator) = ["abc"; "def"].
Proof. reflexivity. Qed.

Example Fields_blank_line : Fields (noBreakSpace +:+ " ") = [].
Proof. reflexivity. Qed.

Example TrimSpace_unicode :
  TrimSpace (noBreakSpace +:+ "x86_64" +:+ lineSeparator +:+ nl) = "x86_64".
Proof. reflexivity. Qed.

(** The first two bytes of an encoding of three are no white space. *)
Example TrimSpace_truncated :
  TrimSpace (String "226" (String "128" " ")) = String "226" (String "128" "").
Proof. reflexivity. Qed.

Example Split_empty : Split "" newline = [""].
Proof. reflexivity. Qed.

Example Join_os : Join ["macOS"; "Linux"] "/" = "macOS/Linux".
Proof. reflexivity. Qed.

(** * Reasoning about runs *)

Lemma bind_run {A B : Type} (m : M A) (f : A -> M B) (st : State) :
  (m ≫= f) st =
  match m st with
  | (Done a, st') => f a st'
  | (Stop e, st') => (Stop e, st')
  end.
Proof. reflexivity. Qed.

Lemma trace_emit (ev : Event) (st : State) : trace (emit ev st) = trace st ++ [ev].
Proof. reflexivity. Qed.

Lemma triple_ret {A : Type} (P : State -> Prop) (a : A) Q X :
  (forall st, P st -> Q a st) -> triple P (mret a) Q X.
Proof. intros H st HP. apply H, HP. Qed.

Lemma triple_bind {A B : Type} (P : State -> Prop) (m : M A) (f : A -> M B)
  (R : A -> State -> Prop) Q X :
  triple P m R X -> (forall a, triple (R a) (f a) Q X) -> triple P (m ≫= f) Q X.
Proof.
  intros Hm Hf st HP. rewrite bind_run.
  specialize (Hm st HP). destruct (m st) as [[a|e] st']; [|exact Hm].
  apply (Hf a st' Hm).
Qed.

Lemma triple_weaken {A : Type} (P P' : State -> Prop) (m : M A)
  (Q Q' : A -> State -> Prop) (X X' : Exit -> State -> Prop) :
  triple P m Q X ->
  (forall st, P' st -> P st) ->
  (forall a st, Q a st -> Q' a st) ->
  (forall e st, X e st -> X' e st) ->
  triple P' m Q' X'.
Proof.
  intros Hm HP HQ HX st HP'. specialize (Hm st (HP st HP')).
  destruct (m st) as [[a|e] st']; auto.
Qed.

Lemma triple_forRange {A : Type} (I : State -> Prop) X (xs : list A) (body : A -> M unit) :
  (forall x, triple I (body x) (fun _ => I) X) ->
  triple I (forRange xs body) (fun _ => I) X.
Proof.
  intros Hbody. induction xs as [|x xs IH]; simpl.
  - apply triple_ret. auto.
  - eapply triple_bind; [apply Hbody|]. intros []. apply IH.
Qed.

(** ** The Command Builder in closed form *)

Lemma append_unless {A : Type} (c : bool) (l extra : list A) :
  (if negb c then l ++ extra else l) = l ++ (if c then [] else extra).
Proof. destruct c; simpl; [rewrite app_nil_r|]; reflexivity. Qed.

Lemma constructDockerCommand_run (a : Arguments) (arch : string) (st : State) :
  constructDockerCommand a arch st =
  if String.eqb (OperatingSystem a) "macOS" then
    match execErr (macInfoAnswer st) with
    | Some e => (Stop (LogFatal e), emit (EExec ["sh"; "-c"; macInfoScript]) st)
    | None =>
        (Done (headTokens a arch ++ macTokens (execOut (macInfoAnswer st)) ++ channelTokens a),
         emit (EExec ["sh"; "-c"; macInfoScript]) st)
    end
  else (Done (headTokens a arch ++ channelTokens a), st).
Proof.
  unfold constructDockerCommand, headTokens, macTokens, channelTokens, macInfoAnswer.
  cbv zeta. rewrite !append_unless, bind_run.
  destruct (String.eqb (OperatingSystem a) "macOS").
  - rewrite bind_run. unfold Exec.
    destruct (execErr (system st (trace st) ["sh"; "-c"; macInfoScript])); [reflexivity|].
    destruct (Beta a); unfold mret, M_ret; rewrite <- !app_assoc; reflexivity.
  - destruct (Beta a); unfold mret, M_ret; rewrite <- !app_assoc; reflexivity.
Qed.

(** * The Command Builder *)

Ltac split_membership H :=
  repeat match type of H with
         | In _ (_ ++ _) => apply in_app_or in H as [H|H]
         | In _ (if ?c then _ else _) => destruct c
         | In _ (_ :: _) => destruct H as [H|H]; [simpl in H; discriminate H|]
         | In _ [] => destruct H
         end.

Lemma platform_not_head (a : Arguments) : ~ In "--platform" (headTokens a "x86_64").
Proof. unfold headTokens. simpl String.eqb. cbv iota. intros H. split_membership H. Qed.

Lemma platform_not_mac (info : string) : ~ In "--platform" (macTokens info).
Proof. unfold macTokens. intros H. split_membership H. Qed.

Lemma platform_not_channel (a : Arguments) : ~ In "--platform" (channelTokens a).
Proof. unfold channelTokens. intros H. split_membership H. Qed.

Lemma platform_after_arch (a : Arguments) (arch : string) :
  String.eqb arch "x86_64" = false ->
  exists post,
    headTokens a arch =
    ["docker"; "run"; "-d"; "-v"; "/var/run/docker.sock:/var/run/docker.sock";
     "--network"; "host"; "-e"; "ARCH=" +:+ arch]
    ++ "--platform" :: "linux/amd64" :: post.
Proof. intros H. unfold headTokens. rewrite H. eexists. reflexivity. Qed.

(** C6. Whenever the Command Builder produces a token sequence, the sequence
    contains the tokens [--platform linux/amd64] next to each other if and
    only if the architecture string is not exactly ["x86_64"]. *)
Theorem platform_iff_not_x86_64 (a : Arguments) (arch : string) (st : State)
  (cmd : list string) :
  (constructDockerCommand a arch st).1 = Done cmd ->
  (exists pre post, cmd = pre ++ "--platform" :: "linux/amd64" :: post)
  <-> arch <> "x86_64".
Proof.
  intros Hcmd. rewrite constructDockerCommand_run in Hcmd.
  assert (exists middle, cmd = headTokens a arch ++ middle
                         /\ ~ In "--platform" middle) as (middle & -> & Hmiddle).
  { destruct (String.eqb (OperatingSystem a) "macOS").
    - destruct (execErr (macInfoAnswer st)); [discriminate Hcmd|].
      exists (macTokens (execOut (macInfoAnswer st)) ++ channelTokens a).
      split; [injection Hcmd as <-; reflexivity|].
      intros H. apply in_app_or in H as [H|H];
        [eapply platform_not_mac | eapply platform_not_channel]; exact H.
    - exists (channelTokens a).
      split; [injection Hcmd as <-; reflexivity | apply platform_not_channel]. }
  split.
  - intros (pre & post & Heq) ->.
    assert (In "--platform" (headTokens a "x86_64" ++ middle)) as H.
    { rewrite Heq. apply in_or_app. right. left. reflexivity. }
    apply in_app_or in H as [H|H]; [eapply platform_not_head; exact H | auto].
  - intros Harch. apply String.eqb_neq in Harch.
    destruct (platform_after_arch a arch Harch) as (post & ->).
    eexists _, (post ++ middle). rewrite <- app_assoc. reflexivity.
Qed.

Lemma platform_iff_not_x86_64_witness :
  (exists pre post,
     headTokens macArguments "arm64" ++ macTokens ("{machdep.cpu.core_count: 8}" +:+ nl)
       ++ channelTokens macArguments
     = pre ++ "--platform" :: "linux/amd64" :: post)
  <-> "arm64" <> "x86_64".
Proof.
  apply (platform_iff_not_x86_64 macArguments "arm64" macBookA). reflexivity.
Defined.

Lemma channelTokens_image (a : Arguments) :
  exists env,
    channelTokens a =
    env ++ [if Beta a then "ionetcontainers/io-launch-beta:v0.1"
            else "ionetcontainers/io-launch:v0.1"].
Proof.
  unfold channelTokens. destruct (Beta a).
  - exists ["-e"; "CURRENT_LOG_LEVEL=DEBUG"; "-e"; "ENVIRONMENT=DEV"]. reflexivity.
  - exists []. reflexivity.
Qed.

Lemma headTokens_prefix (a : Arguments) (arch : string) :
  exists rest,
    headTokens a arch =
    ["docker"; "run"; "-d"; "-v"; "/var/run/docker.sock:/var/run/docker.sock";
     "--network"; "host"; "-e"; "ARCH=" +:+ arch] ++ rest.
Proof. unfold headTokens. eexists. reflexivity. Qed.

(** C10. Whenever the Command Builder produces a token sequence, the sequence
    starts with [docker run -d -v /var/run/docker.sock:/var/run/docker.sock
    --network host -e ARCH=<architecture>] and its last token is the image
    reference: the beta image when [Beta] is set, the stable image
    otherwise. *)
Theorem command_prefix_and_image (a : Arguments) (arch : string) (st : State)
  (cmd : list string) :
  (constructDockerCommand a arch st).1 = Done cmd ->
  exists middle,
    cmd =
    ["docker"; "run"; "-d"; "-v"; "/var/run/docker.sock:/var/run/docker.sock";
     "--network"; "host"; "-e"; "ARCH=" +:+ arch]
    ++ middle
    ++ [if Beta a then "ionetcontainers/io-launch-beta:v0.1"
        else "ionetcontainers/io-launch:v0.1"].
Proof.
  intros Hcmd. rewrite constructDockerCommand_run in Hcmd.
  destruct (channelTokens_image a) as (env & Henv).
  destruct (headTokens_prefix a arch) as (rest & Hrest).
  rewrite Henv, Hrest in Hcmd.
  destruct (String.eqb (OperatingSystem a) "macOS").
  - destruct (execErr (macInfoAnswer st)); [discriminate Hcmd|].
    injection Hcmd as <-.
    exists (rest ++ macTokens (execOut (macInfoAnswer st)) ++ env).
    rewrite <- !app_assoc. reflexivity.
  - injection Hcmd as <-. exists (rest ++ env).
    rewrite <- !app_assoc. reflexivity.
Qed.

Lemma command_prefix_and_image_witness :
  exists middle,
    headTokens linuxArguments "x86_64" ++ channelTokens linuxArguments =
    ["docker"; "run"; "-d"; "-v"; "/var/run/docker.sock:/var/run/docker.sock";
     "--network"; "host"; "-e"; "ARCH=x86_64"]
    ++ middle ++ ["ionetcontainers/io-launch:v0.1"].
Proof.
  apply (command_prefix_and_image linuxArguments "x86_64" linuxBox). reflexivity.
Defined.




(** * The fallback from the flags to the cache *)

Lemma fallback_plan (fl : Flags) (cache : gmap string CacheValue) :
  fallback fl cache = fold_left (fallbackStep cache) (fallbackPlan fl) newArguments.
Proof. reflexivity. Qed.

Lemma fallbackStep_other_fields cache a step : sameButName a (fallbackStep cache a step).
Proof.
  unfold sameButName, fallbackStep.
  destruct step as [[] key]; simpl; repeat split; reflexivity.
Qed.

Lemma fallbackSteps_other_fields cache steps a :
  sameButName a (fold_left (fallbackStep cache) steps a).
Proof.
  revert a. induction steps as [|step steps IH]; intros a; simpl.
  - unfold sameButName. repeat split; reflexivity.
  - destruct (IH (fallbackStep cache a step)) as (H1 & H2 & H3 & H4 & H5 & H6).
    destruct (fallbackStep_other_fields cache a step) as (G1 & G2 & G3 & G4 & G5 & G6).
    unfold sameButName. repeat split; congruence.
Qed.

(** Whatever the flags and the cache, the fallback leaves every field but
    [DeviceName] at its zero value: no cached value reaches a field of its
    own, and no flag value reaches any field. *)
Lemma fallback_only_writes_DeviceName (fl : Flags) (cache : gmap string CacheValue) :
  DeviceID (fallback fl cache) = "" /\ UserID (fallback fl cache) = ""
  /\ OperatingSystem (fallback fl cache) = "" /\ UseGPUs (fallback fl cache) = ""
  /\ Architecture (fallback fl cache) = "" /\ Beta (fallback fl cache) = false.
Proof.
  rewrite fallback_plan.
  apply (fallbackSteps_other_fields cache (fallbackPlan fl) newArguments).
Qed.

(** After the steps [steps], the last of which fires, [DeviceName] is the
    rendering of what the cache holds under that step's key. *)
Lemma fallbackSteps_last cache steps key a :
  DeviceName (fold_left (fallbackStep cache) (steps ++ [(true, key)]) a)
  = Sprintf_v (index cache key).
Proof. rewrite fold_left_app. reflexivity. Qed.

Lemma fallbackSteps_nonempty cache steps a :
  DeviceName a <> "" ->
  (forall key, In (true, key) steps -> Sprintf_v (index cache key) <> "") ->
  DeviceName (fold_left (fallbackStep cache) steps a) <> "".
Proof.
  revert a. induction steps as [|[fires key] steps IH]; intros a Ha Hsteps; simpl; [exact Ha|].
  apply IH.
  - unfold fallbackStep. simpl. destruct fires; [|exact Ha].
    simpl. apply Hsteps. left. reflexivity.
  - intros key' Hin. apply Hsteps. right. exact Hin.
Qed.

Lemma promptFrom_skip (p : Prompt) (unread : list ScanResult) (st : State) :
  needs p (args st) = false -> promptFrom p unread st = (Done tt, st).
Proof. intros H. destruct unread; simpl; rewrite H; reflexivity. Qed.

(** C2, on the code. With only [--device_id] left empty and a cache that
    holds a device ID, the cached ID is written to [DeviceName], and
    [DeviceID] stays empty. *)
Theorem cached_device_id_lands_in_DeviceName :
  fallback onlyDeviceIDMissing cacheWithDeviceID
  = mkArguments sampleUUID "" "" "" "" "" false.
Proof. vm_compute. reflexivity. Qed.

(** * The Image Janitor *)

(** The listing yields one image ID for every line that is not blank. *)
Lemma lastFields_length (sortedImages : list string) :
  length (lastFields sortedImages)
  = length (List.filter (fun img => (0 <? length (Fields img))%nat) sortedImages).
Proof.
  unfold lastFields.
  assert (forall imageIDs,
            length (fold_left
                      (fun imageIDs img =>
                         let fields := Fields img in
                         if (0 <? length fields)%nat
                         then imageIDs ++ [nth (length fields - 1) fields ""]
                         else imageIDs) sortedImages imageIDs)
            = (length imageIDs
               + length (List.filter (fun img => (0 <? length (Fields img))%nat)
                           sortedImages))%nat) as H.
  { induction sortedImages as [|img rest IH]; intros imageIDs; simpl; [lia|].
    rewrite IH. destruct (0 <? length (Fields img))%nat; simpl; [|lia].
    rewrite length_app. simpl. lia. }
  apply (H []).
Qed.

Lemma removeDockerImage_run (imageID : string) (st : State) :
  removeDockerImage imageID st =
  match execErr (system st (trace st) ["docker"; "rmi"; imageID]) with
  | Some e => (Stop (LogFatal e), emit (removal imageID) st)
  | None => (Done tt, emit (removal imageID) st)
  end.
Proof.
  unfold removeDockerImage. rewrite bind_run. unfold Exec.
  destruct (execErr _); reflexivity.
Qed.

(** When the loop of lines 269-271 runs to its end, it has run [docker rmi]
    once for every image ID it was given, in order, and nothing else. *)
Lemma removals_run (imageIDs : list string) (st st' : State) :
  forRange imageIDs removeDockerImage st = (Done tt, st') ->
  trace st' = trace st ++ map removal imageIDs.
Proof.
  revert st. induction imageIDs as [|imageID rest IH]; intros st Hrun; simpl in Hrun.
  - injection Hrun as <-. simpl. rewrite app_nil_r. reflexivity.
  - rewrite bind_run, removeDockerImage_run in Hrun.
    destruct (execErr _); [discriminate Hrun|].
    rewrite (IH _ Hrun), trace_emit, <- app_assoc. reflexivity.
Qed.

(** C7. For a tracked repository whose listing yields the image IDs [ids],
    newest first, a janitor pass that runs to its end removes exactly the IDs
    after the first one, each once and in order: [length ids - 1] removals
    when there is at least one image, none when there is none; the newest
    image is not among the removed ones. *)
Theorem janitor_keeps_newest (repoName : string) (ids : list string)
  (st listed st' : State) :
  getDockerImageIDsSorted repoName st = (Done ids, listed) ->
  pruneRepo repoName st = (Done tt, st') ->
  let removed := skipn 1 ids in
  trace st' =
    trace listed
    ++ (if (1 <? length ids)%nat
        then [EPrint ("removing stale images: " +:+ repoName +:+ nl)] else [])
    ++ map removal removed
  /\ length removed = (length ids - 1)%nat
  /\ (ids = [] -> trace st' = trace listed)
  /\ (forall newest, head ids = Some newest -> List.NoDup ids -> ~ In newest removed).
Proof.
  intros Hlist Hrun removed. subst removed.
  unfold pruneRepo in Hrun. rewrite bind_run, Hlist in Hrun.
  assert (trace st' =
          trace listed
          ++ (if (1 <? length ids)%nat
              then [EPrint ("removing stale images: " +:+ repoName +:+ nl)] else [])
          ++ map removal (skipn 1 ids)) as Htrace.
  { destruct ids as [|newest [|second rest]]; simpl in Hrun |- *.
    - injection Hrun as <-. rewrite app_nil_r. reflexivity.
    - injection Hrun as <-. rewrite app_nil_r. reflexivity.
    - rewrite bind_run in Hrun. unfold Print in Hrun.
      apply (removals_run (second :: rest)) in Hrun.
      rewrite Hrun, trace_emit, <- app_assoc. reflexivity. }
  split; [exact Htrace|]. split; [|split].
  - rewrite length_skipn. reflexivity.
  - intros ->. rewrite Htrace. simpl. rewrite app_nil_r. reflexivity.
  - intros newest Hhead Hnodup. destruct ids as [|first rest]; [discriminate Hhead|].
    injection Hhead as ->. simpl. apply List.NoDup_cons_iff in Hnodup. tauto.
Qed.

Example empty_listing : lastFields (Split (TrimSpace "") newline) = [].
Proof. reflexivity. Qed.

Example registry_listing :
  (getDockerImageIDsSorted "ionetcontainers/io-launch" registry).1
  = Done ["sha256:cc"; "sha256:bb"; "sha256:aa"].
Proof. vm_compute. reflexivity. Qed.

Lemma janitor_keeps_newest_witness :
  let removed := skipn 1 ["sha256:cc"; "sha256:bb"; "sha256:aa"] in
  trace (pruneRepo "ionetcontainers/io-launch" registry).2 =
    trace (getDockerImageIDsSorted "ionetcontainers/io-launch" registry).2
    ++ [EPrint ("removing stale images: " +:+ "ionetcontainers/io-launch" +:+ nl)]
    ++ map removal removed
  /\ length removed = 2%nat
  /\ (["sha256:cc"; "sha256:bb"; "sha256:aa"] = [] ->
      trace (pruneRepo "ionetcontainers/io-launch" registry).2
      = trace (getDockerImageIDsSorted "ionetcontainers/io-launch" registry).2)
  /\ (forall newest,
        head ["sha256:cc"; "sha256:bb"; "sha256:aa"] = Some newest ->
        List.NoDup ["sha256:cc"; "sha256:bb"; "sha256:aa"] -> ~ In newest removed).
Proof.
  apply (janitor_keeps_newest "ionetcontainers/io-launch"
           ["sha256:cc"; "sha256:bb"; "sha256:aa"] registry
           (getDockerImageIDsSorted "ionetcontainers/io-launch" registry).2
           (pruneRepo "ionetcontainers/io-launch" registry).2);
    vm_compute; reflexivity.
Defined.

(** * Invariants of a run *)

Ltac triple_step :=
  match goal with
  | |- triple _ (mret _) _ _ => apply triple_ret; intros; assumption
  | |- triple _ (_ ≫= _) _ _ => eapply triple_bind; [|intros ?]
  | |- triple _ (match ?x with _ => _ end) _ _ => destruct x
  end.

Section Invariants.

(** An invariant that constrains the events of the trace one by one, admits
    every routine event, and constrains the arguments by [P]. *)
Variable ok : Event -> Prop.
Hypothesis ok_routine : forall ev, routine ev = true -> ok ev.
Variable P : Arguments -> Prop.

Local Abbreviation Kept := (Inv ok P).

Lemma Inv_emit (ev : Event) (st : State) : ok ev -> Kept st -> Kept (emit ev st).
Proof.
  intros Hev [Htrace Hargs]. split; [|exact Hargs].
  rewrite trace_emit. apply Forall_app. split; [exact Htrace|]. constructor; [exact Hev|constructor].
Qed.

Lemma inv_stop {A : Type} (e : Exit) : triple Kept (stop e : M A) (fun _ => Kept) (fun _ => Kept).
Proof. intros st H. exact H. Qed.

Lemma inv_getArgs : triple Kept getArgs (fun _ => Kept) (fun _ => Kept).
Proof. intros st H. exact H. Qed.

Lemma inv_ret {A : Type} (a : A) : triple Kept (mret a) (fun _ => Kept) (fun _ => Kept).
Proof. intros st H. exact H. Qed.

Lemma inv_Print (text : string) :
  ok (EPrint text) -> triple Kept (Print text) (fun _ => Kept) (fun _ => Kept).
Proof. intros Hok st H. apply Inv_emit; assumption. Qed.

Lemma inv_Exec (argv : list string) :
  isLaunch argv = false -> triple Kept (Exec argv) (fun _ => Kept) (fun _ => Kept).
Proof.
  intros Hargv st H. apply Inv_emit; [|exact H].
  apply ok_routine. simpl. rewrite Hargv. reflexivity.
Qed.

Ltac inv_auto :=
  repeat first
    [ triple_step
    | apply inv_ret
    | apply inv_getArgs
    | apply inv_stop
    | apply inv_Exec; reflexivity
    | apply inv_Print; apply ok_routine; reflexivity ].

Lemma inv_checkDocker : triple Kept checkDocker (fun _ => Kept) (fun _ => Kept).
Proof. unfold checkDocker, Println. inv_auto. Qed.

Lemma inv_stopRunningContainers :
  triple Kept stopRunningContainers (fun _ => Kept) (fun _ => Kept).
Proof. unfold stopRunningContainers, Println, osExit. inv_auto. Qed.

Lemma inv_getDockerImageIDsSorted (repoName : string) :
  triple Kept (getDockerImageIDsSorted repoName) (fun _ => Kept) (fun _ => Kept).
Proof. unfold getDockerImageIDsSorted, logFatal. inv_auto. Qed.

Lemma inv_removeDockerImage (imageID : string) :
  triple Kept (removeDockerImage imageID) (fun _ => Kept) (fun _ => Kept).
Proof. unfold removeDockerImage, logFatal. inv_auto. Qed.

Lemma inv_pruneRepo (repoName : string) :
  triple Kept (pruneRepo repoName) (fun _ => Kept) (fun _ => Kept).
Proof.
  unfold pruneRepo. eapply triple_bind; [apply inv_getDockerImageIDsSorted|].
  intros imageIDs. destruct (1 <? length imageIDs)%nat; inv_auto.
  apply triple_forRange. apply inv_removeDockerImage.
Qed.

Lemma inv_janitor : triple Kept (forRange repoNames pruneRepo) (fun _ => Kept) (fun _ => Kept).
Proof. apply triple_forRange, inv_pruneRepo. Qed.

Lemma inv_getPlatformArchitecture :
  triple Kept getPlatformArchitecture (fun _ => Kept) (fun _ => Kept).
Proof. unfold getPlatformArchitecture, logFatal. inv_auto. Qed.

Lemma inv_checkGPUAvailability :
  triple Kept checkGPUAvailability (fun _ => Kept) (fun _ => Kept).
Proof. unfold checkGPUAvailability, Println. inv_auto. Qed.

Lemma inv_checkNvidiaCTK : triple Kept checkNvidiaCTK (fun _ => Kept) (fun _ => Kept).
Proof. unfold checkNvidiaCTK, Println. inv_auto. Qed.

Lemma inv_getMacInfo : triple Kept getMacInfo (fun _ => Kept) (fun _ => Kept).
Proof. unfold getMacInfo. inv_auto. Qed.

Lemma inv_loadCache : triple Kept loadCache (fun _ => Kept) (fun _ => Kept).
Proof.
  intros st H. unfold loadCache.
  destruct (cacheFile st); apply Inv_emit; auto.
Qed.

Lemma inv_saveCache (data : gmap string CacheValue) :
  triple Kept (saveCache data) (fun _ => Kept) (fun _ => Kept).
Proof.
  intros st H. unfold saveCache.
  destruct (cacheWriteErr st); [exact H|]. apply Inv_emit; auto.
Qed.

Lemma inv_modifyArgs (f : Arguments -> Arguments) :
  (forall a, P a -> P (f a)) -> triple Kept (modifyArgs f) (fun _ => Kept) (fun _ => Kept).
Proof. intros Hf st [Htrace Hargs]. split; [exact Htrace|]. apply Hf, Hargs. Qed.

Lemma inv_finalChecks : triple Kept finalChecks (fun _ => Kept) (fun _ => Kept).
Proof.
  unfold finalChecks, osExit, Println.
  repeat first
    [ triple_step
    | apply inv_ret | apply inv_getArgs | apply inv_stop
    | apply inv_checkGPUAvailability | apply inv_checkNvidiaCTK
    | apply inv_checkDocker | apply inv_getMacInfo
    | apply inv_Print; apply ok_routine; reflexivity ].
Qed.

Lemma inv_resolveArchitecture :
  (forall arch a, P a -> P (setArchitecture arch a)) ->
  triple Kept resolveArchitecture (fun _ => Kept) (fun _ => Kept).
Proof.
  intros Hset. unfold resolveArchitecture.
  repeat first
    [ triple_step
    | apply inv_ret
    | apply inv_getArgs
    | apply inv_getPlatformArchitecture
    | apply inv_modifyArgs; intros; apply Hset; assumption ].
Qed.

(** A prompt loop whose question, complaints and reads the invariant
    admits, and whose stores keep [P]. *)
Lemma Inv_scanned (p : Prompt) (r : ScanResult) (unread : list ScanResult) (st : State) :
  ok (EScan r) -> (forall tok a, P a -> P (store p tok a)) ->
  Kept st -> Kept (scanned p r unread st).
Proof.
  intros Hr Hstore [Htrace Hargs]. unfold scanned.
  apply Inv_emit; [exact Hr|].
  destruct r as [tok|[tok|]]; (split; [exact Htrace|]); simpl; auto.
Qed.

Lemma inv_promptFrom (p : Prompt) (unread : list ScanResult) :
  ok (EPrint (question p)) ->
  (forall a text, complaint p a = Some text -> ok (EPrint text)) ->
  (forall r, ok (EScan r)) ->
  (forall tok a, P a -> P (store p tok a)) ->
  triple Kept (promptFrom p unread) (fun _ => Kept) (fun _ => Kept).
Proof.
  intros Hq Hc Hr Hstore.
  induction unread as [|r unread IH]; intros st H; simpl.
  - destruct (needs p (args st)); [|exact H].
    apply Inv_scanned; auto. apply Inv_emit; auto.
  - destruct (needs p (args st)); [|exact H].
    assert (Kept (scanned p r unread (emit (EPrint (question p)) st))) as H'.
    { apply Inv_scanned; auto. apply Inv_emit; auto. }
    destruct r as [tok|stored]; [|exact H'].
    destruct (complaint p _) as [text|] eqn:Htext.
    + apply IH. apply Inv_emit; [|exact H']. eapply Hc, Htext.
    + apply IH, H'.
Qed.

Lemma inv_prompt (p : Prompt) :
  ok (EPrint (question p)) ->
  (forall a text, complaint p a = Some text -> ok (EPrint text)) ->
  (forall r, ok (EScan r)) ->
  (forall tok a, P a -> P (store p tok a)) ->
  triple Kept (prompt p) (fun _ => Kept) (fun _ => Kept).
Proof.
  intros Hq Hc Hr Hstore st H. unfold prompt.
  apply (inv_promptFrom p (stdin st) Hq Hc Hr Hstore st H).
Qed.

End Invariants.

Lemma launch_run (st : State) :
  launch st =
  match constructDockerCommand (args st) (Architecture (args st)) st with
  | (Done dockerCommand, st') =>
      match execErr (system st' (trace st') dockerCommand) with
      | Some e => (Stop (LogFatal e), emit (EExec dockerCommand) st')
      | None => (Done tt, emit (EExec dockerCommand) st')
      end
  | (Stop e, st') => (Stop e, st')
  end.
Proof.
  unfold launch. rewrite bind_run. unfold getArgs. rewrite bind_run.
  destruct (constructDockerCommand _ _ st) as [[dockerCommand|e] st']; [|reflexivity].
  rewrite bind_run. unfold Exec. destruct (execErr _); reflexivity.
Qed.

Lemma launch_trace (st : State) :
  args (launch st).2 = args st
  /\ exists evs, trace (launch st).2 = trace st ++ evs /\ Forall (launchEvent st) evs.
Proof.
  unfold launchEvent. rewrite launch_run, constructDockerCommand_run.
  destruct (String.eqb _ "macOS"); [destruct (execErr (macInfoAnswer st))|].
  - split; [reflexivity|]. exists [EExec ["sh"; "-c"; macInfoScript]].
    split; [reflexivity|]. apply List.Forall_cons; [left; reflexivity|constructor].
  - set (dockerCommand := headTokens _ _ ++ _).
    assert (forall st', st' = emit (EExec dockerCommand) (emit (EExec ["sh"; "-c"; macInfoScript]) st) ->
              args st' = args st
              /\ exists evs, trace st' = trace st ++ evs
                   /\ Forall (fun ev =>
                                ev = EExec ["sh"; "-c"; macInfoScript]
                                \/ exists dockerCommand0,
                                     Done dockerCommand = Done dockerCommand0
                                     /\ ev = EExec dockerCommand0) evs) as H.
    { intros st' ->. split; [reflexivity|].
      exists [EExec ["sh"; "-c"; macInfoScript]; EExec dockerCommand].
      split; [simpl; rewrite <- app_assoc; reflexivity|].
      apply List.Forall_cons; [left; reflexivity|].
      apply List.Forall_cons; [|constructor].
      right. exists dockerCommand. split; reflexivity. }
    destruct (execErr _); apply H; reflexivity.
  - set (dockerCommand := headTokens _ _ ++ _).
    assert (forall st', st' = emit (EExec dockerCommand) st ->
              args st' = args st
              /\ exists evs, trace st' = trace st ++ evs
                   /\ Forall (fun ev =>
                                ev = EExec ["sh"; "-c"; macInfoScript]
                                \/ exists dockerCommand0,
                                     Done dockerCommand = Done dockerCommand0
                                     /\ ev = EExec dockerCommand0) evs) as H.
    { intros st' ->. split; [reflexivity|]. exists [EExec dockerCommand].
      split; [reflexivity|]. apply List.Forall_cons; [|constructor].
      right. exists dockerCommand. split; reflexivity. }
    destruct (execErr _); apply H; reflexivity.
Qed.

(** * Read failures *)

Lemma routine_undisturbed (ev : Event) : routine ev = true -> undisturbed ev.
Proof.
  destruct ev as [text|[tok|stored]|argv| |data]; simpl; intros H; split;
    try reflexivity; try discriminate H.
  apply negb_true_iff, H.
Qed.

Lemma Calm_neverFailed (st : State) : Calm st -> neverFailed st.
Proof.
  intros [H _]. eapply Forall_impl; [exact H|]. intros ev [Hev _]. exact Hev.
Qed.

Lemma calm_routine {A : Type} (m : M A) :
  triple Calm m (fun _ => Calm) (fun _ => Calm) ->
  triple Calm m (fun _ => Calm) afterFailure.
Proof.
  intros H. eapply triple_weaken; [exact H|auto|auto|].
  intros e st Hst. left. apply Calm_neverFailed, Hst.
Qed.

Lemma Calm_emit (ev : Event) (st : State) : undisturbed ev -> Calm st -> Calm (emit ev st).
Proof. apply Inv_emit. Qed.

Lemma Calm_scanned (p : Prompt) (tok : string) (unread : list ScanResult) (st : State) :
  Calm st -> Calm (scanned p (ScanOk tok) unread st).
Proof.
  intros [H _]. unfold scanned. apply Calm_emit; [split; reflexivity|].
  split; [exact H|exact I].
Qed.

Lemma failedTail_scanned (p : Prompt) (stored : option string)
  (unread : list ScanResult) (st : State) :
  In (question p) questions -> Calm st ->
  failedTail (trace (scanned p (ScanErr stored) unread (emit (EPrint (question p)) st))).
Proof.
  intros Hq [H _]. exists (trace st), (question p), stored.
  split; [|split; assumption].
  unfold scanned. rewrite trace_emit.
  destruct stored; simpl; rewrite <- app_assoc; reflexivity.
Qed.

(** A prompt loop either goes on undisturbed or returns from [main] right
    after a failed read. *)
Lemma calm_promptFrom (p : Prompt) (unread : list ScanResult) :
  In (question p) questions ->
  triple Calm (promptFrom p unread) (fun _ => Calm) afterFailure.
Proof.
  intros Hq. induction unread as [|r unread IH]; intros st H; simpl.
  - destruct (needs p (args st)); [|exact H].
    right. split; [reflexivity|]. apply failedTail_scanned; assumption.
  - destruct (needs p (args st)); [|exact H].
    destruct r as [tok|stored].
    + assert (Calm (scanned p (ScanOk tok) unread (emit (EPrint (question p)) st))) as H'.
      { apply Calm_scanned, Calm_emit; [split; reflexivity|exact H]. }
      destruct (complaint p _) as [text|].
      * apply IH, Calm_emit; [split; reflexivity|exact H'].
      * apply IH, H'.
    + right. split; [reflexivity|]. apply failedTail_scanned; assumption.
Qed.

Lemma calm_prompt (p : Prompt) :
  In (question p) questions -> triple Calm (prompt p) (fun _ => Calm) afterFailure.
Proof. intros Hq st H. unfold prompt. apply (calm_promptFrom p (stdin st) Hq st H). Qed.

Lemma calm_resolveUseGPUs : triple Calm resolveUseGPUs (fun _ => Calm) afterFailure.
Proof.
  unfold resolveUseGPUs.
  eapply triple_bind; [apply calm_routine, inv_getArgs|]. intros a.
  destruct (String.eqb (OperatingSystem a) "macOS").
  - eapply triple_bind; [apply calm_routine, inv_modifyArgs; auto|]. intros [].
    apply calm_routine, inv_Print, routine_undisturbed. reflexivity.
  - destruct (String.eqb (UseGPUs a) "").
    + apply calm_prompt. simpl. tauto.
    + apply calm_routine, inv_ret.
Qed.

Lemma calm_launch : triple Calm launch (fun _ => neverFailed) afterFailure.
Proof.
  intros st H.
  destruct (launch_trace st) as (_ & evs & Htrace & Hevs).
  assert (neverFailed (launch st).2) as Hnever.
  { unfold neverFailed. rewrite Htrace. apply Forall_app. split.
    - apply Calm_neverFailed, H.
    - eapply Forall_impl; [exact Hevs|].
      intros ev [->|(dockerCommand & _ & ->)]; reflexivity. }
  destruct (launch st) as [[[]|e] st']; [exact Hnever|left; exact Hnever].
Qed.

Ltac calm_step lemma :=
  eapply triple_bind; [apply calm_routine; lemma|intros ?].

Lemma calm_main (uuidParses : string -> bool) (fl : Flags) :
  triple Calm (main uuidParses fl) (fun _ => neverFailed) afterFailure.
Proof.
  unfold main.
  calm_step ltac:(apply inv_loadCache, routine_undisturbed).
  calm_step ltac:(apply inv_modifyArgs; auto).
  calm_step ltac:(apply inv_checkDocker, routine_undisturbed).
  calm_step ltac:(match goal with
                  | |- triple _ (if ?c then _ else _) _ _ => destruct c
                  end; [apply inv_stop|apply inv_ret]).
  calm_step ltac:(apply inv_stopRunningContainers, routine_undisturbed).
  calm_step ltac:(apply inv_janitor, routine_undisturbed).
  eapply triple_bind; [apply calm_prompt; simpl; tauto|intros ?].
  eapply triple_bind; [apply calm_prompt; simpl; tauto|intros ?].
  eapply triple_bind; [apply calm_prompt; simpl; tauto|intros ?].
  eapply triple_bind; [apply calm_prompt; simpl; tauto|intros ?].
  calm_step ltac:(apply inv_resolveArchitecture; [apply routine_undisturbed|auto]).
  eapply triple_bind; [apply calm_resolveUseGPUs|intros ?].
  calm_step ltac:(apply inv_finalChecks, routine_undisturbed).
  calm_step ltac:(apply inv_getArgs).
  calm_step ltac:(apply inv_saveCache, routine_undisturbed).
  apply calm_launch.
Qed.

Lemma failed_scan_is_last (pre before after : list Event) (q : string)
  (stored stored' : option string) :
  Forall undisturbed pre ->
  pre ++ [EPrint q; EScan (ScanErr stored')] = before ++ EScan (ScanErr stored) :: after ->
  after = [] /\ before = pre ++ [EPrint q].
Proof.
  revert before. induction pre as [|ev pre IH]; intros before Hpre Heq.
  - destruct before as [|b [|b' before]]; simpl in Heq.
    + discriminate Heq.
    + injection Heq as <- _ <-. split; reflexivity.
    + injection Heq as _ _ Heq. destruct before; discriminate Heq.
  - apply List.Forall_cons_iff in Hpre as [[Hev _] Hpre].
    destruct before as [|b before]; simpl in Heq.
    + injection Heq as -> _. discriminate Hev.
    + injection Heq as <- Heq. destruct (IH before Hpre Heq) as [-> ->].
      split; reflexivity.
Qed.

(** C8. In every run, a read that fails is the last thing that happens: the
    process returns from [main] (no message, exit status of a normal return)
    right after the question it had just printed, and it has not run the
    container launch command. *)
Theorem read_failure_ends_run_silently (uuidParses : string -> bool) (fl : Flags)
  (st : State) (before after : list Event) (stored : option string) :
  trace st = [] ->
  trace (main uuidParses fl st).2 = before ++ EScan (ScanErr stored) :: after ->
  (main uuidParses fl st).1 = Stop Returned
  /\ after = []
  /\ (exists before' q, before = before' ++ [EPrint q] /\ In q questions)
  /\ Forall (fun ev => isLaunchEvent ev = false) (trace (main uuidParses fl st).2).
Proof.
  intros Hstart Htrace.
  assert (Calm st) as Hcalm.
  { split; [rewrite Hstart; constructor|exact I]. }
  pose proof (calm_main uuidParses fl st Hcalm) as Hmain.
  destruct (main uuidParses fl st) as [[[]|e] st']; simpl in *.
  - exfalso. unfold neverFailed in Hmain. rewrite Htrace in Hmain.
    apply Forall_app in Hmain as [_ Hmain].
    apply List.Forall_cons_iff in Hmain as [Hmain _]. discriminate Hmain.
  - destruct Hmain as [Hmain|[-> (pre & q & stored' & Heq & Hq & Hpre)]].
    + exfalso. unfold neverFailed in Hmain. rewrite Htrace in Hmain.
      apply Forall_app in Hmain as [_ Hmain].
      apply List.Forall_cons_iff in Hmain as [Hmain _]. discriminate Hmain.
    + rewrite Heq in Htrace.
      destruct (failed_scan_is_last _ _ _ _ _ _ Hpre Htrace) as [-> ->].
      split; [reflexivity|]. split; [reflexivity|]. split; [exists pre, q; auto|].
      rewrite Heq. apply Forall_app. split.
      * eapply Forall_impl; [exact Hpre|]. intros ev [_ Hev]. exact Hev.
      * repeat constructor.
Qed.

Lemma read_failure_ends_run_silently_witness :
  (main canonicalForm allFlagsGiven linuxBox).1 = Stop Returned
  /\ @nil Event = []
  /\ (exists before' q,
        removelast (trace (main canonicalForm allFlagsGiven linuxBox).2)
        = before' ++ [EPrint q] /\ In q questions)
  /\ Forall (fun ev => isLaunchEvent ev = false)
       (trace (main canonicalForm allFlagsGiven linuxBox).2).
Proof.
  apply (read_failure_ends_run_silently canonicalForm allFlagsGiven linuxBox
           (removelast (trace (main canonicalForm allFlagsGiven linuxBox).2)) [] None);
    vm_compute; reflexivity.
Defined.

(** * GPU usage on macOS *)

Lemma triple_or {A : Type} (P1 P2 : State -> Prop) (m : M A) X :
  triple P1 m (fun _ => P1) X -> triple P2 m (fun _ => P2) X ->
  triple (fun st => P1 st \/ P2 st) m (fun _ st => P1 st \/ P2 st) X.
Proof.
  intros H1 H2 st [H|H]; [specialize (H1 st H)|specialize (H2 st H)];
    destruct (m st) as [[a|e] st']; auto.
Qed.

Lemma routine_beforeGPUs (ev : Event) : routine ev = true -> beforeGPUs ev.
Proof.
  destruct ev as [text|[tok|stored]|argv| |data]; simpl; intros H; split;
    try reflexivity; try discriminate H.
  - apply negb_true_iff in H. apply orb_false_iff in H as (_ & H).
    apply orb_false_iff in H as (_ & H). apply orb_false_iff in H as (_ & H).
    apply orb_false_iff in H as (_ & H). apply orb_false_iff in H as (H & _). exact H.
  - apply negb_true_iff, H.
Qed.

Lemma routine_notLaunch (ev : Event) : routine ev = true -> notLaunch ev.
Proof. intros H. apply routine_beforeGPUs, H. Qed.

Lemma no_launch_outcome (st : State) :
  Forall beforeGPUs (trace st) -> macOutcome st.
Proof.
  intros H _. split.
  - eapply Forall_impl; [exact H|]. intros ev [Hev _]. exact Hev.
  - intros argv Hin Hlaunch. rewrite List.Forall_forall in H.
    destruct (H _ Hin) as [_ Hno]. simpl in Hno. congruence.
Qed.

Lemma Unasked_outcome (st : State) : Unasked st -> macOutcome st.
Proof. intros [H _]. apply no_launch_outcome, H. Qed.

Lemma OnMac_outcome (st : State) : OnMac st -> macOutcome st.
Proof. intros [H _]. apply no_launch_outcome, H. Qed.

Lemma Elsewhere_outcome (st : State) : Elsewhere st -> macOutcome st.
Proof. intros [_ H] Hmac. contradiction. Qed.

Lemma unasked_routine {A : Type} (m : M A) :
  triple Unasked m (fun _ => Unasked) (fun _ => Unasked) ->
  triple Unasked m (fun _ => Unasked) (fun _ => macOutcome).
Proof.
  intros H. eapply triple_weaken; [exact H|auto|auto|].
  intros e st Hst. apply Unasked_outcome, Hst.
Qed.

Lemma resolved_routine {A : Type} (m : M A) :
  triple OnMac m (fun _ => OnMac) (fun _ => OnMac) ->
  triple Elsewhere m (fun _ => Elsewhere) (fun _ => Elsewhere) ->
  triple (fun st => OnMac st \/ Elsewhere st) m
    (fun _ st => OnMac st \/ Elsewhere st) (fun _ => macOutcome).
Proof.
  intros H1 H2. apply triple_or.
  - eapply triple_weaken; [exact H1|auto|auto|]. intros e st. apply OnMac_outcome.
  - eapply triple_weaken; [exact H2|auto|auto|]. intros e st. apply Elsewhere_outcome.
Qed.

(** The prompts before the GPU step do not ask the GPU question. *)
Lemma unasked_prompt (p : Prompt) :
  String.eqb (question p) gpuQuestion = false ->
  (forall a text, complaint p a = Some text -> String.eqb text gpuQuestion = false) ->
  triple Unasked (prompt p) (fun _ => Unasked) (fun _ => macOutcome).
Proof.
  intros Hq Hc. apply unasked_routine, inv_prompt.
  - split; [exact Hq|reflexivity].
  - intros a text Htext. split; [exact (Hc a text Htext)|reflexivity].
  - intros r. split; reflexivity.
  - auto.
Qed.

(** On macOS the GPU step stores ["false"], prints the note and reads
    nothing. *)
Lemma resolveUseGPUs_macOS (st : State) :
  OperatingSystem (args st) = "macOS" ->
  resolveUseGPUs st =
  (Done tt, emit (EPrint (macNote +:+ nl)) (withArgs (setUseGPUs "false" (args st)) st)).
Proof.
  intros Hmac. unfold resolveUseGPUs. rewrite bind_run. unfold getArgs.
  rewrite Hmac. reflexivity.
Qed.

Lemma resolved_resolveUseGPUs :
  triple Unasked resolveUseGPUs (fun _ st => OnMac st \/ Elsewhere st) (fun _ => macOutcome).
Proof.
  intros st H.
  destruct (String.eqb (OperatingSystem (args st)) "macOS") eqn:Hos.
  - apply String.eqb_eq in Hos. rewrite (resolveUseGPUs_macOS st Hos).
    left. destruct H as [H _]. split.
    + rewrite trace_emit. apply Forall_app. split; [exact H|].
      repeat constructor.
    + simpl. split; [exact Hos|reflexivity].
  - assert (Elsewhere st) as Helse.
    { destruct H as [H _]. split.
      - eapply Forall_impl; [exact H|]. intros ev [_ Hev]. exact Hev.
      - apply String.eqb_neq, Hos. }
    unfold resolveUseGPUs. rewrite bind_run. unfold getArgs. rewrite Hos.
    destruct (String.eqb (UseGPUs (args st)) "").
    + assert (triple Elsewhere (prompt useGPUsPrompt)
                (fun _ => Elsewhere) (fun _ => Elsewhere)) as Hprompt.
      { apply inv_prompt; try (intros; reflexivity). auto. }
      specialize (Hprompt st Helse).
      destruct (prompt useGPUsPrompt st) as [[[]|e] st'].
      * right. exact Hprompt.
      * apply Elsewhere_outcome, Hprompt.
    + right. exact Helse.
Qed.

Lemma resolved_launch :
  triple (fun st => OnMac st \/ Elsewhere st) launch
    (fun _ => macOutcome) (fun _ => macOutcome).
Proof.
  intros st H.
  destruct (launch_trace st) as (Hargs & evs & Htrace & Hevs).
  assert (macOutcome (launch st).2) as Hout.
  { unfold macOutcome. rewrite Hargs, Htrace. intros Hmac.
    destruct H as [[Htr [_ Hgpus]]|[_ Hne]]; [|contradiction].
    rewrite List.Forall_forall in Hevs. split.
    - apply Forall_app. split.
      + eapply Forall_impl; [exact Htr|]. intros ev [Hev _]. exact Hev.
      + apply List.Forall_forall. intros ev Hev.
        destruct (Hevs ev Hev) as [->|(dockerCommand & _ & ->)]; reflexivity.
    - intros argv Hin Hlaunch. split; [exact Hgpus|].
      apply in_app_or in Hin as [Hin|Hin].
      + rewrite List.Forall_forall in Htr. destruct (Htr _ Hin) as [_ Hno].
        simpl in Hno. congruence.
      + destruct (Hevs _ Hin) as [Heq|(dockerCommand & Hcmd & Heq)];
          injection Heq as ->; [discriminate Hlaunch|].
        rewrite constructDockerCommand_run, Hmac in Hcmd. simpl in Hcmd.
        destruct (execErr (macInfoAnswer st)); [discriminate Hcmd|].
        injection Hcmd as <-.
        exists (headTokens (args st) (Architecture (args st))),
          (TrimSpace (execOut (macInfoAnswer st))), (channelTokens (args st)).
        reflexivity. }
  destruct (launch st) as [[[]|e] st']; exact Hout.
Qed.

Ltac unasked_step lemma :=
  eapply triple_bind; [apply unasked_routine; lemma|intros ?].

Ltac resolved_step onMac elsewhere :=
  eapply triple_bind; [apply resolved_routine; [onMac|elsewhere]|intros ?].

Ltac not_that_question :=
  first
    [ reflexivity
    | let H := fresh in
      intros ? ? H; simpl in H;
      match type of H with
      | (if ?c then _ else _) = Some _ => destruct c; [|discriminate H]
      end;
      injection H as <-; reflexivity ].

Lemma outcome_main (uuidParses : string -> bool) (fl : Flags) :
  triple Unasked (main uuidParses fl) (fun _ => macOutcome) (fun _ => macOutcome).
Proof.
  unfold main.
  unasked_step ltac:(apply inv_loadCache, routine_beforeGPUs).
  unasked_step ltac:(apply inv_modifyArgs; auto).
  unasked_step ltac:(apply inv_checkDocker, routine_beforeGPUs).
  unasked_step ltac:(match goal with
                     | |- triple _ (if ?c then _ else _) _ _ => destruct c
                     end; [apply inv_stop|apply inv_ret]).
  unasked_step ltac:(apply inv_stopRunningContainers, routine_beforeGPUs).
  unasked_step ltac:(apply inv_janitor, routine_beforeGPUs).
  eapply triple_bind; [apply unasked_prompt; not_that_question|intros ?].
  eapply triple_bind; [apply unasked_prompt; not_that_question|intros ?].
  eapply triple_bind; [apply unasked_prompt; not_that_question|intros ?].
  eapply triple_bind; [apply unasked_prompt; not_that_question|intros ?].
  unasked_step ltac:(apply inv_resolveArchitecture; [apply routine_beforeGPUs|auto]).
  eapply triple_bind; [apply resolved_resolveUseGPUs|intros ?].
  resolved_step ltac:(apply inv_finalChecks, routine_beforeGPUs)
                ltac:(apply inv_finalChecks, routine_notLaunch).
  resolved_step ltac:(apply inv_getArgs) ltac:(apply inv_getArgs).
  resolved_step ltac:(apply inv_saveCache, routine_beforeGPUs)
                ltac:(apply inv_saveCache, routine_notLaunch).
  apply resolved_launch.
Qed.

(** What the builder returns on macOS: it returns a command exactly when
    the [sysctl] pipeline succeeds, and the command is a [docker run] that
    carries the [MAC_INFO] variable, made of the trimmed output of the
    pipeline, followed by [--pull always]. *)
Lemma constructDockerCommand_macOS (a : Arguments) (arch : string) (st : State) :
  OperatingSystem a = "macOS" ->
  (forall cmd, (constructDockerCommand a arch st).1 = Done cmd ->
     isLaunch cmd = true
     /\ exists pre post,
          cmd = pre ++ "-e" :: ("MAC_INFO=" +:+ TrimSpace (execOut (macInfoAnswer st)))
                  :: "--pull" :: "always" :: post)
  /\ (execErr (macInfoAnswer st) = None ->
      exists cmd, (constructDockerCommand a arch st).1 = Done cmd).
Proof.
  intros Hmac. rewrite constructDockerCommand_run, Hmac. cbv iota. simpl String.eqb.
  cbv iota. destruct (execErr (macInfoAnswer st)) as [e|]; split.
  - intros cmd Hcmd. discriminate Hcmd.
  - intros He. discriminate He.
  - intros cmd Hcmd. injection Hcmd as <-. split; [reflexivity|].
    exists (headTokens a arch), (channelTokens a). reflexivity.
  - intros _. eexists. reflexivity.
Qed.

(** C4. On macOS the GPU step stores ["false"] in [UseGPUs], prints its
    note and reads nothing.  In every run that ends with the operating system
    resolved to macOS the GPU question was never printed, and if the
    launch command was run, [UseGPUs] is ["false"] and the command carries a
    [MAC_INFO] variable followed by [--pull always].  The Command Builder
    itself, for any arguments whose operating system is macOS: every command
    it returns is a [docker run] that includes the [MAC_INFO] variable, made
    of the trimmed output of the [sysctl] pipeline, and then
    [--pull always]; and it returns a command whenever that pipeline
    succeeds. *)
Theorem macOS_forces_no_gpus (uuidParses : string -> bool) (fl : Flags) (st : State) :
  trace st = [] ->
  OperatingSystem (args (main uuidParses fl st).2) = "macOS" ->
  (forall st0, OperatingSystem (args st0) = "macOS" ->
     resolveUseGPUs st0 =
     (Done tt, emit (EPrint (macNote +:+ nl)) (withArgs (setUseGPUs "false" (args st0)) st0)))
  /\ Forall (fun ev => isGPUQuestion ev = false) (trace (main uuidParses fl st).2)
  /\ (forall argv,
       In (EExec argv) (trace (main uuidParses fl st).2) -> isLaunch argv = true ->
       UseGPUs (args (main uuidParses fl st).2) = "false" /\ macOnlyTokens argv)
  /\ (forall (a : Arguments) (arch : string) (st0 : State),
       OperatingSystem a = "macOS" ->
       (forall cmd, (constructDockerCommand a arch st0).1 = Done cmd ->
          isLaunch cmd = true
          /\ macOnlyTokens cmd
          /\ exists pre post,
               cmd = pre ++ "-e"
                       :: ("MAC_INFO=" +:+ TrimSpace (execOut (macInfoAnswer st0)))
                       :: "--pull" :: "always" :: post)
       /\ (execErr (macInfoAnswer st0) = None ->
           exists cmd, (constructDockerCommand a arch st0).1 = Done cmd)).
Proof.
  intros Hstart Hmac. split; [exact resolveUseGPUs_macOS|].
  assert (Unasked st) as Hst.
  { split; [rewrite Hstart; constructor|exact I]. }
  pose proof (outcome_main uuidParses fl st Hst) as Hmain.
  assert (macOutcome (main uuidParses fl st).2) as Hout
    by (destruct (main uuidParses fl st) as [[[]|e] st']; exact Hmain).
  destruct (Hout Hmac) as [Hquiet Hlaunched].
  split; [exact Hquiet|]. split; [exact Hlaunched|].
  intros a arch st0 Ha.
  destruct (constructDockerCommand_macOS a arch st0 Ha) as [Hdone Hsome].
  split; [|exact Hsome].
  intros cmd Hcmd. destruct (Hdone cmd Hcmd) as (Hrun & pre & post & Heq).
  split; [exact Hrun|]. split; [|exists pre, post; exact Heq].
  exists pre, (TrimSpace (execOut (macInfoAnswer st0))), post. exact Heq.
Qed.

Lemma macOS_forces_no_gpus_witness :
  (forall st0, OperatingSystem (args st0) = "macOS" ->
     resolveUseGPUs st0 =
     (Done tt, emit (EPrint (macNote +:+ nl)) (withArgs (setUseGPUs "false" (args st0)) st0)))
  /\ Forall (fun ev => isGPUQuestion ev = false)
       (trace (main canonicalForm macFlags macBookRun).2)
  /\ (forall argv,
       In (EExec argv) (trace (main canonicalForm macFlags macBookRun).2) ->
       isLaunch argv = true ->
       UseGPUs (args (main canonicalForm macFlags macBookRun).2) = "false"
       /\ macOnlyTokens argv)
  /\ (forall (a : Arguments) (arch : string) (st0 : State),
       OperatingSystem a = "macOS" ->
       (forall cmd, (constructDockerCommand a arch st0).1 = Done cmd ->
          isLaunch cmd = true
          /\ macOnlyTokens cmd
          /\ exists pre post,
               cmd = pre ++ "-e"
                       :: ("MAC_INFO=" +:+ TrimSpace (execOut (macInfoAnswer st0)))
                       :: "--pull" :: "always" :: post)
       /\ (execErr (macInfoAnswer st0) = None ->
           exists cmd, (constructDockerCommand a arch st0).1 = Done cmd)).
Proof.
  apply (macOS_forces_no_gpus canonicalForm macFlags macBookRun);
    vm_compute; reflexivity.
Defined.

Example macBookRun_launches :
  (main canonicalForm macFlags macBookRun).1 = Done tt
  /\ last (trace (main canonicalForm macFlags macBookRun).2) =
     Some (EExec
       ["docker"; "run"; "-d"; "-v"; "/var/run/docker.sock:/var/run/docker.sock";
        "--network"; "host"; "-e"; "ARCH=arm64"; "--platform"; "linux/amd64";
        "-e"; "DEVICE_NAME=<nil>"; "-e"; "DEVICE_ID=" +:+ sampleUUID;
        "-e"; "USER_ID=" +:+ sampleUUID; "-e"; "OPERATING_SYSTEM=macOS";
        "-e"; "USEGPUS=false"; "-e"; "MAC_INFO={machdep.cpu.core_count: 8}";
        "--pull"; "always"; "ionetcontainers/io-launch:v0.1"]).
Proof. vm_compute. split; reflexivity. Qed.

(** * What becomes of the flags *)

Lemma Unset_outcome (st : State) : Unset st -> stableOutcome st.
Proof.
  intros [Htr Hbeta]. split; [exact Hbeta|].
  intros argv Hin Hlaunch. rewrite List.Forall_forall in Htr.
  specialize (Htr _ Hin). unfold notLaunch in Htr. simpl in Htr. congruence.
Qed.

Lemma unset_routine {A : Type} (m : M A) :
  triple Unset m (fun _ => Unset) (fun _ => Unset) ->
  triple Unset m (fun _ => Unset) (fun _ => stableOutcome).
Proof.
  intros H. eapply triple_weaken; [exact H|auto|auto|].
  intros e st. apply Unset_outcome.
Qed.

Lemma unset_prompt (p : Prompt) :
  (forall tok a, Beta (store p tok a) = Beta a) ->
  triple Unset (prompt p) (fun _ => Unset) (fun _ => stableOutcome).
Proof.
  intros Hstore. apply unset_routine, inv_prompt; try (intros; reflexivity).
  intros tok a Ha. rewrite Hstore. exact Ha.
Qed.

Lemma debug_not_head (a : Arguments) (arch : string) :
  ~ In "CURRENT_LOG_LEVEL=DEBUG" (headTokens a arch).
Proof. unfold headTokens. intros H. split_membership H. Qed.

Lemma debug_not_mac (info : string) : ~ In "CURRENT_LOG_LEVEL=DEBUG" (macTokens info).
Proof. unfold macTokens. intros H. split_membership H. Qed.

Lemma unset_launch : triple Unset launch (fun _ => stableOutcome) (fun _ => stableOutcome).
Proof.
  intros st [Htr Hbeta].
  destruct (launch_trace st) as (Hargs & evs & Htrace & Hevs).
  assert (stableOutcome (launch st).2) as Hout.
  { unfold stableOutcome. rewrite Hargs, Htrace. split; [exact Hbeta|].
    intros argv Hin Hlaunch. apply in_app_or in Hin as [Hin|Hin].
    - rewrite List.Forall_forall in Htr. specialize (Htr _ Hin).
      unfold notLaunch in Htr. simpl in Htr. congruence.
    - rewrite List.Forall_forall in Hevs.
      destruct (Hevs _ Hin) as [Heq|(dockerCommand & Hcmd & Heq)];
        injection Heq as ->; [discriminate Hlaunch|].
      rewrite constructDockerCommand_run in Hcmd. unfold channelTokens in Hcmd.
      rewrite Hbeta in Hcmd.
      pose proof (debug_not_head (args st) (Architecture (args st))) as Hhead.
      pose proof (debug_not_mac (execOut (macInfoAnswer st))) as Hmac.
      remember (headTokens (args st) (Architecture (args st))) as head.
      remember (macTokens (execOut (macInfoAnswer st))) as mac.
      assert (~ In "CURRENT_LOG_LEVEL=DEBUG" [stableImage]) as Himage.
      { intros H. split_membership H. }
      destruct (String.eqb _ "macOS"); [destruct (execErr (macInfoAnswer st))|];
        try discriminate Hcmd; injection Hcmd as <-.
      + split; [rewrite !app_assoc; apply last_snoc|].
        intros H. apply in_app_or in H as [H|H]; [exact (Hhead H)|].
        apply in_app_or in H as [H|H]; [exact (Hmac H)|exact (Himage H)].
      + split; [apply last_snoc|].
        intros H. apply in_app_or in H as [H|H]; [exact (Hhead H)|exact (Himage H)]. }
  destruct (launch st) as [[[]|e] st']; exact Hout.
Qed.

Ltac unset_step lemma :=
  eapply triple_bind; [apply unset_routine; lemma|intros ?].

(** No run sets [Beta], whatever the [--beta] flag says; the command that a
    run launches therefore names the stable image and carries no debug
    variable. *)
Lemma main_never_beta (uuidParses : string -> bool) (fl : Flags) :
  triple Unset (main uuidParses fl) (fun _ => stableOutcome) (fun _ => stableOutcome).
Proof.
  unfold main.
  unset_step ltac:(apply inv_loadCache, routine_notLaunch).
  unset_step ltac:(apply inv_modifyArgs; intros;
                   apply fallback_only_writes_DeviceName).
  unset_step ltac:(apply inv_checkDocker, routine_notLaunch).
  unset_step ltac:(match goal with
                   | |- triple _ (if ?c then _ else _) _ _ => destruct c
                   end; [apply inv_stop|apply inv_ret]).
  unset_step ltac:(apply inv_stopRunningContainers, routine_notLaunch).
  unset_step ltac:(apply inv_janitor, routine_notLaunch).
  eapply triple_bind; [apply unset_prompt; reflexivity|intros ?].
  eapply triple_bind; [apply unset_prompt; reflexivity|intros ?].
  eapply triple_bind; [apply unset_prompt; reflexivity|intros ?].
  eapply triple_bind; [apply unset_prompt; reflexivity|intros ?].
  unset_step ltac:(apply inv_resolveArchitecture; [apply routine_notLaunch|auto]).
  eapply triple_bind; [|intros ?].
  { unfold resolveUseGPUs.
    eapply triple_bind; [apply unset_routine, inv_getArgs|intros current].
    destruct (String.eqb (OperatingSystem current) "macOS").
    - eapply triple_bind; [apply unset_routine, inv_modifyArgs; auto|intros ?].
      apply unset_routine, inv_Print. reflexivity.
    - destruct (String.eqb (UseGPUs current) ""); [apply unset_prompt; reflexivity|].
      apply unset_routine, inv_ret. }
  unset_step ltac:(apply inv_finalChecks, routine_notLaunch).
  unset_step ltac:(apply inv_getArgs).
  unset_step ltac:(apply inv_saveCache, routine_notLaunch).
  apply unset_launch.
Qed.

(** C3, on the code. A run with [--beta] that answers every question and
    launches: the command names the stable image and has no debug
    variables, and [Beta] is still unset at the end. *)
Theorem beta_flag_launches_stable_image :
  beta betaFlags = true
  /\ (main canonicalForm betaFlags linuxRun).1 = Done tt
  /\ Beta (args (main canonicalForm betaFlags linuxRun).2) = false
  /\ last (trace (main canonicalForm betaFlags linuxRun).2) =
     Some (EExec
       ["docker"; "run"; "-d"; "-v"; "/var/run/docker.sock:/var/run/docker.sock";
        "--network"; "host"; "-e"; "ARCH=x86_64";
        "-e"; "DEVICE_NAME=<nil>"; "-e"; "DEVICE_ID=" +:+ sampleUUID;
        "-e"; "USER_ID=" +:+ sampleUUID; "-e"; "OPERATING_SYSTEM=Linux";
        "-e"; "USEGPUS=false"; "ionetcontainers/io-launch:v0.1"]).
Proof. vm_compute. repeat split; reflexivity. Qed.

(** C1, on the code. With every flag given a valid value, no flag value
    reaches the record: the fallback leaves it empty, the run asks for the
    device name first, and it ends there when there is nothing to read; with
    answers typed in, the record and the command are made of the answers
    and of the probed architecture. *)
Theorem all_flags_given_still_prompts :
  fallback allFlagsGiven ∅ = newArguments
  /\ (main canonicalForm allFlagsGiven linuxBox).1 = Stop Returned
  /\ trace (main canonicalForm allFlagsGiven linuxBox).2 =
     [ELoadCache; EExec ["docker"; "info"]; EExec ["docker"; "ps"; "-q"];
      EExec ["sh"; "-c"; imageListCommand "ionetcontainers/io-worker-vc"];
      EExec ["sh"; "-c"; imageListCommand "ionetcontainers/io-worker-monitor"];
      EExec ["sh"; "-c"; imageListCommand "ionetcontainers/io-launch"];
      EPrint "Enter device name: "; EScan (ScanErr None)]
  /\ args (main canonicalForm allFlagsGiven typedAnswers).2 =
     mkArguments "typed" otherUUID otherUUID "macOS" "false" "arm64" false
  /\ last (trace (main canonicalForm allFlagsGiven typedAnswers).2) =
     Some (EExec
       ["docker"; "run"; "-d"; "-v"; "/var/run/docker.sock:/var/run/docker.sock";
        "--network"; "host"; "-e"; "ARCH=arm64"; "--platform"; "linux/amd64";
        "-e"; "DEVICE_NAME=typed"; "-e"; "DEVICE_ID=" +:+ otherUUID;
        "-e"; "USER_ID=" +:+ otherUUID; "-e"; "OPERATING_SYSTEM=macOS";
        "-e"; "USEGPUS=false"; "-e"; "MAC_INFO={machdep.cpu.core_count: 8}";
        "--pull"; "always"; "ionetcontainers/io-launch:v0.1"]).
Proof. vm_compute. repeat split; reflexivity. Qed.


(** * The device-name prompt after the fallback *)

Lemma routine_notNameQuestion (ev : Event) : routine ev = true -> notNameQuestion ev.
Proof.
  destruct ev as [text|r|argv| |data]; simpl; intros H; try reflexivity.
  apply negb_true_iff in H. apply orb_false_iff in H as (H & _). exact H.
Qed.

Lemma named_routine {A : Type} (m : M A) :
  triple Named m (fun _ => Named) (fun _ => Named) ->
  triple Named m (fun _ => Named) (fun _ => neverAskedName).
Proof.
  intros H. eapply triple_weaken; [exact H|auto|auto|].
  intros e st [Hst _]. exact Hst.
Qed.

Lemma named_prompt (p : Prompt) :
  String.eqb (question p) (question deviceNamePrompt) = false ->
  (forall a text, complaint p a = Some text ->
                  String.eqb text (question deviceNamePrompt) = false) ->
  (forall tok a, DeviceName (store p tok a) = DeviceName a) ->
  triple Named (prompt p) (fun _ => Named) (fun _ => neverAskedName).
Proof.
  intros Hq Hc Hstore. apply named_routine, inv_prompt.
  - exact Hq.
  - exact Hc.
  - intros r. reflexivity.
  - intros tok a Ha. rewrite Hstore. exact Ha.
Qed.

(** With a device name in place the device-name loop does nothing. *)
Lemma named_deviceNamePrompt :
  triple Named (prompt deviceNamePrompt) (fun _ => Named) (fun _ => neverAskedName).
Proof.
  intros st H. unfold prompt. rewrite promptFrom_skip; [exact H|].
  destruct H as [_ H]. simpl. apply String.eqb_neq, H.
Qed.

Lemma named_resolveUseGPUs :
  triple Named resolveUseGPUs (fun _ => Named) (fun _ => neverAskedName).
Proof.
  unfold resolveUseGPUs.
  eapply triple_bind; [apply named_routine, inv_getArgs|intros current].
  destruct (String.eqb (OperatingSystem current) "macOS").
  - eapply triple_bind; [apply named_routine, inv_modifyArgs; auto|intros ?].
    apply named_routine, inv_Print. reflexivity.
  - destruct (String.eqb (UseGPUs current) "").
    + apply named_prompt; not_that_question.
    + apply named_routine, inv_ret.
Qed.

Lemma named_launch :
  triple Named launch (fun _ => neverAskedName) (fun _ => neverAskedName).
Proof.
  intros st [Htr _].
  destruct (launch_trace st) as (_ & evs & Htrace & Hevs).
  assert (neverAskedName (launch st).2) as Hout.
  { unfold neverAskedName. rewrite Htrace. apply Forall_app. split; [exact Htr|].
    eapply Forall_impl; [exact Hevs|].
    intros ev [->|(dockerCommand & _ & ->)]; reflexivity. }
  destruct (launch st) as [[[]|e] st']; exact Hout.
Qed.

Ltac named_step lemma :=
  eapply triple_bind; [apply named_routine; lemma|intros ?].

(** A run whose fallback leaves a device name never asks for one. *)
Lemma named_main (uuidParses : string -> bool) (fl : Flags)
  (cache : gmap string CacheValue) :
  DeviceName (fallback fl cache) <> "" ->
  triple (fun st => cacheFile st = inr cache /\ neverAskedName st)
    (main uuidParses fl) (fun _ => neverAskedName) (fun _ => neverAskedName).
Proof.
  intros Hname. unfold main.
  eapply triple_bind with
    (R := fun loaded st => loaded = cache /\ neverAskedName st).
  { intros st [Hcache Htr]. unfold loadCache. rewrite Hcache.
    split; [reflexivity|]. unfold neverAskedName. rewrite trace_emit.
    apply Forall_app. split; [exact Htr|]. repeat constructor. }
  intros loaded.
  eapply triple_bind with (R := fun _ => Named).
  { intros st [-> Htr]. split; [exact Htr|exact Hname]. }
  intros [].
  named_step ltac:(apply inv_checkDocker, routine_notNameQuestion).
  named_step ltac:(match goal with
                   | |- triple _ (if ?c then _ else _) _ _ => destruct c
                   end; [apply inv_stop|apply inv_ret]).
  named_step ltac:(apply inv_stopRunningContainers, routine_notNameQuestion).
  named_step ltac:(apply inv_janitor, routine_notNameQuestion).
  eapply triple_bind; [apply named_deviceNamePrompt|intros ?].
  eapply triple_bind; [apply named_prompt; not_that_question|intros ?].
  eapply triple_bind; [apply named_prompt; not_that_question|intros ?].
  eapply triple_bind; [apply named_prompt; not_that_question|intros ?].
  named_step ltac:(apply inv_resolveArchitecture; [apply routine_notNameQuestion|auto]).
  eapply triple_bind; [apply named_resolveUseGPUs|intros ?].
  named_step ltac:(apply inv_finalChecks, routine_notNameQuestion).
  named_step ltac:(apply inv_getArgs).
  named_step ltac:(apply inv_saveCache, routine_notNameQuestion).
  apply named_launch.
Qed.

(** C9, on the code. With [--device_name] and [--usegpus] left empty and a
    cache that holds nothing but an empty ["usegpus"], the first
    conditional finds no ["device_name"] and writes ["<nil>"] to
    [DeviceName], as the claim says; but the conditional of [--usegpus]
    (line 250) writes the cached GPU answer to [DeviceName] too, not to
    [UseGPUs]: after the fallback the name is empty, and the run asks for
    it. *)
Theorem nil_name_overwritten :
  String.eqb (deviceName nameAndGPUsMissing) "" = true
  /\ cacheWithEmptyGPUs !! "device_name" = None
  /\ DeviceName
       (fold_left (fallbackStep cacheWithEmptyGPUs)
          (firstn 1 (fallbackPlan nameAndGPUsMissing)) newArguments) = "<nil>"
  /\ DeviceName (fallback nameAndGPUsMissing cacheWithEmptyGPUs) = ""
  /\ UseGPUs (fallback nameAndGPUsMissing cacheWithEmptyGPUs) = ""
  /\ DeviceName (fallback nameAndGPUsMissing cacheWithEmptyGPUs) <> "<nil>"
  /\ needs deviceNamePrompt (fallback nameAndGPUsMissing cacheWithEmptyGPUs) = true
  /\ existsb isNameQuestion (trace (main canonicalForm nameAndGPUsMissing templateRun).2)
     = true.
Proof. vm_compute. repeat split; discriminate. Qed.

(** When a conditional of the fallback fires for a key that the cache
    lacks, it sets [DeviceName] to ["<nil>"]; if none of the conditionals
    that fire after it renders an empty string, [DeviceName] is not empty
    after the fallback, and a run that loads this cache never asks for the
    device name. *)
Lemma nil_name_skips_prompt (uuidParses : string -> bool) (fl : Flags)
  (cache : gmap string CacheValue) (before after : list (bool * string))
  (key : string) :
  fallbackPlan fl = before ++ (true, key) :: after ->
  cache !! key = None ->
  DeviceName (fold_left (fallbackStep cache) (before ++ [(true, key)]) newArguments) = "<nil>"
  /\ ((forall key', In (true, key') after -> Sprintf_v (index cache key') <> "") ->
      DeviceName (fallback fl cache) <> ""
      /\ forall st, cacheFile st = inr cache -> trace st = [] ->
           Forall (fun ev => isNameQuestion ev = false)
             (trace (main uuidParses fl st).2)).
Proof.
  intros Hplan Hkey.
  assert (Sprintf_v (index cache key) = "<nil>") as Hnil.
  { unfold index. rewrite Hkey. reflexivity. }
  split; [rewrite fallbackSteps_last; exact Hnil|].
  intros Hafter.
  assert (DeviceName (fallback fl cache) <> "") as Hname.
  { rewrite fallback_plan, Hplan.
    change (before ++ (true, key) :: after) with (before ++ [(true, key)] ++ after).
    rewrite app_assoc, fold_left_app.
    apply fallbackSteps_nonempty; [|exact Hafter].
    rewrite fallbackSteps_last, Hnil. discriminate. }
  split; [exact Hname|].
  intros st Hcache Hstart.
  assert (cacheFile st = inr cache /\ neverAskedName st) as Hst.
  { split; [exact Hcache|]. unfold neverAskedName. rewrite Hstart. constructor. }
  pose proof (named_main uuidParses fl cache Hname st Hst) as Hmain.
  destruct (main uuidParses fl st) as [[[]|e] st']; exact Hmain.
Qed.

Lemma nil_name_skips_prompt_witness :
  DeviceName
    (fold_left (fallbackStep ∅)
       ([(true, "device_name"); (true, "device_id"); (true, "user_id");
         (true, "operating_system"); (true, "usegpus")] ++ [(true, "arch")])
       newArguments) = "<nil>"
  /\ ((forall key', In (true, key') [(false, "beta")] ->
       Sprintf_v (index (∅ : gmap string CacheValue) key') <> "") ->
      DeviceName (fallback allFlagsMissing ∅) <> ""
      /\ forall st, cacheFile st = inr ∅ -> trace st = [] ->
           Forall (fun ev => isNameQuestion ev = false)
             (trace (main canonicalForm allFlagsMissing st).2)).
Proof.
  apply (nil_name_skips_prompt canonicalForm allFlagsMissing ∅
           [(true, "device_name"); (true, "device_id"); (true, "user_id");
            (true, "operating_system"); (true, "usegpus")]
           [(false, "beta")] "arch");
    reflexivity.
Defined.

(** * The helpers *)

(** [contains] is membership, by exact (case-sensitive) comparison. *)
Theorem contains_iff_In (slice : list string) (str : string) :
  contains slice str = true <-> In str slice.
Proof.
  induction slice as [|s rest IH]; simpl.
  - split; [discriminate|tauto].
  - destruct (String.eqb s str) eqn:Hs.
    + apply String.eqb_eq in Hs. split; [left; exact Hs|reflexivity].
    + apply String.eqb_neq in Hs. rewrite IH. split; [right; assumption|].
      intros [H|H]; [contradiction|exact H].
Qed.

(** * Go strings as sequences of runes *)

Section Runes.

#[local] Arguments String.append : simpl nomatch.

Lemma string_length_append (a b : string) :
  String.length (a +:+ b) = (String.length a + String.length b)%nat.
Proof. induction a as [|c a IH]; simpl; [reflexivity|rewrite IH; reflexivity]. Qed.

Lemma string_append_assoc (a b c : string) : (a +:+ b) +:+ c = a +:+ (b +:+ c).
Proof. induction a as [|x a IH]; simpl; [reflexivity|rewrite IH; reflexivity]. Qed.

Lemma string_append_nil (a : string) : a +:+ "" = a.
Proof. induction a as [|x a IH]; simpl; [reflexivity|rewrite IH; reflexivity]. Qed.



(** A string splits at every index up to its length. *)
Lemma string_split (n : nat) (s : string) :
  (n <= String.length s)%nat ->
  exists a b, s = a +:+ b /\ String.length a = n /\ a = substring 0 n s.
Proof.
  revert s. induction n as [|n IH]; intros s Hn.
  - exists "", s. split; [reflexivity|]. split; [reflexivity|]. destruct s; reflexivity.
  - destruct s as [|c s]; simpl in Hn; [lia|].
    destruct (IH s ltac:(lia)) as (a & b & Hs & Hlen & Ha).
    exists (String c a), b. simpl. rewrite <- Hs, Hlen, <- Ha. auto.
Qed.


Lemma string_append_inj (a1 a2 b1 b2 : string) :
  a1 +:+ b1 = a2 +:+ b2 -> String.length a1 = String.length a2 -> a1 = a2 /\ b1 = b2.
Proof.
  revert a2. induction a1 as [|c a1 IH]; intros [|c2 a2] Heq Hlen; simpl in *; try discriminate.
  - auto.
  - injection Heq as -> Heq. destruct (IH a2 Heq ltac:(lia)) as [-> ->]. auto.
Qed.

Lemma byteAt_append (a b : string) (i : nat) :
  (i < String.length a)%nat -> utf8.byteAt (a +:+ b) i = utf8.byteAt a i.
Proof.
  unfold utf8.byteAt. revert i. induction a as [|c a IH]; intros i Hi; simpl in *; [lia|].
  destruct i as [|i]; [reflexivity|]. apply IH. lia.
Qed.

(** ** The decoder reads no further than the rune *)

Lemma first_size (b : N) (sz : nat) (lo hi : N) :
  utf8.first b = utf8.lead sz lo hi -> (2 <= sz <= 4)%nat.
Proof.
  unfold utf8.first, utf8.s1, utf8.s2, utf8.s3, utf8.s4, utf8.s5, utf8.s6, utf8.s7.
  repeat match goal with
         | |- context [if ?c then _ else _] => destruct c
         end; intros H; try discriminate H; injection H as <- _ _; lia.
Qed.

(** A byte that cannot be decoded is no white space. *)
Lemma IsSpace_RuneError : unicode.IsSpace utf8.RuneError = false.
Proof. reflexivity. Qed.

Ltac decode_cases :=
  repeat match goal with
         | |- context [(?n <? ?m)%nat] => destruct (Nat.ltb_spec n m)
         | |- context [(?n <=? ?m)%nat] => destruct (Nat.leb_spec n m)
         | |- context [if ?c then _ else _] => destruct c eqn:?
         end.

Lemma decodeRune_size (n : nat) (b0 b1 b2 b3 : N) :
  (1 <= n)%nat -> (1 <= (utf8.decodeRune n b0 b1 b2 b3).2 <= n)%nat.
Proof.
  intros Hn. unfold utf8.decodeRune.
  destruct (utf8.first b0) as [| |sz lo hi] eqn:Hfirst.
  - decode_cases; simpl; lia.
  - decode_cases; simpl; lia.
  - apply first_size in Hfirst. decode_cases; simpl; lia.
Qed.

(** The result on a string and on a longer one that starts with it are the
    same when the rune decoded from the longer one lies within the shorter,
    and when the rune decoded from the shorter one is white space. *)
Lemma decodeRune_stable (n n' : nat) (b0 b1 b2 b3 b1' b2' b3' : N) :
  (1 <= n <= n')%nat ->
  ((1 < n)%nat -> b1' = b1) -> ((2 < n)%nat -> b2' = b2) -> ((3 < n)%nat -> b3' = b3) ->
  ((utf8.decodeRune n' b0 b1' b2' b3').2 <= n)%nat
  \/ unicode.IsSpace (utf8.decodeRune n b0 b1 b2 b3).1 = true ->
  utf8.decodeRune n b0 b1 b2 b3 = utf8.decodeRune n' b0 b1' b2' b3'.
Proof.
  intros Hn H1 H2 H3. unfold utf8.decodeRune.
  destruct (utf8.first b0) as [| |sz lo hi] eqn:Hfirst.
  - intros _. decode_cases; try lia; reflexivity.
  - intros _. decode_cases; try lia; reflexivity.
  - apply first_size in Hfirst.
    destruct (Nat.ltb_spec n 1); [lia|]. destruct (Nat.ltb_spec n' 1); [lia|].
    destruct (Nat.ltb_spec n sz) as [Hshort|Hlong].
    + (* the shorter string ends within the encoding *)
      intros [Hsize|Hspace]; [|discriminate Hspace].
      revert Hsize. decode_cases; simpl; intros; first [reflexivity|lia].
    + destruct (Nat.ltb_spec n' sz); [lia|].
      rewrite (H1 ltac:(lia)). intros _.
      destruct ((b1 <? lo)%N || (hi <? b1)%N); [reflexivity|].
      destruct (Nat.leb_spec sz 2); [reflexivity|].
      rewrite (H2 ltac:(lia)).
      destruct ((b2 <? utf8.locb)%N || (utf8.hicb <? b2)%N); [reflexivity|].
      destruct (Nat.leb_spec sz 3); [reflexivity|].
      rewrite (H3 ltac:(lia)). reflexivity.
Qed.

Lemma decode_size (s : string) :
  s <> "" -> (1 <= (utf8.DecodeRuneInString s).2 <= String.length s)%nat.
Proof.
  intros Hs. apply decodeRune_size. destruct s; [contradiction|simpl; lia].
Qed.

Lemma decode_append (a b : string) :
  a <> "" ->
  ((utf8.DecodeRuneInString (a +:+ b)).2 <= String.length a)%nat
  \/ unicode.IsSpace (utf8.DecodeRuneInString a).1 = true ->
  utf8.DecodeRuneInString a = utf8.DecodeRuneInString (a +:+ b).
Proof.
  intros Ha H. unfold utf8.DecodeRuneInString in *.
  assert (1 <= String.length a)%nat by (destruct a; [contradiction|simpl; lia]).
  rewrite (byteAt_append a b 0) in * by lia.
  apply decodeRune_stable; try exact H.
  - rewrite string_length_append. lia.
  - intros. apply byteAt_append. lia.
  - intros. apply byteAt_append. lia.
  - intros. apply byteAt_append. lia.
Qed.

(** ** The runes of a string *)

Lemma rangeFrom_skip (a t : string) : rangeFrom (String.length a) (a +:+ t) = range t.
Proof. induction a as [|c a IH]; simpl; [reflexivity|exact IH]. Qed.

(** One step of the [range] loop. *)
Lemma range_unfold (s : string) :
  s <> "" ->
  exists b t,
    s = b +:+ t /\ b <> "" /\ String.length b = (utf8.DecodeRuneInString s).2
    /\ range s = ((utf8.DecodeRuneInString s).1, b) :: range t.
Proof.
  intros Hs. pose proof (decode_size s Hs) as Hsize.
  destruct (string_split (utf8.DecodeRuneInString s).2 s ltac:(lia)) as (b & t & Hsplit & Hlen & Hb).
  exists b, t. split; [exact Hsplit|]. split; [|split; [exact Hlen|]].
  - intros ->. simpl in Hlen. lia.
  - destruct s as [|c r]; [contradiction|].
    unfold range at 1. cbn [rangeFrom]. rewrite <- Hb. f_equal.
    destruct b as [|c' b']; [simpl in Hlen; lia|].
    simpl in Hsplit. injection Hsplit as _ ->.
    simpl in Hlen. rewrite <- Hlen. simpl. rewrite Nat.sub_0_r. apply rangeFrom_skip.
Qed.

Lemma bytesOf_app (xs ys : list (N * string)) : bytesOf (xs ++ ys) = bytesOf xs +:+ bytesOf ys.
Proof.
  induction xs as [|[r b] xs IH]; simpl; [reflexivity|].
  rewrite IH, string_append_assoc. reflexivity.
Qed.

(** The runes of a string cover it. *)
Lemma bytesOf_range (s : string) : bytesOf (range s) = s.
Proof.
  remember (String.length s) as n eqn:Hn. revert s Hn.
  induction n as [n IH] using lt_wf_ind. intros s Hn.
  destruct s as [|c r] eqn:Hs; [reflexivity|]. rewrite <- Hs in *.
  destruct (range_unfold s ltac:(rewrite Hs; discriminate)) as (b & t & Hsplit & Hb & _ & Hrange).
  rewrite Hrange. simpl. rewrite (IH (String.length t)); [symmetry; exact Hsplit| |reflexivity].
  rewrite Hn, Hsplit, string_length_append.
  destruct b; [contradiction|simpl; lia].
Qed.

(** The loop starts afresh at every rune: the runes from one of them on are
    the runes of the rest of the string. *)
Lemma range_suffix (pre rest : list (N * string)) (s : string) :
  range s = pre ++ rest -> range (bytesOf rest) = rest.
Proof.
  revert s. induction pre as [|[r b] pre IH]; intros s Hrange.
  - simpl in Hrange. rewrite <- Hrange, bytesOf_range. reflexivity.
  - destruct s as [|c s'] eqn:Hs; [discriminate Hrange|]. rewrite <- Hs in *.
    destruct (range_unfold s ltac:(rewrite Hs; discriminate)) as (b0 & t & _ & _ & _ & Hstep).
    rewrite Hstep in Hrange. simpl in Hrange. injection Hrange as _ _ Hrange.
    exact (IH t Hrange).
Qed.

(** The runes of a string that stops at the end of a rune are those found
    when more follows. *)
Lemma range_prefix (cs : list (N * string)) (t : string) :
  range (bytesOf cs +:+ t) = cs ++ range t -> range (bytesOf cs) = cs.
Proof.
  revert t. induction cs as [|[r b] cs IH]; intros t Hrange; [reflexivity|].
  simpl in Hrange. rewrite string_append_assoc in Hrange.
  remember (b +:+ (bytesOf cs +:+ t)) as s eqn:Hs.
  assert (s <> "") as Hne by (intros ->; discriminate Hrange).
  destruct (range_unfold s Hne) as (b0 & t0 & Hsplit & Hb0 & Hlen0 & Hstep).
  rewrite Hstep in Hrange. injection Hrange as Hr -> Hrest.
  assert (t0 = bytesOf cs +:+ t) as ->.
  { rewrite Hs in Hsplit. apply string_append_inj in Hsplit as [_ Ht]; auto. }
  specialize (IH t Hrest).
  simpl. set (u := b +:+ bytesOf cs).
  assert (u <> "") as Hu by (subst u; destruct b; [contradiction|discriminate]).
  assert (utf8.DecodeRuneInString u = utf8.DecodeRuneInString s) as Hdecode.
  { assert (s = u +:+ t) as Hsu
      by (rewrite Hs; unfold u; rewrite string_append_assoc; reflexivity).
    rewrite Hsu. apply decode_append; [exact Hu|]. left.
    rewrite <- Hsu, <- Hlen0. unfold u. rewrite string_length_append. lia. }
  destruct (range_unfold u Hu) as (b1 & t1 & Hsplit1 & _ & Hlen1 & Hstep1).
  rewrite Hdecode, <- Hlen0 in Hlen1. rewrite Hdecode, Hr in Hstep1.
  subst u. apply string_append_inj in Hsplit1 as [-> <-]; [|symmetry; exact Hlen1].
  rewrite Hstep1, IH. reflexivity.
Qed.

(** A stretch of the runes of a string is the runes of its bytes. *)
Lemma range_segment (s : string) (pre cs post : list (N * string)) :
  range s = pre ++ cs ++ post -> range (bytesOf cs) = cs.
Proof.
  intros Hrange.
  pose proof (range_suffix pre (cs ++ post) s Hrange) as Hcs.
  rewrite app_assoc in Hrange.
  pose proof (range_suffix (pre ++ cs) post s Hrange) as Hpost.
  rewrite bytesOf_app in Hcs. apply (range_prefix cs (bytesOf post)).
  rewrite Hcs, Hpost. reflexivity.
Qed.

(** A rune has at least one byte. *)
Lemma range_bytes_nonempty (s : string) (pre post : list (N * string)) (r : N) (b : string) :
  range s = pre ++ (r, b) :: post -> b <> "".
Proof.
  intros Hrange. pose proof (range_suffix pre ((r, b) :: post) s Hrange) as Hrest.
  simpl in Hrest. remember (b +:+ bytesOf post) as u eqn:Hu.
  assert (u <> "") as Hne by (intros ->; discriminate Hrest).
  destruct (range_unfold u Hne) as (b0 & t0 & _ & Hb0 & _ & Hstep).
  rewrite Hstep in Hrest. injection Hrest as _ ->. exact Hb0.
Qed.

(** ** Fields and trimmed strings *)

Lemma fieldsOf_words (s : string) (runes pre cs : list (N * string)) :
  range s = pre ++ cs ++ runes ->
  forallb (fun c : N * string => negb (unicode.IsSpace c.1)) cs = true ->
  Forall word (fieldsOf unicode.IsSpace (bytesOf cs) runes).
Proof.
  assert (forall pre cs post,
            range s = pre ++ cs ++ post ->
            forallb (fun c : N * string => negb (unicode.IsSpace c.1)) cs = true ->
            bytesOf cs <> "" -> word (bytesOf cs)) as Hword.
  { intros pre' cs' post Hrange Hcs Hne. split; [exact Hne|].
    unfold spaceFree. rewrite (range_segment s pre' cs' post Hrange). exact Hcs. }
  revert pre cs. induction runes as [|[r b] runes IH]; intros pre cs Hrange Hcs; simpl.
  - destruct (String.eqb_spec (bytesOf cs) ""); [constructor|].
    apply List.Forall_cons; [|constructor]. eapply Hword; eauto.
  - assert (range s = (pre ++ cs ++ [(r, b)]) ++ [] ++ runes) as Hnext.
    { rewrite Hrange, <- !app_assoc. reflexivity. }
    destruct (unicode.IsSpace r) eqn:Hr.
    + destruct (String.eqb_spec (bytesOf cs) "").
      * exact (IH _ [] Hnext eq_refl).
      * apply List.Forall_cons; [eapply Hword; eauto|]. exact (IH _ [] Hnext eq_refl).
    + replace (bytesOf cs +:+ b) with (bytesOf (cs ++ [(r, b)]))
        by (rewrite bytesOf_app; simpl; rewrite string_append_nil; reflexivity).
      apply (IH pre).
      * rewrite Hrange, <- !app_assoc. reflexivity.
      * rewrite forallb_app, Hcs. simpl. rewrite Hr. reflexivity.
Qed.

(** Every field is a word: it is not empty and holds no white space. *)
Lemma Fields_words (s : string) : Forall word (Fields s).
Proof. exact (fieldsOf_words s (range s) [] [] eq_refl eq_refl). Qed.






End Runes.

Lemma lastFields_words (sortedImages : list string) : Forall word (lastFields sortedImages).
Proof.
  unfold lastFields.
  assert (forall imageIDs, Forall word imageIDs ->
            Forall word
              (fold_left
                 (fun imageIDs img =>
                    let fields := Fields img in
                    if (0 <? length fields)%nat
                    then imageIDs ++ [nth (length fields - 1) fields ""]
                    else imageIDs) sortedImages imageIDs)) as H.
  { induction sortedImages as [|img rest IH]; intros imageIDs Hacc; simpl; [exact Hacc|].
    apply IH. destruct (0 <? length (Fields img))%nat eqn:Hlen; [|exact Hacc].
    apply Nat.ltb_lt in Hlen. apply Forall_app. split; [exact Hacc|].
    apply List.Forall_cons; [|constructor].
    pose proof (Fields_words img) as Hwords. rewrite List.Forall_forall in Hwords.
    apply Hwords, nth_In. lia. }
  apply H. constructor.
Qed.

Lemma lastFields_map (sortedImages : list string) :
  lastFields sortedImages
  = map (fun img => nth (length (Fields img) - 1) (Fields img) "")
      (List.filter (fun img => (0 <? length (Fields img))%nat) sortedImages).
Proof.
  unfold lastFields.
  assert (forall imageIDs,
            fold_left
              (fun imageIDs img =>
                 let fields := Fields img in
                 if (0 <? length fields)%nat
                 then imageIDs ++ [nth (length fields - 1) fields ""]
                 else imageIDs) sortedImages imageIDs
            = imageIDs
              ++ map (fun img => nth (length (Fields img) - 1) (Fields img) "")
                   (List.filter (fun img => (0 <? length (Fields img))%nat) sortedImages))
    as H.
  { induction sortedImages as [|img rest IH]; intros imageIDs; simpl;
      [rewrite app_nil_r; reflexivity|].
    rewrite IH. destruct (0 <? length (Fields img))%nat; simpl; [|reflexivity].
    rewrite <- app_assoc. reflexivity. }
  apply (H []).
Qed.

(** The image listing: a failure of the pipeline is fatal with the
    pipeline's error; otherwise the IDs are the last fields of the lines of
    the trimmed output that have a field, in the order of the lines, and
    every ID is a word, so that no [docker rmi] is given an empty or a
    split argument.  White space is what [unicode.IsSpace] says, on the
    runes of the output. *)
Theorem image_ids_are_words (repoName : string) (st : State) :
  let r := system st (trace st) ["sh"; "-c"; imageListCommand repoName] in
  match execErr r with
  | Some e => (getDockerImageIDsSorted repoName st).1 = Stop (LogFatal e)
  | None =>
      exists ids,
        (getDockerImageIDsSorted repoName st).1 = Done ids
        /\ ids = map (fun img => nth (length (Fields img) - 1) (Fields img) "")
                   (List.filter (fun img => (0 <? length (Fields img))%nat)
                      (Split (TrimSpace (execOut r)) newline))
        /\ Forall word ids
        /\ length ids
           = length (List.filter (fun img => (0 <? length (Fields img))%nat)
                       (Split (TrimSpace (execOut r)) newline))
  end.
Proof.
  unfold getDockerImageIDsSorted. rewrite bind_run. unfold Exec. simpl.
  destruct (execErr _); [reflexivity|].
  eexists. split; [reflexivity|]. split; [apply lastFields_map|].
  split; [apply lastFields_words|apply lastFields_length].
Qed.


Example stop_then_kill_each_container :
  commandsOf (trace (stopRunningContainers (start twoContainers [] ∅)).2)
  = [["docker"; "ps"; "-q"]; ["docker"; "stop"; "abc"; "def"];
     ["docker"; "kill"; "abc"; "def"]]
  /\ (stopRunningContainers (start twoContainers [] ∅)).1 = Done tt.
Proof. vm_compute. split; reflexivity. Qed.

(** * The prompt loops *)

Lemma promptFrom_done (p : Prompt) (unread : list ScanResult) (st st' : State) :
  promptFrom p unread st = (Done tt, st') -> needs p (args st') = false.
Proof.
  revert st. induction unread as [|r unread IH]; intros st Hrun; simpl in Hrun.
  - destruct (needs p (args st)) eqn:Hneeds; [discriminate Hrun|].
    injection Hrun as <-. exact Hneeds.
  - destruct (needs p (args st)) eqn:Hneeds.
    + destruct r as [tok|stored]; [|discriminate Hrun].
      destruct (complaint p _); apply (IH _ Hrun).
    + injection Hrun as <-. exact Hneeds.
Qed.

Lemma contains_validOSChoices (os : string) :
  contains validOSChoices os = true -> os = "macOS" \/ os = "Linux".
Proof.
  unfold validOSChoices. cbn [contains]. intros H.
  destruct (String.eqb_spec "macOS" os) as [Hmac|_]; [left; symmetry; exact Hmac|].
  destruct (String.eqb_spec "Linux" os) as [Hlinux|_]; [right; symmetry; exact Hlinux|].
  discriminate H.
Qed.

(** A prompt loop that finishes has left a value that passes its check: a
    device name that is not empty, IDs that the UUID parser accepts, an
    operating system that is [macOS] or [Linux], a GPU answer that is [true]
    or [false]. *)
Theorem finished_prompts_are_valid (uuidParses : string -> bool) (st st' : State) :
  (prompt deviceNamePrompt st = (Done tt, st') -> DeviceName (args st') <> "")
  /\ (prompt (deviceIDPrompt uuidParses) st = (Done tt, st') ->
      DeviceID (args st') <> "" /\ uuidParses (DeviceID (args st')) = true)
  /\ (prompt (userIDPrompt uuidParses) st = (Done tt, st') ->
      UserID (args st') <> "" /\ uuidParses (UserID (args st')) = true)
  /\ (prompt operatingSystemPrompt st = (Done tt, st') ->
      OperatingSystem (args st') = "macOS" \/ OperatingSystem (args st') = "Linux")
  /\ (prompt useGPUsPrompt st = (Done tt, st') ->
      UseGPUs (args st') = "true" \/ UseGPUs (args st') = "false").
Proof.
  unfold prompt.
  split; [|split; [|split; [|split]]]; intros Hrun; apply promptFrom_done in Hrun;
    simpl in Hrun.
  - apply String.eqb_neq, Hrun.
  - apply orb_false_iff in Hrun as [Hempty Hrun].
    split; [apply String.eqb_neq, Hempty|apply negb_false_iff, Hrun].
  - apply orb_false_iff in Hrun as [Hempty Hrun].
    split; [apply String.eqb_neq, Hempty|apply negb_false_iff, Hrun].
  - apply orb_false_iff in Hrun as [_ Hrun]. apply negb_false_iff in Hrun.
    apply contains_validOSChoices. exact Hrun.
  - apply orb_false_iff in Hrun as [_ Hrun]. unfold notTrueOrFalse in Hrun.
    apply andb_false_iff in Hrun as [Hrun|Hrun]; apply negb_false_iff, String.eqb_eq in Hrun;
      auto.
Qed.

Example gpu_prompt_asks_again :
  (prompt useGPUsPrompt (start (machine "x86_64" "" "") [ScanOk "yes"; ScanOk "true"] ∅)).1
  = Done tt
  /\ trace (prompt useGPUsPrompt
              (start (machine "x86_64" "" "") [ScanOk "yes"; ScanOk "true"] ∅)).2
     = [EPrint gpuQuestion; EScan (ScanOk "yes");
        EPrint ("Invalid input. Please enter 'true' or 'false'." +:+ nl);
        EPrint gpuQuestion; EScan (ScanOk "true")].
Proof. vm_compute. split; reflexivity. Qed.

Lemma finished_prompts_are_valid_witness :
  let st := start (machine "x86_64" "" "") [ScanOk "yes"; ScanOk "true"] ∅ in
  prompt useGPUsPrompt st = (Done tt, (prompt useGPUsPrompt st).2)
  /\ (UseGPUs (args (prompt useGPUsPrompt st).2) = "true"
      \/ UseGPUs (args (prompt useGPUsPrompt st).2) = "false").
Proof.
  intros st.
  assert (prompt useGPUsPrompt st = (Done tt, (prompt useGPUsPrompt st).2)) as Hrun
    by (vm_compute; reflexivity).
  split; [exact Hrun|].
  exact (proj2 (proj2 (proj2 (proj2
           (finished_prompts_are_valid canonicalForm st (prompt useGPUsPrompt st).2)))) Hrun).
Defined.

(** * Failures at start-up *)

Lemma checkDocker_run (st : State) :
  checkDocker st =
  match execErr (system st (trace st) ["docker"; "info"]) with
  | Some _ =>
      (Done false,
       emit (EPrint ("Docker daemon is not running. Please start Docker and try again."
                     +:+ nl))
         (emit (EExec ["docker"; "info"]) st))
  | None => (Done true, emit (EExec ["docker"; "info"]) st)
  end.
Proof.
  unfold checkDocker. rewrite bind_run. unfold Exec. cbv beta iota.
  destruct (execErr _); reflexivity.
Qed.

(** Without a cache file that can be read and decoded, the process dies with
    the error of the read before it looks at a flag, prints anything or runs
    any command. *)
Theorem unreadable_cache_is_fatal (uuidParses : string -> bool) (fl : Flags)
  (st : State) (e : string) :
  cacheFile st = inl e ->
  main uuidParses fl st = (Stop (LogFatal e), emit ELoadCache st).
Proof.
  intros Hcache. unfold main. rewrite bind_run. unfold loadCache. rewrite Hcache.
  reflexivity.
Qed.

Lemma unreadable_cache_is_fatal_witness :
  main canonicalForm allFlagsGiven
    (mkState newArguments [] [] (machine "x86_64" "" "")
       (inl "open ionet_device_cache.txt: no such file or directory") None)
  = (Stop (LogFatal "open ionet_device_cache.txt: no such file or directory"),
     emit ELoadCache
       (mkState newArguments [] [] (machine "x86_64" "" "")
          (inl "open ionet_device_cache.txt: no such file or directory") None)).
Proof.
  apply (unreadable_cache_is_fatal canonicalForm allFlagsGiven
           (mkState newArguments [] [] (machine "x86_64" "" "")
              (inl "open ionet_device_cache.txt: no such file or directory") None)).
  reflexivity.
Defined.

(** When [docker info] fails, the process says so and exits with status 1
    right after the fallback: no container is stopped, no image is listed or
    removed, nobody is asked anything. *)
Theorem docker_down_exits_first (uuidParses : string -> bool) (fl : Flags)
  (st : State) (cache : gmap string CacheValue) (e : string) :
  cacheFile st = inr cache ->
  execErr (system st (trace st ++ [ELoadCache]) ["docker"; "info"]) = Some e ->
  main uuidParses fl st =
  (Stop (OsExit 1),
   emit (EPrint ("Docker daemon is not running. Please start Docker and try again."
                 +:+ nl))
     (emit (EExec ["docker"; "info"])
        (withArgs (fallback fl cache) (emit ELoadCache st)))).
Proof.
  intros Hcache Hdocker. unfold main.
  rewrite bind_run. unfold loadCache at 1. rewrite Hcache. cbv beta iota.
  rewrite bind_run. unfold modifyArgs at 1. cbv beta iota.
  rewrite bind_run, checkDocker_run.
  cbn [trace system withArgs emit]. rewrite Hdocker.
  rewrite bind_run. reflexivity.
Qed.

Lemma docker_down_exits_first_witness :
  main canonicalForm allFlagsGiven dockerDown =
  (Stop (OsExit 1),
   emit (EPrint ("Docker daemon is not running. Please start Docker and try again."
                 +:+ nl))
     (emit (EExec ["docker"; "info"])
        (withArgs (fallback allFlagsGiven ∅) (emit ELoadCache dockerDown)))).
Proof.
  apply (docker_down_exits_first canonicalForm allFlagsGiven dockerDown ∅ "exit status 1");
    reflexivity.
Defined.

(** * The variables of the command *)






(** * Frames *)

Section Frames.

(** A relation between trace and arguments that every plain event keeps. *)
Variable I : list Event -> Arguments -> Prop.
Hypothesis I_plain : forall tr a ev, plain ev = true -> I tr a -> I (tr ++ [ev]) a.

Local Abbreviation Here := (Holds I).
Local Abbreviation Gone := (Leaves I).

Lemma Holds_emit (ev : Event) (st : State) : plain ev = true -> Here st -> Here (emit ev st).
Proof. intros Hev H. unfold Holds. rewrite trace_emit. apply I_plain; assumption. Qed.

Lemma frame_ret {A : Type} (a : A) : triple Here (mret a) (fun _ => Here) Gone.
Proof. intros st H. exact H. Qed.

Lemma frame_getArgs : triple Here getArgs (fun _ => Here) Gone.
Proof. intros st H. exact H. Qed.

Lemma frame_stop {A : Type} (e : Exit) :
  exitOK e -> triple Here (stop e : M A) (fun _ => Here) Gone.
Proof. intros He st H. split; assumption. Qed.

Lemma frame_Print (text : string) :
  plain (EPrint text) = true -> triple Here (Print text) (fun _ => Here) Gone.
Proof. intros Hok st H. apply Holds_emit; assumption. Qed.

Lemma frame_Exec (argv : list string) :
  isLaunch argv = false -> triple Here (Exec argv) (fun _ => Here) Gone.
Proof.
  intros Hargv st H. apply Holds_emit; [|exact H]. simpl. rewrite Hargv. reflexivity.
Qed.

Ltac frame_auto :=
  repeat first
    [ triple_step
    | apply frame_ret
    | apply frame_getArgs
    | apply frame_stop; simpl; auto
    | apply frame_Exec; reflexivity
    | apply frame_Print; reflexivity ].

Lemma frame_checkDocker : triple Here checkDocker (fun _ => Here) Gone.
Proof. unfold checkDocker, Println. frame_auto. Qed.

Lemma frame_stopRunningContainers : triple Here stopRunningContainers (fun _ => Here) Gone.
Proof. unfold stopRunningContainers, Println, osExit, logFatal. frame_auto. Qed.

Lemma frame_getDockerImageIDsSorted (repoName : string) :
  triple Here (getDockerImageIDsSorted repoName) (fun _ => Here) Gone.
Proof. unfold getDockerImageIDsSorted, logFatal. frame_auto. Qed.

Lemma frame_removeDockerImage (imageID : string) :
  triple Here (removeDockerImage imageID) (fun _ => Here) Gone.
Proof. unfold removeDockerImage, logFatal. frame_auto. Qed.

Lemma frame_pruneRepo (repoName : string) :
  triple Here (pruneRepo repoName) (fun _ => Here) Gone.
Proof.
  unfold pruneRepo. eapply triple_bind; [apply frame_getDockerImageIDsSorted|].
  intros imageIDs. destruct (1 <? length imageIDs)%nat; frame_auto.
  apply triple_forRange. apply frame_removeDockerImage.
Qed.

Lemma frame_janitor : triple Here (forRange repoNames pruneRepo) (fun _ => Here) Gone.
Proof. apply triple_forRange, frame_pruneRepo. Qed.

Lemma frame_getPlatformArchitecture :
  triple Here getPlatformArchitecture (fun _ => Here) Gone.
Proof. unfold getPlatformArchitecture, logFatal. frame_auto. Qed.

Lemma frame_checkGPUAvailability : triple Here checkGPUAvailability (fun _ => Here) Gone.
Proof. unfold checkGPUAvailability, Println. frame_auto. Qed.

Lemma frame_checkNvidiaCTK : triple Here checkNvidiaCTK (fun _ => Here) Gone.
Proof. unfold checkNvidiaCTK, Println. frame_auto. Qed.

Lemma frame_getMacInfo : triple Here getMacInfo (fun _ => Here) Gone.
Proof. unfold getMacInfo. frame_auto. Qed.

Lemma frame_loadCache : triple Here loadCache (fun _ => Here) Gone.
Proof.
  intros st H. unfold loadCache.
  destruct (cacheFile st); [split; [|exact Logic.I]|]; apply Holds_emit; auto.
Qed.

(** A prompt loop, when [I] also admits reads and the stores of the loop: if
    the loop finishes, its check has passed. *)
Lemma frame_promptFrom (p : Prompt) (unread : list ScanResult) :
  plain (EPrint (question p)) = true ->
  (forall a text, complaint p a = Some text -> plain (EPrint text) = true) ->
  (forall tr a r, I tr a -> I (tr ++ [EScan r]) a) ->
  (forall tr a tok, I tr a -> I tr (store p tok a)) ->
  triple Here (promptFrom p unread)
    (fun _ st => Here st /\ needs p (args st) = false) Gone.
Proof.
  intros Hq Hc Hscan Hstore.
  assert (forall r rest st, Here st -> Here (scanned p r rest st)) as Hscanned.
  { intros r rest st H. unfold scanned, Holds. rewrite trace_emit. apply Hscan.
    destruct r as [tok|[tok|]]; simpl; [apply Hstore| apply Hstore|]; exact H. }
  induction unread as [|r unread IH]; intros st H; simpl.
  - destruct (needs p (args st)) eqn:Hneeds; [|split; [exact H|exact Hneeds]].
    split; [|exact Logic.I]. apply Hscanned, Holds_emit; assumption.
  - destruct (needs p (args st)) eqn:Hneeds; [|split; [exact H|exact Hneeds]].
    assert (Here (scanned p r unread (emit (EPrint (question p)) st))) as H'.
    { apply Hscanned, Holds_emit; assumption. }
    destruct r as [tok|stored]; [|split; [exact H'|exact Logic.I]].
    destruct (complaint p _) as [text|] eqn:Htext.
    + apply IH, Holds_emit; [eapply Hc, Htext|exact H'].
    + apply IH, H'.
Qed.

End Frames.

(** A prompt loop that is entered prints its question: from [Before], where
    the check fails, to [I], which the question establishes. *)
Lemma frame_prompt_asks (Before I : list Event -> Arguments -> Prop) (p : Prompt) :
  (forall tr a ev, plain ev = true -> I tr a -> I (tr ++ [ev]) a) ->
  (forall tr a, Before tr a -> needs p a = true) ->
  (forall tr a, Before tr a -> I (tr ++ [EPrint (question p)]) a) ->
  plain (EPrint (question p)) = true ->
  (forall a text, complaint p a = Some text -> plain (EPrint text) = true) ->
  (forall tr a r, I tr a -> I (tr ++ [EScan r]) a) ->
  (forall tr a tok, I tr a -> I tr (store p tok a)) ->
  triple (Holds Before) (prompt p)
    (fun _ st => Holds I st /\ needs p (args st) = false) (Leaves I).
Proof.
  intros Hplain Hneeds Hasked Hq Hc Hscan Hstore st H. unfold prompt.
  assert (forall r rest st0, Holds I st0 -> Holds I (scanned p r rest st0)) as Hscanned.
  { intros r rest st0 H0. unfold scanned, Holds. rewrite trace_emit. apply Hscan.
    destruct r as [tok|[tok|]]; simpl; [apply Hstore| apply Hstore|]; exact H0. }
  assert (Holds I (emit (EPrint (question p)) st)) as Hprinted.
  { unfold Holds. rewrite trace_emit. apply Hasked, H. }
  destruct (stdin st) as [|r unread]; simpl; rewrite (Hneeds _ _ H).
  - split; [|exact Logic.I]. apply Hscanned, Hprinted.
  - pose proof (Hscanned r unread _ Hprinted) as H'.
    destruct r as [tok|stored]; [|split; [exact H'|exact Logic.I]].
    destruct (complaint p _) as [text|] eqn:Htext.
    + apply (frame_promptFrom I Hplain p unread Hq Hc Hscan Hstore).
      apply Holds_emit; [exact Hplain|eapply Hc, Htext|exact H'].
    + apply (frame_promptFrom I Hplain p unread Hq Hc Hscan Hstore), H'.
Qed.

(** * The story of a run *)

Lemma triple_assume {A : Type} (P : State -> Prop) (fact : Prop) (m : M A) Q X :
  (forall st, P st -> fact) -> (fact -> triple P m Q X) -> triple P m Q X.
Proof. intros Hfact Hm st HP. exact (Hm (Hfact st HP) st HP). Qed.

Lemma plain_quiet (ev : Event) : plain ev = true -> quiet ev.
Proof.
  destruct ev as [text|r|argv| |data]; simpl; intros H; try discriminate H;
    repeat split; try reflexivity; apply negb_true_iff, H.
Qed.

Lemma clause_grows (ph : Phase) (asked : Event) (tr more : list Event) (blank valid : Prop) :
  clause ph asked tr blank valid -> clause ph asked (tr ++ more) blank valid.
Proof.
  destruct ph; simpl; [auto| |intros [H Hv]; split; [|exact Hv]];
    try intros H; apply in_or_app; left; exact H.
Qed.

Lemma gpuClause_grows (ph : Phase) (tr more : list Event) (a : Arguments) :
  gpuClause ph tr a -> gpuClause ph (tr ++ more) a.
Proof.
  destruct ph; simpl; [auto| |].
  - intros [Hos H]. split; [exact Hos|]. apply in_or_app. left. exact H.
  - intros [H|(Hos & H & Hv)]; [left; exact H|]. right.
    split; [exact Hos|]. split; [|exact Hv]. apply in_or_app. left. exact H.
Qed.

Lemma Stage_grows (uuidParses : string -> bool) (n i s o r g : Phase)
  (tr : list Event) (a : Arguments) (ev : Event) :
  quiet ev -> Stage uuidParses n i s o r g tr a -> Stage uuidParses n i s o r g (tr ++ [ev]) a.
Proof.
  intros Hev (Hq & Hb & Hn & Hi & Hs & Ho & Hr & Hg).
  repeat (split; [first [assumption | apply clause_grows; assumption
                        | apply Forall_app; split; [assumption|repeat constructor; apply Hev]]|]).
  apply gpuClause_grows, Hg.
Qed.

Lemma Stage_plain (uuidParses : string -> bool) (n i s o r g : Phase) :
  forall tr a ev, plain ev = true ->
    Stage uuidParses n i s o r g tr a -> Stage uuidParses n i s o r g (tr ++ [ev]) a.
Proof. intros tr a ev Hev. apply Stage_grows, plain_quiet, Hev. Qed.

Lemma Stage_scan (uuidParses : string -> bool) (n i s o r g : Phase) :
  forall tr a r0, Stage uuidParses n i s o r g tr a ->
    Stage uuidParses n i s o r g (tr ++ [EScan r0]) a.
Proof. intros tr a r0. apply Stage_grows. repeat split. Qed.

Lemma Stage_quiet (uuidParses : string -> bool) (n i s o r g : Phase) tr a :
  Stage uuidParses n i s o r g tr a -> Forall quiet tr.
Proof. intros H. apply H. Qed.

(** Leaving the process at a stage is an outcome of the first kind. *)
Lemma Stage_leaves (uuidParses : string -> bool) (n i s o r g : Phase) (e : Exit)
  (st : State) :
  Leaves (Stage uuidParses n i s o r g) e st -> Outcome uuidParses (Stop e) st.
Proof.
  intros [H He]. left. split; [exact (Stage_quiet _ _ _ _ _ _ _ _ _ H)|].
  exists e. split; [reflexivity|exact He].
Qed.

(** A step that every frame admits keeps the stage. *)
Lemma stage_frame (uuidParses : string -> bool) (n i s o r g : Phase) {A : Type} (m : M A) :
  (forall I, (forall tr a ev, plain ev = true -> I tr a -> I (tr ++ [ev]) a) ->
             triple (Holds I) m (fun _ => Holds I) (Leaves I)) ->
  triple (Holds (Stage uuidParses n i s o r g)) m
    (fun _ => Holds (Stage uuidParses n i s o r g))
    (fun e st => Outcome uuidParses (Stop e) st).
Proof.
  intros Hm.
  pose proof (Hm (Stage uuidParses n i s o r g) (Stage_plain uuidParses n i s o r g)) as H.
  eapply triple_weaken; [exact H|auto|auto|].
  intros e st. apply Stage_leaves.
Qed.

Lemma frame_prompt (I : list Event -> Arguments -> Prop) (p : Prompt) :
  (forall tr a ev, plain ev = true -> I tr a -> I (tr ++ [ev]) a) ->
  plain (EPrint (question p)) = true ->
  (forall a text, complaint p a = Some text -> plain (EPrint text) = true) ->
  (forall tr a r, I tr a -> I (tr ++ [EScan r]) a) ->
  (forall tr a tok, I tr a -> I tr (store p tok a)) ->
  triple (Holds I) (prompt p) (fun _ st => Holds I st /\ needs p (args st) = false) (Leaves I).
Proof.
  intros Hplain Hq Hc Hscan Hstore st H. unfold prompt.
  apply (frame_promptFrom I Hplain p (stdin st) Hq Hc Hscan Hstore st H).
Qed.

Ltac stage_facts :=
  unfold Holds, Stage, clause, nameClause, gpuClause in *;
  cbn [DeviceName DeviceID UserID OperatingSystem UseGPUs Architecture Beta
       setDeviceName setDeviceID setUserID setOperatingSystem setUseGPUs setArchitecture
       trace args withArgs emit] in *;
  first [tauto | intuition congruence].

Ltac plain_complaint :=
  let H := fresh in
  intros ? ? H; simpl in H;
  match type of H with
  | (if ?c then _ else _) = Some _ => destruct c; [|discriminate H]
  end;
  injection H as <-; reflexivity.

Lemma Fresh_plain : forall tr a ev, plain ev = true -> Fresh tr a -> Fresh (tr ++ [ev]) a.
Proof.
  intros tr a ev Hev H. apply Forall_app. split; [exact H|].
  repeat constructor; apply plain_quiet, Hev.
Qed.

Lemma stage_loadCache (uuidParses : string -> bool) :
  triple (Holds Fresh) loadCache (fun _ => Holds Fresh)
    (fun e st => Outcome uuidParses (Stop e) st).
Proof.
  eapply triple_weaken; [apply (frame_loadCache Fresh Fresh_plain)|auto|auto|].
  intros e st [H He]. left. split; [exact H|]. exists e. auto.
Qed.

Lemma stage_fallback (uuidParses : string -> bool) (fl : Flags)
  (cache : gmap string CacheValue) :
  triple (Holds Fresh) (modifyArgs (fun _ => fallback fl cache))
    (fun _ => Holds (Stage uuidParses Untouched Untouched Untouched Untouched Untouched
                       Untouched))
    (fun e st => Outcome uuidParses (Stop e) st).
Proof.
  intros st H. unfold Holds, modifyArgs. simpl.
  destruct (fallback_only_writes_DeviceName fl cache) as (H1 & H2 & H3 & H4 & H5 & H6).
  unfold Stage, clause, nameClause, gpuClause. unfold Holds, Fresh in H. tauto.
Qed.

Lemma stage_deviceName (uuidParses : string -> bool) :
  triple
    (Holds (Stage uuidParses Untouched Untouched Untouched Untouched Untouched Untouched))
    (prompt deviceNamePrompt)
    (fun _ => Holds (Stage uuidParses Settled Untouched Untouched Untouched Untouched
                       Untouched))
    (fun e st => Outcome uuidParses (Stop e) st).
Proof.
  eapply triple_weaken.
  - apply (frame_prompt
             (Stage uuidParses Untouched Untouched Untouched Untouched Untouched Untouched));
      [apply Stage_plain|reflexivity|plain_complaint|apply Stage_scan|].
    intros tr a tok H. stage_facts.
  - auto.
  - intros [] st [H Hneeds]. simpl in Hneeds. apply String.eqb_neq in Hneeds. stage_facts.
  - intros e st. apply Stage_leaves.
Qed.

Lemma stage_deviceID (uuidParses : string -> bool) :
  triple
    (Holds (Stage uuidParses Settled Untouched Untouched Untouched Untouched Untouched))
    (prompt (deviceIDPrompt uuidParses))
    (fun _ => Holds (Stage uuidParses Settled Settled Untouched Untouched Untouched
                       Untouched))
    (fun e st => Outcome uuidParses (Stop e) st).
Proof.
  eapply triple_weaken.
  - apply (frame_prompt_asks
             (Stage uuidParses Settled Untouched Untouched Untouched Untouched Untouched)
             (Stage uuidParses Settled Asking Untouched Untouched Untouched Untouched));
      [apply Stage_plain| | |reflexivity|plain_complaint|apply Stage_scan|].
    + intros tr a H. simpl. replace (DeviceID a) with "" by (symmetry; stage_facts).
      reflexivity.
    + intros tr a H.
      assert (In (EPrint idQuestion) (tr ++ [EPrint idQuestion])) as Hin.
      { apply in_or_app. right. left. reflexivity. }
      apply (Stage_grows _ _ _ _ _ _ _ _ _ (EPrint idQuestion)) in H; [|repeat split].
      stage_facts.
    + intros tr a tok H. stage_facts.
  - auto.
  - intros [] st [H Hneeds]. simpl in Hneeds.
    apply orb_false_iff in Hneeds as [_ Hneeds]. apply negb_false_iff in Hneeds.
    unfold isValidUUID in Hneeds. stage_facts.
  - intros e st. apply Stage_leaves.
Qed.

Lemma stage_userID (uuidParses : string -> bool) :
  triple
    (Holds (Stage uuidParses Settled Settled Untouched Untouched Untouched Untouched))
    (prompt (userIDPrompt uuidParses))
    (fun _ => Holds (Stage uuidParses Settled Settled Settled Untouched Untouched
                       Untouched))
    (fun e st => Outcome uuidParses (Stop e) st).
Proof.
  eapply triple_weaken.
  - apply (frame_prompt_asks
             (Stage uuidParses Settled Settled Untouched Untouched Untouched Untouched)
             (Stage uuidParses Settled Settled Asking Untouched Untouched Untouched));
      [apply Stage_plain| | |reflexivity|plain_complaint|apply Stage_scan|].
    + intros tr a H. simpl. replace (UserID a) with "" by (symmetry; stage_facts).
      reflexivity.
    + intros tr a H.
      assert (In (EPrint userQuestion) (tr ++ [EPrint userQuestion])) as Hin.
      { apply in_or_app. right. left. reflexivity. }
      apply (Stage_grows _ _ _ _ _ _ _ _ _ (EPrint userQuestion)) in H; [|repeat split].
      stage_facts.
    + intros tr a tok H. stage_facts.
  - auto.
  - intros [] st [H Hneeds]. simpl in Hneeds.
    apply orb_false_iff in Hneeds as [_ Hneeds]. apply negb_false_iff in Hneeds.
    unfold isValidUUID in Hneeds. stage_facts.
  - intros e st. apply Stage_leaves.
Qed.

Lemma stage_operatingSystem (uuidParses : string -> bool) :
  triple
    (Holds (Stage uuidParses Settled Settled Settled Untouched Untouched Untouched))
    (prompt operatingSystemPrompt)
    (fun _ => Holds (Stage uuidParses Settled Settled Settled Settled Untouched
                       Untouched))
    (fun e st => Outcome uuidParses (Stop e) st).
Proof.
  eapply triple_weaken.
  - apply (frame_prompt_asks
             (Stage uuidParses Settled Settled Settled Untouched Untouched Untouched)
             (Stage uuidParses Settled Settled Settled Asking Untouched Untouched));
      [apply Stage_plain| | |reflexivity|plain_complaint|apply Stage_scan|].
    + intros tr a H. simpl. replace (OperatingSystem a) with "" by (symmetry; stage_facts).
      reflexivity.
    + intros tr a H.
      assert (In (EPrint osQuestion) (tr ++ [EPrint osQuestion])) as Hin.
      { apply in_or_app. right. left. reflexivity. }
      apply (Stage_grows _ _ _ _ _ _ _ _ _ (EPrint osQuestion)) in H; [|repeat split].
      stage_facts.
    + intros tr a tok H. stage_facts.
  - auto.
  - intros [] st [H Hneeds].
    assert (contains validOSChoices (OperatingSystem (args st)) = true) as Hos.
    { simpl in Hneeds. apply orb_false_iff in Hneeds as [_ Hneeds].
      apply negb_false_iff in Hneeds. exact Hneeds. }
    clear Hneeds. unfold Holds, Stage, clause, nameClause, gpuClause in *. tauto.
  - intros e st. apply Stage_leaves.
Qed.

Lemma triple_stop {A : Type} (P : State -> Prop) (e : Exit) (Q : A -> State -> Prop) X :
  (forall st, P st -> X e st) -> triple P (stop e) Q X.
Proof. intros H st HP. apply H, HP. Qed.

Lemma getPlatformArchitecture_run (st : State) :
  getPlatformArchitecture st =
  match execErr (system st (trace st) ["uname"; "-m"]) with
  | Some _ =>
      (Stop (LogFatal "Unable to determine platform architecture"), emit unameProbe st)
  | None => (Done (TrimSpace (execOut (system st (trace st) ["uname"; "-m"]))),
             emit unameProbe st)
  end.
Proof.
  unfold getPlatformArchitecture. rewrite bind_run. unfold Exec. cbv beta iota.
  destruct (execErr _); reflexivity.
Qed.

Lemma stage_resolveArchitecture (uuidParses : string -> bool) :
  triple
    (Holds (Stage uuidParses Settled Settled Settled Settled Untouched Untouched))
    resolveArchitecture
    (fun _ => Holds (Stage uuidParses Settled Settled Settled Settled Asking Untouched))
    (fun e st => Outcome uuidParses (Stop e) st).
Proof.
  intros st H. unfold resolveArchitecture. rewrite bind_run. unfold getArgs. cbv beta iota.
  assert (contains validOSChoices (OperatingSystem (args st)) = true) as Hos
    by stage_facts.
  assert (Architecture (args st) = "") as Harch by stage_facts.
  destruct (String.eqb (OperatingSystem (args st)) "Windows") eqn:Hwin.
  { apply String.eqb_eq in Hwin. rewrite Hwin in Hos. discriminate Hos. }
  rewrite Harch. cbn [String.eqb]. rewrite bind_run, getPlatformArchitecture_run.
  assert (Stage uuidParses Settled Settled Settled Settled Untouched Untouched
            (trace st ++ [unameProbe]) (args st)) as Hgrown.
  { apply Stage_grows; [repeat split|exact H]. }
  assert (In unameProbe (trace st ++ [unameProbe])) as Hin.
  { apply in_or_app. right. left. reflexivity. }
  destruct (execErr _).
  - left. split; [exact (Stage_quiet _ _ _ _ _ _ _ _ _ Hgrown)|].
    eexists. split; [reflexivity|exact I].
  - unfold modifyArgs, Holds. cbn [trace args withArgs emit].
    generalize dependent (trace st ++ [unameProbe]). intros tr Hgrown Hin.
    clear H Hos Harch. stage_facts.
Qed.

Lemma stage_resolveUseGPUs (uuidParses : string -> bool) :
  triple
    (Holds (Stage uuidParses Settled Settled Settled Settled Asking Untouched))
    resolveUseGPUs
    (fun _ => Holds (Stage uuidParses Settled Settled Settled Settled Asking Settled))
    (fun e st => Outcome uuidParses (Stop e) st).
Proof.
  intros st H.
  destruct (String.eqb (OperatingSystem (args st)) "macOS") eqn:Hos.
  - apply String.eqb_eq in Hos. rewrite (resolveUseGPUs_macOS st Hos).
    unfold Holds. rewrite trace_emit. cbn [trace args withArgs emit].
    apply (Stage_grows _ _ _ _ _ _ _ _ _ (EPrint (macNote +:+ nl))) in H; [|repeat split].
    generalize dependent (trace st ++ [EPrint (macNote +:+ nl)]). intros tr H.
    stage_facts.
  - assert (UseGPUs (args st) = "") as Hgpus by stage_facts.
    unfold resolveUseGPUs. rewrite bind_run. unfold getArgs. cbv beta iota.
    rewrite Hos, Hgpus. cbn [String.eqb].
    apply String.eqb_neq in Hos.
    pose proof
      (frame_prompt_asks
         (fun tr a => Stage uuidParses Settled Settled Settled Settled Asking Untouched tr a
                      /\ OperatingSystem a <> "macOS")
         (Stage uuidParses Settled Settled Settled Settled Asking Asking)
         useGPUsPrompt) as Hprompt.
    assert (triple
              (Holds (fun tr a =>
                        Stage uuidParses Settled Settled Settled Settled Asking Untouched tr a
                        /\ OperatingSystem a <> "macOS"))
              (prompt useGPUsPrompt)
              (fun _ st0 =>
                 Holds (Stage uuidParses Settled Settled Settled Settled Asking Asking) st0
                 /\ needs useGPUsPrompt (args st0) = false)
              (Leaves (Stage uuidParses Settled Settled Settled Settled Asking Asking)))
      as Hloop.
    { apply Hprompt; [apply Stage_plain| | |reflexivity|plain_complaint|apply Stage_scan|].
      - intros tr a [H0 _]. simpl.
        replace (UseGPUs a) with "" by (symmetry; stage_facts). reflexivity.
      - intros tr a [H0 Hne].
        assert (In (EPrint gpuQuestion) (tr ++ [EPrint gpuQuestion])) as Hin.
        { apply in_or_app. right. left. reflexivity. }
        apply (Stage_grows _ _ _ _ _ _ _ _ _ (EPrint gpuQuestion)) in H0; [|repeat split].
        stage_facts.
      - intros tr a tok H0. stage_facts. }
    specialize (Hloop st (conj H Hos)).
    destruct (prompt useGPUsPrompt st) as [[[]|e] st'].
    + destruct Hloop as [H' Hneeds]. simpl in Hneeds.
      apply orb_false_iff in Hneeds as [_ Hneeds]. unfold notTrueOrFalse in Hneeds.
      assert (UseGPUs (args st') = "true" \/ UseGPUs (args st') = "false") as Hvalue.
      { apply andb_false_iff in Hneeds as [Hv|Hv];
          apply negb_false_iff, String.eqb_eq in Hv; auto. }
      clear Hneeds. unfold Holds, Stage, clause, nameClause, gpuClause in *. tauto.
    + apply (Stage_leaves _ _ _ _ _ _ _ _ _ Hloop).
Qed.

Lemma leaves_weaken (uuidParses : string -> bool) (I : list Event -> Arguments -> Prop)
  {A : Type} (m : M A) :
  (forall tr a, I tr a -> Forall quiet tr) ->
  triple (Holds I) m (fun _ => Holds I) (Leaves I) ->
  triple (Holds I) m (fun _ => Holds I) (fun e st => Outcome uuidParses (Stop e) st).
Proof.
  intros Hquiet Hm. eapply triple_weaken; [exact Hm|auto|auto|].
  intros e st [H He]. left. split; [exact (Hquiet _ _ H)|]. exists e. auto.
Qed.

Ltac frames HI :=
  repeat first
    [ triple_step
    | apply frame_ret
    | apply frame_getArgs
    | apply frame_stop; simpl; auto
    | apply (frame_checkGPUAvailability _ HI)
    | apply (frame_checkNvidiaCTK _ HI)
    | apply (frame_checkDocker _ HI)
    | apply (frame_getMacInfo _ HI)
    | apply (frame_Print _ HI); reflexivity
    | apply (frame_Exec _ HI); reflexivity ].

Lemma stage_finalChecks (uuidParses : string -> bool) :
  triple
    (Holds (Stage uuidParses Settled Settled Settled Settled Asking Settled))
    finalChecks
    (fun _ => Holds (Stage uuidParses Settled Settled Settled Settled Settled Settled))
    (fun e st => Outcome uuidParses (Stop e) st).
Proof.
  unfold finalChecks, osExit, Println.
  eapply triple_bind with
    (R := fun a => Holds (fun tr a0 =>
                            Stage uuidParses Settled Settled Settled Settled Asking Settled
                              tr a0 /\ a0 = a)).
  { intros st H. split; [exact H|reflexivity]. }
  intros a.
  set (Ia := fun tr a0 =>
               Stage uuidParses Settled Settled Settled Settled Asking Settled tr a0
               /\ a0 = a).
  assert (forall tr a0 ev, plain ev = true -> Ia tr a0 -> Ia (tr ++ [ev]) a0) as HIa.
  { intros tr a0 ev Hev [H Heq]. split; [apply Stage_plain; assumption|exact Heq]. }
  assert (forall tr a0, Ia tr a0 -> Forall quiet tr) as Hquiet.
  { intros tr a0 [H _]. exact (Stage_quiet _ _ _ _ _ _ _ _ _ H). }
  apply triple_assume with (fact := contains validOSChoices (OperatingSystem a) = true).
  { intros st [H Heq]. rewrite <- Heq. stage_facts. }
  intros Hos. rewrite Hos. cbn [negb].
  eapply triple_bind; [apply (leaves_weaken uuidParses); [exact Hquiet|frames HIa]|intros ?].
  eapply triple_bind;
    [apply (leaves_weaken uuidParses); [exact Hquiet|apply (frame_checkDocker _ HIa)]|intros docker].
  eapply triple_bind; [apply (leaves_weaken uuidParses); [exact Hquiet|frames HIa]|intros ?].
  eapply triple_bind; [apply (leaves_weaken uuidParses); [exact Hquiet|frames HIa]|intros ?].
  eapply triple_bind with
    (R := fun _ st => Holds Ia st /\ contains validArchChoices (Architecture a) = true).
  { destruct (contains validArchChoices (Architecture a)) eqn:Harch; cbn [negb].
    - intros st H. split; [exact H|reflexivity].
    - eapply triple_bind;
        [apply (leaves_weaken uuidParses); [exact Hquiet|apply (frame_Print _ HIa); reflexivity]|].
      intros ?. apply triple_stop. intros st H. left.
      split; [exact (Hquiet _ _ H)|]. eexists. split; reflexivity. }
  intros ?.
  apply triple_assume with (fact := contains validArchChoices (Architecture a) = true).
  { intros st [_ H]. exact H. }
  intros Harch.
  eapply triple_weaken.
  - apply (leaves_weaken uuidParses); [exact Hquiet|frames HIa].
  - intros st [H _]. exact H.
  - intros ? st [H Heq]. subst a. stage_facts.
  - intros e st H. exact H.
Qed.

Lemma launch_tail (st : State) :
  args (launch st).2 = args st
  /\ exists tail,
       trace (launch st).2 = trace st ++ tail
       /\ launchTail (args st) tail (launch st).1.
Proof.
  rewrite launch_run, constructDockerCommand_run.
  destruct (String.eqb (OperatingSystem (args st)) "macOS") eqn:Hos.
  - apply String.eqb_eq in Hos. destruct (execErr (macInfoAnswer st)) as [e|].
    + split; [reflexivity|]. exists [sysctlPipeline]. split; [reflexivity|].
      left. split; [exact Hos|]. split; [reflexivity|]. exists e. reflexivity.
    + set (cmd := headTokens _ _ ++ _).
      assert (builtFor (args st) cmd) as Hbuilt.
      { exists (macTokens (execOut (macInfoAnswer st))). split; [reflexivity|].
        left. split; [exact Hos|]. eexists. reflexivity. }
      destruct (execErr _) as [e|]; (split; [reflexivity|]);
        exists [sysctlPipeline; EExec cmd];
        (split; [cbn [trace emit snd]; rewrite <- app_assoc; reflexivity|]);
        right; exists cmd; (split; [exact Hbuilt|]); (split; [|left; split; [exact Hos|reflexivity]]).
      * right. exists e. reflexivity.
      * left. reflexivity.
  - apply String.eqb_neq in Hos.
    set (cmd := headTokens _ _ ++ _).
    assert (builtFor (args st) cmd) as Hbuilt.
    { exists []. split; [reflexivity|]. right. split; [exact Hos|reflexivity]. }
    destruct (execErr _) as [e|]; (split; [reflexivity|]);
      exists [EExec cmd]; (split; [reflexivity|]);
      right; exists cmd; (split; [exact Hbuilt|]); (split; [|right; split; [exact Hos|reflexivity]]).
    + right. exists e. reflexivity.
    + left. reflexivity.
Qed.

Lemma stage_save_and_launch (uuidParses : string -> bool) :
  triple
    (Holds (Stage uuidParses Settled Settled Settled Settled Settled Settled))
    (args ← getArgs; saveCache (cacheData args) ;; launch)
    (fun x st => Outcome uuidParses (Done x) st)
    (fun e st => Outcome uuidParses (Stop e) st).
Proof.
  intros st H. rewrite bind_run. unfold getArgs. cbv beta iota.
  rewrite bind_run. unfold saveCache.
  destruct (cacheWriteErr st) as [e|].
  { left. split; [exact (Stage_quiet _ _ _ _ _ _ _ _ _ H)|]. exists (LogFatal e).
    split; [reflexivity|exact I]. }
  set (saved := emit (ESaveCache (cacheData (args st))) st).
  destruct (launch_tail saved) as (Hargs & tail & Htrace & Htail).
  assert (forall r, r = (launch saved).1 -> Outcome uuidParses r (launch saved).2) as Hout.
  { intros r ->. right. exists (trace st), tail. rewrite Hargs, Htrace.
    split; [unfold saved; rewrite trace_emit, <- app_assoc; reflexivity|].
    split; [exact H|exact Htail]. }
  specialize (Hout _ eq_refl).
  destruct (launch saved) as [[[]|e] st']; exact Hout.
Qed.

(** Every run of [main] is of one of the two kinds of [Outcome]. *)
Lemma main_story (uuidParses : string -> bool) (fl : Flags) :
  triple (Holds Fresh) (main uuidParses fl)
    (fun x st => Outcome uuidParses (Done x) st)
    (fun e st => Outcome uuidParses (Stop e) st).
Proof.
  unfold main.
  eapply triple_bind; [apply stage_loadCache|intros cache].
  eapply triple_bind; [apply stage_fallback|intros ?].
  eapply triple_bind;
    [apply (stage_frame uuidParses); intros I HI; apply (frame_checkDocker I HI)
    |intros docker].
  eapply triple_bind;
    [apply (stage_frame uuidParses); intros I HI; unfold osExit;
     destruct (negb docker); [apply frame_stop; reflexivity|apply frame_ret]
    |intros ?].
  eapply triple_bind;
    [apply (stage_frame uuidParses); intros I HI; apply (frame_stopRunningContainers I HI)
    |intros ?].
  eapply triple_bind;
    [apply (stage_frame uuidParses); intros I HI; apply (frame_janitor I HI)
    |intros ?].
  eapply triple_bind; [apply stage_deviceName|intros ?].
  eapply triple_bind; [apply stage_deviceID|intros ?].
  eapply triple_bind; [apply stage_userID|intros ?].
  eapply triple_bind; [apply stage_operatingSystem|intros ?].
  eapply triple_bind; [apply stage_resolveArchitecture|intros ?].
  eapply triple_bind; [apply stage_resolveUseGPUs|intros ?].
  eapply triple_bind; [apply stage_finalChecks|intros ?].
  apply stage_save_and_launch.
Qed.

Lemma story_of_run (uuidParses : string -> bool) (fl : Flags) (st : State) :
  trace st = [] ->
  Outcome uuidParses (main uuidParses fl st).1 (main uuidParses fl st).2.
Proof.
  intros Hstart.
  assert (Holds Fresh st) as H.
  { unfold Holds, Fresh. rewrite Hstart. constructor. }
  pose proof (main_story uuidParses fl st H) as Hmain.
  destruct (main uuidParses fl st) as [[[]|e] st']; exact Hmain.
Qed.

(** One marked event among unmarked ones has one place. *)
Lemma unique_marked (marked : Event -> bool) (pre tail before after : list Event)
  (x y : Event) :
  Forall (fun ev => marked ev = false) pre ->
  Forall (fun ev => marked ev = false) tail ->
  marked x = true -> marked y = true ->
  pre ++ x :: tail = before ++ y :: after ->
  before = pre /\ y = x /\ after = tail.
Proof.
  revert before. induction pre as [|ev pre IH]; intros before Hpre Htail Hx Hy Heq.
  - destruct before as [|b before]; simpl in Heq.
    + injection Heq as -> ->. auto.
    + injection Heq as <- Heq. exfalso.
      rewrite List.Forall_forall in Htail.
      assert (marked y = false) as Hno.
      { apply Htail. rewrite Heq. apply in_or_app. right. left. reflexivity. }
      congruence.
  - apply List.Forall_cons_iff in Hpre as [Hev Hpre].
    destruct before as [|b before]; simpl in Heq.
    + injection Heq as -> _. congruence.
    + injection Heq as <- Heq.
      destruct (IH before Hpre Htail Hx Hy Heq) as (-> & -> & ->). auto.
Qed.

Lemma Stage_Validated (uuidParses : string -> bool) (tr : list Event) (a : Arguments) :
  Stage uuidParses Settled Settled Settled Settled Settled Settled tr a ->
  Validated uuidParses a.
Proof.
  intros (_ & Hbeta & Hname & [_ Hid] & [_ Huser] & [_ Hos] & [_ Harch] & Hgpu).
  simpl in Hname, Hgpu.
  unfold Validated. repeat split; try assumption.
  - apply contains_validOSChoices, Hos.
  - destruct Hgpu as [[_ ->]|(_ & _ & Hv)]; auto.
  - intros Hmac. destruct Hgpu as [[_ Hv]|(Hne & _)]; [exact Hv|contradiction].
Qed.

Lemma launchTail_execs (a : Arguments) (tail : list Event) (r : Result unit) :
  launchTail a tail r -> Forall (fun ev => exists argv, ev = EExec argv) tail.
Proof.
  intros [(_ & -> & _)|(cmd & _ & _ & [[_ ->]|[_ ->]])];
    repeat constructor; eexists; reflexivity.
Qed.

Lemma launchTail_unsaved (a : Arguments) (tail : list Event) (r : Result unit) :
  launchTail a tail r -> Forall (fun ev => isSave ev = false) tail.
Proof.
  intros H. eapply Forall_impl; [exact (launchTail_execs _ _ _ H)|].
  intros ev (argv & ->). reflexivity.
Qed.

Lemma quiet_unsaved (tr : list Event) :
  Forall quiet tr -> Forall (fun ev => isSave ev = false) tr.
Proof. intros H. eapply Forall_impl; [exact H|]. intros ev Hev. apply Hev. Qed.

(** The cache is written at most once in a run, and what is written is the
    cache of the arguments with which the run ends; these passed every check:
    a device name, two IDs that parse, an operating system and an
    architecture of the lists, a GPU answer that is [true] or [false] and
    [false] on macOS. *)
Theorem saved_cache_is_validated (uuidParses : string -> bool) (fl : Flags) (st : State)
  (before after : list Event) (data : gmap string CacheValue) :
  trace st = [] ->
  trace (main uuidParses fl st).2 = before ++ ESaveCache data :: after ->
  data = cacheData (args (main uuidParses fl st).2)
  /\ Validated uuidParses (args (main uuidParses fl st).2)
  /\ Forall (fun ev => isSave ev = false) (before ++ after).
Proof.
  intros Hstart Htrace.
  destruct (story_of_run uuidParses fl st Hstart)
    as [[Hquiet _]|(pre & tail & Heq & Hstage & Htail)].
  - exfalso. rewrite Htrace in Hquiet. apply Forall_app in Hquiet as [_ Hquiet].
    apply List.Forall_cons_iff in Hquiet as [[Hsave _] _]. discriminate Hsave.
  - rewrite Heq in Htrace.
    pose proof (quiet_unsaved _ (Stage_quiet _ _ _ _ _ _ _ _ _ Hstage)) as Hpre.
    pose proof (launchTail_unsaved _ _ _ Htail) as Hpost.
    destruct (unique_marked isSave pre tail before after
                (ESaveCache (cacheData (args (main uuidParses fl st).2)))
                (ESaveCache data) Hpre Hpost eq_refl eq_refl Htrace)
      as (-> & Hdata & ->).
    injection Hdata as ->.
    split; [reflexivity|]. split; [exact (Stage_Validated _ _ _ Hstage)|].
    apply Forall_app. split; assumption.
Qed.

Lemma saved_cache_is_validated_witness :
  let final := (main canonicalForm betaFlags linuxRun).2 in
  cacheData (mkArguments "<nil>" sampleUUID sampleUUID "Linux" "false" "x86_64" false)
  = cacheData (args final)
  /\ Validated canonicalForm (args final)
  /\ Forall (fun ev => isSave ev = false)
       (removelast (removelast (trace final)) ++ [List.last (trace final) ELoadCache]).
Proof.
  apply (saved_cache_is_validated canonicalForm betaFlags linuxRun
           (removelast (removelast (trace (main canonicalForm betaFlags linuxRun).2)))
           [List.last (trace (main canonicalForm betaFlags linuxRun).2) ELoadCache]
           (cacheData
              (mkArguments "<nil>" sampleUUID sampleUUID "Linux" "false" "x86_64" false)));
    vm_compute; reflexivity.
Defined.

Lemma builtFor_isLaunch (a : Arguments) (cmd : list string) :
  builtFor a cmd -> isLaunch cmd = true.
Proof. intros (middle & -> & _). reflexivity. Qed.

Lemma quiet_unlaunched (tr : list Event) :
  Forall quiet tr -> Forall (fun ev => isLaunchEvent ev = false) tr.
Proof. intros H. eapply Forall_impl; [exact H|]. intros ev Hev. apply Hev. Qed.

(** The shape of the trace of a run that went through [launch] and got a
    command from the builder. *)
Lemma launched_shape (a : Arguments) (pre tail : list Event) (r : Result unit)
  (before after : list Event) (argv : list string) :
  Forall quiet pre -> launchTail a tail r ->
  pre ++ ESaveCache (cacheData a) :: tail = before ++ EExec argv :: after ->
  isLaunch argv = true ->
  after = [] /\ In (ESaveCache (cacheData a)) before /\ builtFor a argv.
Proof.
  intros Hpre Htail Heq Hlaunch.
  assert (forall front cmd,
            tail = front ++ [EExec cmd] ->
            Forall (fun ev => isLaunchEvent ev = false) front ->
            builtFor a cmd ->
            after = [] /\ In (ESaveCache (cacheData a)) before /\ builtFor a argv) as Hlast.
  { intros front cmd -> Hfront Hbuilt.
    assert ((pre ++ ESaveCache (cacheData a) :: front) ++ EExec cmd :: []
            = before ++ EExec argv :: after) as Heq'.
    { rewrite <- Heq, <- app_assoc. reflexivity. }
    apply (unique_marked isLaunchEvent) in Heq' as (-> & Hargv & ->).
    - injection Hargv as ->. split; [reflexivity|]. split; [|exact Hbuilt].
      apply in_or_app. right. left. reflexivity.
    - apply Forall_app. split; [apply quiet_unlaunched, Hpre|].
      apply List.Forall_cons; [reflexivity|exact Hfront].
    - constructor.
    - simpl. apply (builtFor_isLaunch a), Hbuilt.
    - exact Hlaunch. }
  destruct Htail as [(_ & -> & _)|(cmd & Hbuilt & _ & [[_ ->]|[_ ->]])].
  - exfalso.
    assert (In (EExec argv) (pre ++ [ESaveCache (cacheData a); sysctlPipeline])) as Hin.
    { change (pre ++ [ESaveCache (cacheData a); sysctlPipeline])
        with (pre ++ ESaveCache (cacheData a) :: [sysctlPipeline]).
      rewrite Heq. apply in_or_app. right. left. reflexivity. }
    apply in_app_or in Hin as [Hin|[Hin|[Hin|[]]]].
    + apply quiet_unlaunched in Hpre. rewrite List.Forall_forall in Hpre.
      specialize (Hpre _ Hin). simpl in Hpre. congruence.
    + discriminate Hin.
    + injection Hin as <-. discriminate Hlaunch.
  - apply (Hlast [sysctlPipeline] cmd); [reflexivity|repeat constructor|exact Hbuilt].
  - apply (Hlast [] cmd); [reflexivity|constructor|exact Hbuilt].
Qed.

(** The launch is the last thing a run does, it comes after the cache was
    saved, and its command is the one that the builder makes of the
    arguments with which the run ends, which passed every check. *)
Theorem launch_follows_save (uuidParses : string -> bool) (fl : Flags) (st : State)
  (before after : list Event) (argv : list string) :
  trace st = [] ->
  trace (main uuidParses fl st).2 = before ++ EExec argv :: after ->
  isLaunch argv = true ->
  after = []
  /\ In (ESaveCache (cacheData (args (main uuidParses fl st).2))) before
  /\ builtFor (args (main uuidParses fl st).2) argv
  /\ Validated uuidParses (args (main uuidParses fl st).2).
Proof.
  intros Hstart Htrace Hlaunch.
  destruct (story_of_run uuidParses fl st Hstart)
    as [[Hquiet _]|(pre & tail & Heq & Hstage & Htail)].
  - exfalso. rewrite Htrace in Hquiet. apply Forall_app in Hquiet as [_ Hquiet].
    apply List.Forall_cons_iff in Hquiet as [(_ & Hno & _) _]. simpl in Hno. congruence.
  - rewrite Heq in Htrace.
    destruct (launched_shape _ _ _ _ _ _ _ (Stage_quiet _ _ _ _ _ _ _ _ _ Hstage)
                Htail Htrace Hlaunch) as (Hafter & Hsaved & Hbuilt).
    split; [exact Hafter|]. split; [exact Hsaved|]. split; [exact Hbuilt|].
    exact (Stage_Validated _ _ _ Hstage).
Qed.

Lemma launch_follows_save_witness :
  let final := (main canonicalForm betaFlags linuxRun).2 in
  @nil Event = []
  /\ In (ESaveCache (cacheData (args final))) (removelast (trace final))
  /\ builtFor (args final)
       ["docker"; "run"; "-d"; "-v"; "/var/run/docker.sock:/var/run/docker.sock";
        "--network"; "host"; "-e"; "ARCH=x86_64";
        "-e"; "DEVICE_NAME=<nil>"; "-e"; "DEVICE_ID=" +:+ sampleUUID;
        "-e"; "USER_ID=" +:+ sampleUUID; "-e"; "OPERATING_SYSTEM=Linux";
        "-e"; "USEGPUS=false"; "ionetcontainers/io-launch:v0.1"]
  /\ Validated canonicalForm (args final).
Proof.
  apply (launch_follows_save canonicalForm betaFlags linuxRun
           (removelast (trace (main canonicalForm betaFlags linuxRun).2)) []);
    vm_compute; reflexivity.
Defined.

(** A run that reaches the end of [main] (the result [Done tt]: it left
    through no prompt loop's [return], no [os.Exit] and no [log.Fatal]) has
    run the launch command as its last action. *)
Theorem normal_return_means_launched (uuidParses : string -> bool) (fl : Flags)
  (st : State) :
  trace st = [] ->
  (main uuidParses fl st).1 = Done tt ->
  exists before cmd,
    trace (main uuidParses fl st).2 = before ++ [EExec cmd]
    /\ isLaunch cmd = true
    /\ builtFor (args (main uuidParses fl st).2) cmd.
Proof.
  intros Hstart Hdone.
  destruct (story_of_run uuidParses fl st Hstart)
    as [[_ (e & He & _)]|(pre & tail & Heq & Hstage & Htail)].
  - rewrite Hdone in He. discriminate He.
  - rewrite Hdone in Htail.
    destruct Htail as [(_ & _ & e & He)|(cmd & Hbuilt & _ & [[_ ->]|[_ ->]])];
      [discriminate He| |].
    + exists (pre ++ [ESaveCache (cacheData (args (main uuidParses fl st).2));
                      sysctlPipeline]), cmd.
      rewrite Heq, <- app_assoc. repeat split; [|exact Hbuilt].
      apply (builtFor_isLaunch _ _ Hbuilt).
    + exists (pre ++ [ESaveCache (cacheData (args (main uuidParses fl st).2))]), cmd.
      rewrite Heq, <- app_assoc. repeat split; [|exact Hbuilt].
      apply (builtFor_isLaunch _ _ Hbuilt).
Qed.

Lemma normal_return_means_launched_witness :
  exists before cmd,
    trace (main canonicalForm betaFlags linuxRun).2 = before ++ [EExec cmd]
    /\ isLaunch cmd = true
    /\ builtFor (args (main canonicalForm betaFlags linuxRun).2) cmd.
Proof.
  apply (normal_return_means_launched canonicalForm betaFlags linuxRun);
    vm_compute; reflexivity.
Defined.

(** The check of lines 351-354 never fires: no run prints the message
    [Error: Invalid operating system choice], because the operating-system
    loop only lets [macOS] and [Linux] through. *)
Theorem os_error_never_printed (uuidParses : string -> bool) (fl : Flags) (st : State) :
  trace st = [] ->
  Forall (fun ev => isOSError ev = false) (trace (main uuidParses fl st).2).
Proof.
  intros Hstart.
  destruct (story_of_run uuidParses fl st Hstart)
    as [[Hquiet _]|(pre & tail & Heq & Hstage & Htail)].
  - eapply Forall_impl; [exact Hquiet|]. intros ev Hev. apply Hev.
  - rewrite Heq. apply Forall_app. split.
    + eapply Forall_impl; [exact (Stage_quiet _ _ _ _ _ _ _ _ _ Hstage)|].
      intros ev Hev. apply Hev.
    + apply List.Forall_cons; [reflexivity|].
      eapply Forall_impl; [exact (launchTail_execs _ _ _ Htail)|].
      intros ev (argv & ->). reflexivity.
Qed.

Lemma os_error_never_printed_witness :
  Forall (fun ev => isOSError ev = false)
    (trace (main canonicalForm allFlagsGiven typedAnswers).2).
Proof.
  apply (os_error_never_printed canonicalForm allFlagsGiven typedAnswers). reflexivity.
Defined.

(** A run that ends by [os.Exit] ends with status 1, and a run that ends by
    [os.Exit] or by the [return] of a prompt loop has neither saved the
    cache nor launched anything: after the save only [log.Fatal] can end
    it. *)
Theorem early_exits (uuidParses : string -> bool) (fl : Flags) (st : State) (e : Exit) :
  trace st = [] ->
  (main uuidParses fl st).1 = Stop e ->
  exitOK e
  /\ ((exists msg, e = LogFatal msg)
      \/ Forall (fun ev => isSave ev = false /\ isLaunchEvent ev = false)
           (trace (main uuidParses fl st).2)).
Proof.
  intros Hstart Hstop.
  destruct (story_of_run uuidParses fl st Hstart)
    as [[Hquiet (e' & He & Hok)]|(pre & tail & Heq & Hstage & Htail)].
  - rewrite Hstop in He. injection He as <-. split; [exact Hok|]. right.
    eapply Forall_impl; [exact Hquiet|]. intros ev (H1 & H2 & _). auto.
  - rewrite Hstop in Htail.
    destruct Htail as [(_ & _ & msg & He)|(cmd & _ & [He|(msg & He)] & _)];
      try discriminate He; injection He as ->; (split; [exact I|]); left; eauto.
Qed.

Lemma early_exits_witness :
  exitOK (OsExit 1)
  /\ ((exists msg, OsExit 1 = LogFatal msg)
      \/ Forall (fun ev => isSave ev = false /\ isLaunchEvent ev = false)
           (trace (main canonicalForm allFlagsGiven dockerDown).2)).
Proof.
  apply (early_exits canonicalForm allFlagsGiven dockerDown (OsExit 1)); reflexivity.
Defined.

(** Whatever the flags, a run that saves the cache has asked for the device
    ID, the user ID and the operating system and has probed the
    architecture with [uname -m] before, and, unless the operating system is
    macOS, it has asked the GPU question. *)
Theorem flags_never_spare_questions (uuidParses : string -> bool) (fl : Flags)
  (st : State) (before after : list Event) (data : gmap string CacheValue) :
  trace st = [] ->
  trace (main uuidParses fl st).2 = before ++ ESaveCache data :: after ->
  In (EPrint idQuestion) before
  /\ In (EPrint userQuestion) before
  /\ In (EPrint osQuestion) before
  /\ In unameProbe before
  /\ (OperatingSystem (args (main uuidParses fl st).2) <> "macOS" ->
      In (EPrint gpuQuestion) before).
Proof.
  intros Hstart Htrace.
  destruct (story_of_run uuidParses fl st Hstart)
    as [[Hquiet _]|(pre & tail & Heq & Hstage & Htail)].
  - exfalso. rewrite Htrace in Hquiet. apply Forall_app in Hquiet as [_ Hquiet].
    apply List.Forall_cons_iff in Hquiet as [[Hsave _] _]. discriminate Hsave.
  - rewrite Heq in Htrace.
    pose proof (quiet_unsaved _ (Stage_quiet _ _ _ _ _ _ _ _ _ Hstage)) as Hpre.
    pose proof (launchTail_unsaved _ _ _ Htail) as Hpost.
    destruct (unique_marked isSave pre tail before after
                (ESaveCache (cacheData (args (main uuidParses fl st).2)))
                (ESaveCache data) Hpre Hpost eq_refl eq_refl Htrace)
      as (-> & _ & _).
    destruct Hstage as (_ & _ & _ & [Hid _] & [Huser _] & [Hos _] & [Harch _] & Hgpu).
    repeat split; try assumption.
    intros Hne. destruct Hgpu as [[Hmac _]|(_ & Hin & _)]; [contradiction|exact Hin].
Qed.

Lemma flags_never_spare_questions_witness :
  let final := (main canonicalForm allFlagsGiven typedAnswers).2 in
  let before := removelast (removelast (removelast (trace final))) in
  In (EPrint idQuestion) before
  /\ In (EPrint userQuestion) before
  /\ In (EPrint osQuestion) before
  /\ In unameProbe before
  /\ (OperatingSystem (args final) <> "macOS" -> In (EPrint gpuQuestion) before).
Proof.
  apply (flags_never_spare_questions canonicalForm allFlagsGiven typedAnswers
           (removelast (removelast (removelast
              (trace (main canonicalForm allFlagsGiven typedAnswers).2))))
           (skipn 1 (skipn (length (removelast (removelast (removelast
              (trace (main canonicalForm allFlagsGiven typedAnswers).2)))))
              (trace (main canonicalForm allFlagsGiven typedAnswers).2)))
           (cacheData (mkArguments "typed" otherUUID otherUUID "macOS" "false" "arm64"
                         false)));
    vm_compute; reflexivity.
Defined.

(** * From one run to the next *)

Lemma cacheData_rendered (a : Arguments) :
  Sprintf_v (index (cacheData a) "device_name") = DeviceName a
  /\ Sprintf_v (index (cacheData a) "device_id") = DeviceID a
  /\ Sprintf_v (index (cacheData a) "user_id") = UserID a
  /\ Sprintf_v (index (cacheData a) "operating_system") = OperatingSystem a
  /\ Sprintf_v (index (cacheData a) "usegpus") = UseGPUs a
  /\ Sprintf_v (index (cacheData a) "arch") = "<nil>"
  /\ Sprintf_v (index (cacheData a) "beta") = "<nil>".
Proof.
  unfold index, cacheData.
  repeat split;
    repeat first [rewrite lookup_insert_eq | rewrite lookup_insert_ne by discriminate];
    try rewrite lookup_empty; reflexivity.
Qed.

Lemma fallback_of_saved (a : Arguments) (fl : Flags) :
  DeviceName (fallback fl (cacheData a)) =
  if beta fl || String.eqb (architecture fl) "" then "<nil>"
  else if String.eqb (useGPUs fl) "" then UseGPUs a
  else if String.eqb (operatingSystem fl) "" then OperatingSystem a
  else if String.eqb (userID fl) "" then UserID a
  else if String.eqb (deviceID fl) "" then DeviceID a
  else if String.eqb (deviceName fl) "" then DeviceName a
  else "".
Proof.
  destruct (cacheData_rendered a) as (H1 & H2 & H3 & H4 & H5 & H6 & H7).
  unfold fallback. rewrite H1, H2, H3, H4, H5, H6, H7.
  destruct (beta fl), (String.eqb (architecture fl) ""), (String.eqb (useGPUs fl) ""),
    (String.eqb (operatingSystem fl) ""), (String.eqb (userID fl) ""),
    (String.eqb (deviceID fl) ""), (String.eqb (deviceName fl) ""); reflexivity.
Qed.

(** What the next run takes from a cache that a run has saved: no field but
    [DeviceName] is written.  [DeviceName] gets ["<nil>"] as soon as
    [--arch] is empty or [--beta] is set, because the saved cache has
    neither an ["arch"] nor a ["beta"]; otherwise it gets the saved value
    of the last flag left empty among [--device_name], [--device_id],
    [--user_id], [--operating_system] and [--usegpus] (the saved name itself
    only when [--device_name] is the only one), and stays empty when none
    is. *)
Theorem saved_cache_restores_one_value (a : Arguments) (fl : Flags) :
  sameButName newArguments (fallback fl (cacheData a))
  /\ DeviceName (fallback fl (cacheData a)) =
     if beta fl || String.eqb (architecture fl) "" then "<nil>"
     else if String.eqb (useGPUs fl) "" then UseGPUs a
     else if String.eqb (operatingSystem fl) "" then OperatingSystem a
     else if String.eqb (userID fl) "" then UserID a
     else if String.eqb (deviceID fl) "" then DeviceID a
     else if String.eqb (deviceName fl) "" then DeviceName a
     else "".
Proof.
  split; [rewrite fallback_plan; apply fallbackSteps_other_fields|].
  apply fallback_of_saved.
Qed.

(** A run that starts from the cache of a finished run without [--arch] has
    the device name ["<nil>"], whatever name was saved, and never asks for
    one. *)
Theorem next_run_is_named_nil (uuidParses : string -> bool) (a : Arguments) (fl : Flags)
  (st : State) :
  architecture fl = "" ->
  cacheFile st = inr (cacheData a) ->
  trace st = [] ->
  DeviceName (fallback fl (cacheData a)) = "<nil>"
  /\ Forall (fun ev => isNameQuestion ev = false) (trace (main uuidParses fl st).2).
Proof.
  intros Harch Hcache Hstart.
  assert (DeviceName (fallback fl (cacheData a)) = "<nil>") as Hnil.
  { rewrite fallback_of_saved, Harch. cbn [String.eqb]. rewrite orb_true_r. reflexivity. }
  split; [exact Hnil|].
  assert (cacheFile st = inr (cacheData a) /\ neverAskedName st) as Hst.
  { split; [exact Hcache|]. unfold neverAskedName. rewrite Hstart. constructor. }
  assert (DeviceName (fallback fl (cacheData a)) <> "") as Hname.
  { rewrite Hnil. discriminate. }
  pose proof (named_main uuidParses fl (cacheData a) Hname st Hst) as Hmain.
  destruct (main uuidParses fl st) as [[[]|e] st']; exact Hmain.
Qed.

Lemma next_run_is_named_nil_witness :
  DeviceName (fallback allFlagsMissing (cacheData linuxArguments)) = "<nil>"
  /\ Forall (fun ev => isNameQuestion ev = false)
       (trace (main canonicalForm allFlagsMissing secondRun).2).
Proof.
  apply (next_run_is_named_nil canonicalForm linuxArguments allFlagsMissing secondRun);
    reflexivity.
Defined.

(** * The checks before the launch *)

Lemma bind_done {A B : Type} (m : M A) (f : A -> M B) (st : State) (b : B) (st' : State) :
  (m ≫= f) st = (Done b, st') ->
  exists a st1, m st = (Done a, st1) /\ f a st1 = (Done b, st').
Proof.
  rewrite bind_run. destruct (m st) as [[a|e] st1]; [eauto|discriminate].
Qed.

Lemma checkGPUAvailability_run (st : State) :
  checkGPUAvailability st =
  match execErr (system st (trace st) ["nvidia-smi"]) with
  | Some _ =>
      (Done false,
       emit (EPrint ("nvidia-smi failed - please rerun io-setup or contact support on discord"
                     +:+ nl))
         (emit (EExec ["nvidia-smi"]) st))
  | None => (Done true, emit (EExec ["nvidia-smi"]) st)
  end.
Proof.
  unfold checkGPUAvailability. rewrite bind_run. unfold Exec. cbv beta iota.
  destruct (execErr _); reflexivity.
Qed.

Lemma checkNvidiaCTK_true (st st' : State) :
  checkNvidiaCTK st = (Done true, st') ->
  execErr (system st (trace st) ["nvidia-ctk"; "--version"]) = None
  /\ Contains (execOut (system st (trace st) ["nvidia-ctk"; "--version"]))
       "NVIDIA Container Toolkit CLI version" = true
  /\ st' = emit (EExec ["nvidia-ctk"; "--version"]) st.
Proof.
  unfold checkNvidiaCTK. rewrite bind_run. unfold Exec. cbv beta iota.
  destruct (execErr _); [intros H; discriminate H|].
  destruct (Contains _ _); intros H; [|discriminate H].
  injection H as <-. auto.
Qed.

Lemma getMacInfo_run (st : State) :
  getMacInfo st =
  (Done (succeeded (system st (trace st) ["sysctl"; "-n"; "machdep.cpu.brand_string"])),
   emit (EExec ["sysctl"; "-n"; "machdep.cpu.brand_string"]) st).
Proof. reflexivity. Qed.

Lemma ranOnly_refl (st : State) : ranOnly st st.
Proof.
  split; [reflexivity|]. split; [reflexivity|]. exists [].
  split; [rewrite app_nil_r; reflexivity|constructor].
Qed.

Lemma ranOnly_trans (st1 st2 st3 : State) : ranOnly st1 st2 -> ranOnly st2 st3 -> ranOnly st1 st3.
Proof.
  intros (Ha & Hi & evs & Ht & Hf) (Ha' & Hi' & evs' & Ht' & Hf').
  split; [congruence|]. split; [congruence|]. exists (evs ++ evs').
  split; [rewrite Ht', Ht, app_assoc; reflexivity|]. apply Forall_app. split; assumption.
Qed.

Lemma ranOnly_exec (argv : list string) (st : State) :
  isLaunch argv = false -> ranOnly st (emit (EExec argv) st).
Proof.
  intros Hargv. split; [reflexivity|]. split; [reflexivity|]. exists [EExec argv].
  split; [reflexivity|]. repeat constructor. exists argv. auto.
Qed.

(** The GPU gate of lines 341-345 lets a process through only when
    [nvidia-smi] succeeded and [nvidia-ctk --version] succeeded with the
    marker in its output. *)
Lemma gpu_gate_passed (st st' : State) :
  (gpu ← checkGPUAvailability;
   if negb gpu then osExit 1
   else ctk ← checkNvidiaCTK; if negb ctk then osExit 1 else mret tt) st = (Done tt, st') ->
  execErr (system st (trace st) ["nvidia-smi"]) = None
  /\ (let ctk := system st (trace st ++ [EExec ["nvidia-smi"]]) ["nvidia-ctk"; "--version"] in
      execErr ctk = None
      /\ Contains (execOut ctk) "NVIDIA Container Toolkit CLI version" = true)
  /\ ranOnly st st'.
Proof.
  intros Hrun. apply bind_done in Hrun as (gpu & st1 & Hgpu & Hrun).
  rewrite checkGPUAvailability_run in Hgpu.
  destruct (execErr (system st (trace st) ["nvidia-smi"])); injection Hgpu as <- <-;
    [discriminate Hrun|].
  cbn [negb] in Hrun. apply bind_done in Hrun as (ctk & st2 & Hctk & Hrun).
  destruct ctk; [|discriminate Hrun]. injection Hrun as <-.
  apply checkNvidiaCTK_true in Hctk as (Herr & Hmarker & ->).
  split; [reflexivity|]. split; [split; assumption|].
  eapply ranOnly_trans; apply ranOnly_exec; reflexivity.
Qed.

(** A process that gets through [finalChecks] has only run commands on the
    way (it printed nothing and changed no argument), among them
    [docker info]; its operating system and architecture are of the lists;
    and if it is to use GPUs outside macOS, [nvidia-smi] succeeded and
    [nvidia-ctk --version] succeeded and printed the marker.  The
    [docker info] is one of the commands run by the checks themselves. *)
Theorem finalChecks_gates (st st' : State) :
  finalChecks st = (Done tt, st') ->
  ranOnly st st'
  /\ In (EExec ["docker"; "info"]) (trace st')
  /\ contains validOSChoices (OperatingSystem (args st)) = true
  /\ contains validArchChoices (Architecture (args st)) = true
  /\ (OperatingSystem (args st) <> "macOS" -> UseGPUs (args st) = "true" ->
      execErr (system st (trace st) ["nvidia-smi"]) = None
      /\ (let ctk :=
            system st (trace st ++ [EExec ["nvidia-smi"]]) ["nvidia-ctk"; "--version"] in
          execErr ctk = None
          /\ Contains (execOut ctk) "NVIDIA Container Toolkit CLI version" = true))
  /\ exists evs, trace st' = trace st ++ evs /\ In (EExec ["docker"; "info"]) evs.
Proof.
  unfold finalChecks. intros Hrun.
  apply bind_done in Hrun as (a & st0 & Hargs & Hrun). injection Hargs as <- <-.
  apply bind_done in Hrun as ([] & st1 & Hgpu & Hrun).
  apply bind_done in Hrun as (docker & st2 & Hdocker & Hrun).
  apply bind_done in Hrun as ([] & st3 & Hup & Hrun).
  apply bind_done in Hrun as ([] & st4 & Hos & Hrun).
  apply bind_done in Hrun as ([] & st5 & Harch & Hrun).
  assert (ranOnly st st1
          /\ (OperatingSystem (args st) <> "macOS" -> UseGPUs (args st) = "true" ->
              execErr (system st (trace st) ["nvidia-smi"]) = None
              /\ (let ctk :=
                    system st (trace st ++ [EExec ["nvidia-smi"]]) ["nvidia-ctk"; "--version"]
                  in execErr ctk = None
                     /\ Contains (execOut ctk) "NVIDIA Container Toolkit CLI version" = true)))
    as [H01 Hgate].
  { destruct (negb (String.eqb (OperatingSystem (args st)) "macOS")
              && String.eqb (UseGPUs (args st)) "true") eqn:Hc.
    - apply gpu_gate_passed in Hgpu as (H1 & H2 & H3). auto.
    - injection Hgpu as <-. split; [apply ranOnly_refl|].
      intros Hne Htrue. apply String.eqb_neq in Hne. apply String.eqb_eq in Htrue.
      rewrite Hne, Htrue in Hc. discriminate Hc. }
  assert (docker = true /\ st2 = emit (EExec ["docker"; "info"]) st1 /\ st3 = st2)
    as (-> & -> & ->).
  { rewrite checkDocker_run in Hdocker.
    destruct (execErr _); injection Hdocker as <- <-; [discriminate Hup|].
    injection Hup as <-. auto. }
  assert (contains validOSChoices (OperatingSystem (args st)) = true /\ st4 = emit (EExec ["docker"; "info"]) st1)
    as [Hvalid ->].
  { destruct (contains validOSChoices (OperatingSystem (args st))); cbn [negb] in Hos.
    - injection Hos as <-. auto.
    - apply bind_done in Hos as (? & ? & _ & Hos). discriminate Hos. }
  assert (contains validArchChoices (Architecture (args st)) = true
          /\ st5 = emit (EExec ["docker"; "info"]) st1) as [Harchs ->].
  { destruct (contains validArchChoices (Architecture (args st))); cbn [negb] in Harch.
    - injection Harch as <-. auto.
    - apply bind_done in Harch as (? & ? & _ & Harch). discriminate Harch. }
  assert (ranOnly (emit (EExec ["docker"; "info"]) st1) st'
          /\ In (EExec ["docker"; "info"]) (trace st')) as [H5 Hin].
  { destruct (String.eqb (OperatingSystem (args st)) "macOS").
    - apply bind_done in Hrun as (silicon & st6 & Hmac & Hrun).
      rewrite getMacInfo_run in Hmac. injection Hmac as <- <-.
      match type of Hrun with
      | context [negb ?b] => destruct (negb b)
      end; [apply bind_done in Hrun as (? & ? & _ & Hrun); discriminate Hrun|].
      injection Hrun as <-. split; [apply ranOnly_exec; reflexivity|].
      rewrite !trace_emit. apply in_or_app. left. apply in_or_app. right. left. reflexivity.
    - injection Hrun as <-. split; [apply ranOnly_refl|].
      rewrite trace_emit. apply in_or_app. right. left. reflexivity. }
  split; [|split; [exact Hin|split; [exact Hvalid|split; [exact Harchs|split; [exact Hgate|]]]]].
  - eapply ranOnly_trans; [exact H01|].
    apply (ranOnly_trans _ (emit (EExec ["docker"; "info"]) st1) _);
      [apply ranOnly_exec; reflexivity|exact H5].
  - destruct H01 as (_ & _ & evs1 & Htrace1 & _).
    destruct H5 as (_ & _ & evs2 & Htrace2 & _).
    exists (evs1 ++ EExec ["docker"; "info"] :: evs2). split.
    + rewrite Htrace2, trace_emit, Htrace1, <- !app_assoc. reflexivity.
    + apply in_or_app. right. left. reflexivity.
Qed.

Lemma finalChecks_gates_witness :
  ranOnly readyToCheck (finalChecks readyToCheck).2
  /\ In (EExec ["docker"; "info"]) (trace (finalChecks readyToCheck).2)
  /\ contains validOSChoices (OperatingSystem (args readyToCheck)) = true
  /\ contains validArchChoices (Architecture (args readyToCheck)) = true
  /\ (OperatingSystem (args readyToCheck) <> "macOS" ->
      UseGPUs (args readyToCheck) = "true" ->
      execErr (system readyToCheck (trace readyToCheck) ["nvidia-smi"]) = None
      /\ (let ctk :=
            system readyToCheck (trace readyToCheck ++ [EExec ["nvidia-smi"]])
              ["nvidia-ctk"; "--version"] in
          execErr ctk = None
          /\ Contains (execOut ctk) "NVIDIA Container Toolkit CLI version" = true))
  /\ exists evs,
       trace (finalChecks readyToCheck).2 = trace readyToCheck ++ evs
       /\ In (EExec ["docker"; "info"]) evs.
Proof.
  apply (finalChecks_gates readyToCheck (finalChecks readyToCheck).2).
  assert ((finalChecks readyToCheck).1 = Done tt) as Hdone by (vm_compute; reflexivity).
  destruct (finalChecks readyToCheck) as [r st']. simpl in Hdone |- *.
  rewrite Hdone. reflexivity.
Defined.
